(** * Johnny Decimal: address parser, filing tree, policy cascade, scope guard

    A shallow embedding of the core of the [johnnydecimal] package
    ([util.py], [models.py], [policy.py], [scope.py]) and the proofs of
    its specified properties.

    Conventions of the embedding.
    - A Python [str] is the list of its code points ([N]); the character
      classes of [re] ([\d], [\s], [.]) and [$] are the Unicode ones of
      the interpreter.
    - Every pattern of the source is a term of a small regular
      expression type, run by a backtracking matcher with groups.
    - A [pathlib.Path] is an absolute path, held as the list of its
      components with the innermost first: [name] is the head, [parent]
      the tail, and the filesystem root is the empty list.
    - The filesystem and the YAML loader are read through a record of
      oracles ([FS]), the process environment through [Env]; the code
      only ever queries them.
    - A call that can raise returns a [res]; the exceptions are the
      Python ones.  A loop that may not end returns an [option]. *)

From Stdlib Require Import String Ascii DecimalString.
From Stdlib Require Import ZArith NArith Bool Lia List.
Import ListNotations.

Set Warnings "-register-all".

(* ================================================================== *)
(** * Part I: the program *)
(* ================================================================== *)

(** ** Python strings *)

Module Py.

Definition str := list N.

(** An ASCII literal as a Python string. *)
Definition lit (s : string) : str :=
  List.map N_of_ascii (list_ascii_of_string s).

Definition en_dash : N := 8211%N.
Definition newline : N := 10%N.

Fixpoint str_eqb (a b : str) : bool :=
  match a, b with
  | [], [] => true
  | x :: a', y :: b' => N.eqb x y && str_eqb a' b'
  | _, _ => false
  end.

(** [s.startswith(prefix)] *)
Fixpoint startswith (s prefix : str) {struct prefix} : bool :=
  match prefix, s with
  | [], _ => true
  | p :: prefix', c :: s' => N.eqb c p && startswith s' prefix'
  | _ :: _, [] => false
  end.

(** [sub in s] on strings *)
Fixpoint contains (s sub : str) : bool :=
  startswith s sub ||
  match s with
  | [] => false
  | _ :: s' => contains s' sub
  end.

(** The decimal digits of Unicode (version 14.0, as in CPython 3.11):
    in every script they are ten consecutive code points, the zero
    first.  These are the code points of the zeros; 48 is the ASCII
    one. *)
Definition decimal_zeros : list N :=
  [48; 1632; 1776; 1984; 2406; 2534; 2662; 2790; 2918; 3046; 3174;
   3302; 3430; 3558; 3664; 3792; 3872; 4160; 4240; 6112; 6160; 6470;
   6608; 6784; 6800; 6992; 7088; 7232; 7248; 42528; 43216; 43264;
   43472; 43504; 43600; 44016; 65296; 66720; 68912; 69734; 69872;
   69942; 70096; 70384; 70736; 70864; 71248; 71360; 71472; 71904;
   72016; 72784; 73040; 73120; 92768; 92864; 93008; 120782; 120792;
   120802; 120812; 120822; 123200; 123632; 125264; 130032]%N.

Fixpoint decimal_in (zeros : list N) (c : N) : option N :=
  match zeros with
  | [] => None
  | z :: zeros' =>
      if (z <=? c)%N && (c <? z + 10)%N then Some (c - z)%N
      else decimal_in zeros' c
  end.

(** [unicodedata.decimal(c)], [None] for a character that is no decimal
    digit. *)
Definition decimal (c : N) : option N := decimal_in decimal_zeros c.

(** [\d] on a [str] pattern: any decimal digit. *)
Definition is_digit (c : N) : bool :=
  match decimal c with Some _ => true | None => false end.

(** [\s] and [str.isspace]: Unicode white space. *)
Definition is_space (c : N) : bool :=
  ((9 <=? c) && (c <=? 13) || (28 <=? c) && (c <=? 32)
   || (c =? 133) || (c =? 160) || (c =? 5760)
   || (8192 <=? c) && (c <=? 8202)
   || (c =? 8232) || (c =? 8233) || (c =? 8239) || (c =? 8287)
   || (c =? 12288))%N.

(** [.] without DOTALL: anything but a newline. *)
Definition is_dot (c : N) : bool := negb (c =? newline)%N.

Fixpoint lstrip (s : str) : str :=
  match s with
  | c :: s' => if is_space c then lstrip s' else s
  | [] => []
  end.

(** [s.strip()] *)
Definition strip (s : str) : str := rev (lstrip (rev (lstrip s))).

(** [s.split(sep)] for a one-character separator. *)
Fixpoint split (sep : N) (s : str) : list str :=
  match s with
  | [] => [[]]
  | c :: s' =>
      if (c =? sep)%N then [] :: split sep s'
      else match split sep s' with
           | w :: ws => (c :: w) :: ws
           | [] => [[c]]
           end
  end.

(** [int(s)] on a string of decimal digits (it is only applied to groups
    matched by [\d{2}]). *)
Definition int (s : str) : Z :=
  fold_left
    (fun acc c =>
       (10 * acc
        + Z.of_N (match decimal c with Some d => d | None => 0%N end))%Z)
    s 0%Z.

(** [str(z)] for an integer. *)
Definition str_of_int (z : Z) : str :=
  lit (NilZero.string_of_int (Z.to_int z)).

(** [f"{z:02d}"]: zero padding to width 2, the sign counting for the
    width. *)
Definition format_02d (z : Z) : str :=
  let s := str_of_int z in
  if (length s <? 2)%nat then lit "0" ++ s else s.

(** The keys of a mapping as [yaml.safe_load] builds them: strings, and
    the integers it makes of unquoted numbers such as [26].  (Keys of
    other types are outside the model.) *)
Inductive key :=
| KStr (s : str)
| KInt (z : Z).

(** [a == b] on keys: a string never equals an integer. *)
Definition key_eqb (a b : key) : bool :=
  match a, b with
  | KStr s, KStr t => str_eqb s t
  | KInt x, KInt y => (x =? y)%Z
  | _, _ => false
  end.

(** Values as [yaml.safe_load] builds them: scalars, sequences, and
    mappings in document order.  (Floats and timestamps are outside the
    model.) *)
Inductive value :=
| VNone
| VBool (b : bool)
| VInt (z : Z)
| VStr (s : str)
| VList (l : list value)
| VDict (d : list (key * value)).

Definition dict := list (key * value).

(** [d.get(k)] *)
Fixpoint dict_get (k : key) (d : dict) : option value :=
  match d with
  | [] => None
  | (k', v) :: d' => if key_eqb k k' then Some v else dict_get k d'
  end.

(** [k in d] *)
Definition dict_has (k : key) (d : dict) : bool :=
  match dict_get k d with Some _ => true | None => false end.

(** [d[k] = v]: a present key keeps its place, a new one goes last. *)
Fixpoint dict_set (k : key) (v : value) (d : dict) : dict :=
  match d with
  | [] => [(k, v)]
  | (k', v') :: d' =>
      if key_eqb k k' then (k, v) :: d' else (k', v') :: dict_set k v d'
  end.

(** Truth value of an object ([if x:], [x or y]). *)
Definition truthy (v : value) : bool :=
  match v with
  | VNone => false
  | VBool b => b
  | VInt z => negb (z =? 0)%Z
  | VStr s => negb (str_eqb s [])
  | VList l => match l with [] => false | _ => true end
  | VDict d => match d with [] => false | _ => true end
  end.

(** [isinstance(v, dict)] *)
Definition is_dict (v : value) : bool :=
  match v with VDict _ => true | _ => false end.

End Py.

(** ** The fragment of [re] the package uses *)

Module Re.
Import Py.

(** Patterns are sequences and alternatives of character classes,
    [c+] on a class, [$], and numbered groups. *)
Inductive regex :=
| Eps
| Cls (p : N -> bool)
| Seq (r1 r2 : regex)
| Alt (r1 r2 : regex)
| Plus (p : N -> bool)
| Eos
| Grp (i : nat) (r : regex).

Definition captures := list (nat * str).

(** [$] without MULTILINE: the end of the string, or just before a
    newline that ends it. *)
Definition at_end (s : str) : bool :=
  match s with
  | [] => true
  | [c] => (c =? newline)%N
  | _ => false
  end.

(** The text a group has consumed when [s'] is what is left of [s]. *)
Definition consumed (s s' : str) : str := firstn (length s - length s') s.

(** [c+]: one or more characters of the class, the longest run first. *)
Fixpoint many (p : N -> bool) (k : str -> option captures) (t : str)
  : option captures :=
  match t with
  | c :: t' =>
      if p c then
        match many p k t' with
        | Some m => Some m
        | None => k t'
        end
      else None
  | [] => None
  end.

(** Backtracking matcher in continuation style: the alternatives are
    tried left to right and [c+] longest first, as [re] does. *)
Fixpoint run (r : regex) (s : str) (caps : captures)
         (k : str -> captures -> option captures) : option captures :=
  match r with
  | Eps => k s caps
  | Cls p =>
      match s with
      | c :: s' => if p c then k s' caps else None
      | [] => None
      end
  | Seq r1 r2 => run r1 s caps (fun s' caps' => run r2 s' caps' k)
  | Alt r1 r2 =>
      match run r1 s caps k with
      | Some m => Some m
      | None => run r2 s caps k
      end
  | Plus p => many p (fun t => k t caps) s
  | Eos => if at_end s then k s caps else None
  | Grp i r1 =>
      run r1 s caps
          (fun s' caps' =>
             k s' ((i, consumed s s') :: caps'))
  end.

(** [re.match(r, s)]: a match anchored at the start of [s] (so a leading
    [^] adds nothing and is dropped from the patterns below). *)
Definition re_match (r : regex) (s : str) : option captures :=
  run r s [] (fun _ caps => Some caps).

(** [m.group(i)]; [None] when the group did not take part. *)
Fixpoint group (m : captures) (i : nat) : option str :=
  match m with
  | [] => None
  | (j, t) :: m' => if Nat.eqb i j then Some t else group m' i
  end.

Definition matched (m : option captures) : bool :=
  match m with Some _ => true | None => false end.

(** [m.group(i)] of a group that always takes part in a match. *)
Definition group_of (m : captures) (i : nat) : str :=
  match group m i with Some t => t | None => [] end.

Definition chr (c : N) : regex := Cls (N.eqb c).
Definition one_of (cs : list N) : regex :=
  Cls (fun c => existsb (N.eqb c) cs).
Definition digit : regex := Cls is_digit.
Definition digit2 : regex := Seq digit digit.
Definition space : regex := chr 32.
Definition dot : regex := chr 46.
Definition ws : regex := Cls is_space.
Definition any_plus : regex := Plus is_dot.
Definition hyphen_or_dash : regex := one_of [45%N; en_dash].

(** A string interpolated into a pattern; the interpolated strings are
    digits (and at most a newline), which stand for themselves. *)
Fixpoint text (s : str) : regex :=
  match s with
  | [] => Eps
  | c :: s' => Seq (chr c) (text s')
  end.

Fixpoint conc (rs : list regex) : regex :=
  match rs with
  | [] => Eps
  | [r] => r
  | r :: rs' => Seq r (conc rs')
  end.

End Re.

(** ** Paths, exceptions and the outside world *)

Module Os.
Import Py.

Definition path := list str.

(** [p.name] (empty for the filesystem root) *)
Definition name (p : path) : str :=
  match p with
  | n :: _ => n
  | [] => []
  end.

(** [p.parent] (the filesystem root is its own parent) *)
Definition parent (p : path) : path := tl p.

(** [p / n] *)
Definition child (p : path) (n : str) : path := n :: p.

(** [Path(s)] for the text of an absolute path: the components between
    the slashes, empty ones and [.] dropped. *)
Definition path_of_str (s : str) : path :=
  rev (filter (fun part => negb (str_eqb part [] || str_eqb part (lit ".")))
              (split 47 s)).

Definition Path (s : string) : path := path_of_str (lit s).

Fixpoint path_eqb (a b : path) : bool :=
  match a, b with
  | [], [] => true
  | x :: a', y :: b' => str_eqb x y && path_eqb a' b'
  | _, _ => false
  end.

(** [p.is_relative_to(other)]: [other] is [p] or one of its ancestors. *)
Definition is_relative_to (p other : path) : bool :=
  path_eqb (skipn (length p - length other) p) other.

Inductive exn :=
| PermissionError
| FileNotFoundError
| NotADirectoryError
| IsADirectoryError
| OSError
| YAMLError
| UnicodeDecodeError
| AttributeError
| TypeError
| ValueError
| NotJohnnyDecimalDirectoryError (p : path).

(** [except (yaml.YAMLError, OSError)]: the exceptions the clause
    catches, [OSError] with its subclasses. *)
Definition yaml_or_os_error (e : exn) : bool :=
  match e with
  | YAMLError | OSError | PermissionError | FileNotFoundError
  | NotADirectoryError | IsADirectoryError => true
  | _ => false
  end.

Inductive res (A : Type) :=
| Ok (a : A)
| Raise (e : exn).
Arguments Ok {A} a.
Arguments Raise {A} e.

Definition bind {A B} (m : res A) (f : A -> res B) : res B :=
  match m with
  | Ok a => f a
  | Raise e => Raise e
  end.

(** The filesystem as the code sees it. *)
Record FS := {
  path_exists : path -> bool;        (* [Path.exists] *)
  is_dir : path -> bool;             (* [Path.is_dir] *)
  listdir : path -> res (list str);  (* entry names, in the order the
                                        system delivers them *)
  resolve : path -> path;            (* [Path.resolve] *)
  safe_load : path -> res value      (* [open] then [yaml.safe_load]:
                                        the document, or the exception
                                        that either raises *)
}.

(** [p.iterdir()]: the entries of [p] as paths. *)
Definition iterdir (fs : FS) (p : path) : res (list path) :=
  match listdir fs p with
  | Ok names => Ok (List.map (child p) names)
  | Raise e => Raise e
  end.

(** The process environment. *)
Record Env := {
  home : path;                       (* [Path.home()] *)
  cwd : path;                        (* [Path.cwd()] *)
  JD_AGENT_SCOPE : option str;       (* [os.environ.get(...)] *)
  yaml_imported : bool               (* [import yaml] succeeded *)
}.

End Os.

Declare Scope res_scope.
Delimit Scope res_scope with res.
Notation "x <- m ;; f" := (Os.bind m (fun x => f))
  (at level 61, m at next level, right associativity) : res_scope.

(** ** util.py *)

Module Util.
Import Py Re Os.

(** [\d{2}[-–]\d{2} .+] *)
Definition re_area : regex :=
  conc [digit2; hyphen_or_dash; digit2; space; any_plus].

(** [\d{2}[-–]\d{2} ] *)
Definition re_area_prefix : regex :=
  conc [digit2; hyphen_or_dash; digit2; space].

(** [\d{2}\.\d{2} ] *)
Definition re_id_prefix : regex := conc [digit2; dot; digit2; space].

(** [\d{2} .+] *)
Definition re_category : regex := conc [digit2; space; any_plus].

(** [\d{2}\.\d{2}($| .+)] *)
Definition re_id : regex :=
  conc [digit2; dot; digit2; Grp 1 (Alt Eos (Seq space any_plus))].

(** [(\d{2})\.(\d{2})] *)
Definition re_id_string : regex :=
  conc [Grp 1 digit2; dot; Grp 2 digit2].

Definition is_jd_area (fs : FS) (directory : path) : bool :=
  if negb (is_dir fs directory) then false
  else matched (re_match re_area (name directory)).

Definition is_jd_category (fs : FS) (directory : path) : bool :=
  if negb (is_dir fs directory) then false
  else
    let name := name directory in
    if matched (re_match re_area_prefix name) then false
    else if matched (re_match re_id_prefix name) then false
    else matched (re_match re_category name).

Definition is_jd_id (fs : FS) (directory : path) : bool :=
  if negb (is_dir fs directory) then false
  else matched (re_match re_id (name directory)).

Definition is_jd_id_file (fs : FS) (p : path) : bool :=
  if is_dir fs p then false
  else matched (re_match re_id (name p)).

(** [iterdir] runs inside the [try]: only [PermissionError] is caught. *)
Definition is_jd_root (fs : FS) (directory : path) : res bool :=
  match iterdir fs directory with
  | Raise PermissionError => Ok false
  | Raise e => Raise e
  | Ok entries =>
      let children :=
        filter (fun d => is_dir fs d && negb (startswith (name d) (lit ".")))
               entries in
      let area_count := length (filter (is_jd_area fs) children) in
      Ok (3 <=? area_count)%nat
  end.

Definition is_in_user_home (env : Env) (directory : path) : bool :=
  is_relative_to directory (home env).

Definition is_jd_directory (fs : FS) (directory : path) : res bool :=
  if is_jd_area fs directory || is_jd_category fs directory
     || is_jd_id fs directory
  then Ok true
  else is_jd_root fs directory.

(** The [while] loop of [get_jd_root_dir]: the value of [path] when the
    loop is left.  [None] stands for a loop that never ends: at the
    filesystem root [path.parent] is [path] again. *)
Fixpoint walk_up (fs : FS) (env : Env) (p : path) : option (res path) :=
  match is_jd_root fs p with
  | Raise e => Some (Raise e)
  | Ok r =>
      if negb r && is_in_user_home env p then
        match p with
        | [] => None
        | _ :: up => walk_up fs env up
        end
      else Some (Ok p)
  end.

Definition get_jd_root_dir (fs : FS) (env : Env) (start_path : path)
  : option (res path) :=
  match walk_up fs env start_path with
  | None => None
  | Some (Raise e) => Some (Raise e)
  | Some (Ok p) =>
      Some (match is_jd_root fs p with
            | Raise e => Raise e
            | Ok true => Ok p
            | Ok false => Raise (NotJohnnyDecimalDirectoryError p)
            end)
  end.

Definition parse_jd_id_string (id_str : str) : res (Z * Z) :=
  match re_match re_id_string id_str with
  | None => Raise ValueError
  | Some m => Ok (int (group_of m 1), int (group_of m 2))
  end.

Definition format_jd_id (category sequence : Z) : str :=
  format_02d category ++ lit "." ++ format_02d sequence.

End Util.

(** ** models.py *)

Module Models.
Import Py Re Os.

(** [(\d{2})\.(\d{2})(?:\s+(.+))?] *)
Definition re_jdid : regex :=
  conc [Grp 1 digit2; dot; Grp 2 digit2;
        Alt (Seq (Plus is_space) (Grp 3 any_plus)) Eps].

Record JDID := {
  id_path : path;
  _cat_number : Z;
  _sequence : Z;
  _name : str
}.

(** [JDID.__init__] *)
Definition JDID_init (p : path) : JDID :=
  match re_match re_jdid (name p) with
  | Some m =>
      {| id_path := p;
         _cat_number := int (group_of m 1);
         _sequence := int (group_of m 2);
         _name := match group m 3 with Some t => t | None => [] end |}
  | None =>
      {| id_path := p; _cat_number := 0; _sequence := 0; _name := name p |}
  end.

Definition sequence (i : JDID) : Z := _sequence i.

Definition id_str (i : JDID) : str :=
  format_02d (_cat_number i) ++ lit "." ++ format_02d (_sequence i).

(** A category with the IDs its scan found. *)
Record JDCategory := {
  cat_path : path;
  _number : Z;
  cat_name : str;
  ids : list JDID
}.

(** [range(a, b)] *)
Definition range (a b : Z) : list Z :=
  List.map (fun i => (a + Z.of_nat i)%Z) (List.seq 0 (Z.to_nat (b - a))).

(** [used] is a set; the loop only asks it for membership. *)
Definition next_id (c : JDCategory) : res Z :=
  let used := List.map sequence (ids c) in
  match find (fun i => negb (existsb (Z.eqb i) used)) (range 1 100) with
  | Some i => Ok i
  | None => Raise ValueError
  end.

End Models.

(** ** policy.py *)

Module Policy.
Import Py Re Os.
#[local] Open Scope res_scope.

Definition DEFAULTS : dict :=
  [ (KStr (lit "conventions"),
     VDict
       [ (KStr (lit "meta_category"), VBool true);
         (KStr (lit "meta_id"), VBool true);
         (KStr (lit "unsorted_id"), VBool true);
         (KStr (lit "ids_files_only"), VBool false);
         (KStr (lit "ids_as_files"), VBool false);
         (KStr (lit "capture_category"), VStr (lit "01"));
         (KStr (lit "naming"),
          VDict
            [ (KStr (lit "separator"), VStr (lit "-"));
              (KStr (lit "case"), VStr (lit "sentence"));
              (KStr (lit "no_trailing_spaces"), VBool true);
              (KStr (lit "no_special_chars"), VBool true) ]) ]);
    (KStr (lit "ignore"),
     VList
       [ VStr (lit ".DS_Store"); VStr (lit ".git");
         VStr (lit "__pycache__"); VStr (lit ".Trash");
         VStr (lit "*.pyc") ]) ].

Definition POLICY_FILENAME : str := lit "policy.yaml".

(** [\d{2}\.00$] *)
Definition re_meta : regex := conc [digit2; dot; chr 48; chr 48; Eos].
(** [(\d{2})\.\d{2}] *)
Definition re_id_num : regex := conc [Grp 1 digit2; dot; digit2].
(** [(\d{2}) ] *)
Definition re_cat_num : regex := conc [Grp 1 digit2; space].
(** [(\d)(\d)[-–]\d{2} ] *)
Definition re_area_num : regex :=
  conc [Grp 1 digit; Grp 2 digit; hyphen_or_dash; digit2; space].
(** [00[-–]09 ] *)
Definition re_area_00 : regex :=
  conc [chr 48; chr 48; hyphen_or_dash; chr 48; chr 57; space].

(** The inner loop of the root case: the first [00 ...] directory whose
    [00.00] exists. *)
Fixpoint scan_categories (fs : FS) (cats : list path) : option path :=
  match cats with
  | [] => None
  | cat_child :: rest =>
      if is_dir fs cat_child && startswith (name cat_child) (lit "00 ")
      then
        let meta := child cat_child (lit "00.00") in
        if path_exists fs meta then Some meta else scan_categories fs rest
      else scan_categories fs rest
  end.

(** The outer loop of the root case. *)
Fixpoint scan_areas (fs : FS) (areas : list path) : res (option path) :=
  match areas with
  | [] => Ok None
  | area_child :: rest =>
      if is_dir fs area_child
         && matched (re_match re_area_00 (name area_child))
      then
        cats <- iterdir fs area_child ;;
        match scan_categories fs cats with
        | Some meta => Ok (Some meta)
        | None => scan_areas fs rest
        end
      else scan_areas fs rest
  end.

Definition find_meta_dir (fs : FS) (p : path) : res (option path) :=
  let name := name p in
  if matched (re_match re_meta name) then Ok (Some p)
  else
    match re_match re_id_num name with
    | Some m =>
        let cat_num := group_of m 1 in
        let meta := child (parent p) (cat_num ++ lit ".00") in
        if path_exists fs meta then Ok (Some meta) else Ok None
    | None =>
    match re_match re_cat_num name with
    | Some m =>
        let cat_num := group_of m 1 in
        let meta := child p (cat_num ++ lit ".00") in
        if path_exists fs meta then Ok (Some meta) else Ok None
    | None =>
    match re_match re_area_num name with
    | Some m =>
        let area_digit := group_of m 1 in
        let meta_cat_num := area_digit ++ lit "0" in
        children <- iterdir fs p ;;
        match find (fun c => is_dir fs c
                             && startswith (Os.name c)
                                           (meta_cat_num ++ lit " "))
                   children with
        | Some c =>
            let meta := child c (meta_cat_num ++ lit ".00") in
            if path_exists fs meta then Ok (Some meta) else Ok None
        | None => Ok None
        end
    | None =>
        areas <- iterdir fs p ;;
        scan_areas fs areas
    end end end.

(** [None]: no document; otherwise what the loader built ([{}] for an
    empty one). *)
Definition load_policy_file (fs : FS) (p : path) : res (option value) :=
  meta <- find_meta_dir fs p ;;
  match meta with
  | None => Ok None
  | Some meta =>
      let policy_path := child meta POLICY_FILENAME in
      if path_exists fs policy_path then
        match safe_load fs policy_path with
        | Ok v => Ok (Some (if truthy v then v else VDict []))
        | Raise e => if yaml_or_os_error e then Ok None else Raise e
        end
      else Ok None
  end.

(** [deep_merge(base, override)], by recursion on the override: the loop
    runs over its items and the recursive call descends into a value of
    one of them. *)
Fixpoint merge_into (override : value) (base : dict) {struct override}
  : dict :=
  match override with
  | VDict entries =>
      (fix loop (items : list (key * value)) (result : dict) : dict :=
         match items with
         | [] => result
         | (key, v) :: items' =>
             loop items'
                  (match dict_get key result, v with
                   | Some (VDict sub), VDict _ =>
                       dict_set key (VDict (merge_into v sub)) result
                   | _, _ => dict_set key v result
                   end)
         end) entries base
  | _ => base
  end.

Definition deep_merge (base override : dict) : dict :=
  merge_into (VDict override) base.

(** One round of the loop of [deep_merge]. *)
Definition merge_item (result : dict) (k : key) (v : value) : dict :=
  match dict_get k result, v with
  | Some (VDict sub), VDict o => dict_set k (VDict (deep_merge sub o)) result
  | _, _ => dict_set k v result
  end.

(** [^\*\.(\d{2})$] *)
Definition re_star : regex := conc [chr 42; dot; Grp 1 digit2; Eos].
(** [\d{2}\.{seq}($|\s)] *)
Definition re_any_seq (seq : str) : regex :=
  conc [digit2; dot; text seq; Grp 1 (Alt Eos ws)].
(** [(\d)0\s] *)
Definition re_x0 : regex := conc [Grp 1 digit; chr 48; ws].
(** [\d{2}\.\d{2}$] *)
Definition re_id_exact : regex := conc [digit2; dot; digit2; Eos].
(** [\d{2}$] *)
Definition re_cat_exact : regex := conc [digit2; Eos].
(** [^{pattern}\s] *)
Definition re_cat_name (pattern : str) : regex := conc [text pattern; ws].

Definition match_pattern (pattern dir_name : str) : bool :=
  match re_match re_star pattern with
  | Some m =>
      let seq := group_of m 1 in
      matched (re_match (re_any_seq seq) dir_name)
  | None =>
      if str_eqb pattern (lit "x0") then
        match re_match re_x0 dir_name with
        | Some m2 => negb (str_eqb (group_of m2 1) (lit "0"))
        | None => false
        end
      else if matched (re_match re_id_exact pattern) then
        startswith dir_name pattern
      else if matched (re_match re_cat_exact pattern) then
        matched (re_match (re_cat_name pattern) dir_name)
      else false
  end.

(** The [while True] loop of [resolve_policy]. *)
Fixpoint walk_chain (fs : FS) (root_resolved root current : path)
         (chain : list path) : list path :=
  let chain := chain ++ [current] in
  if path_eqb (resolve fs current) root_resolved then chain
  else
    match current with
    | [] => if existsb (path_eqb root) chain then chain else chain ++ [root]
    | _ :: up => walk_chain fs root_resolved root up chain
    end.

(** ["conventions" in x] *)
Definition py_in (k : str) (x : value) : res bool :=
  match x with
  | VDict d => Ok (dict_has (KStr k) d)
  | VStr s => Ok (contains s k)
  | VList l =>
      Ok (existsb (fun e => match e with
                            | VStr t => str_eqb t k
                            | _ => false
                            end) l)
  | _ => Raise TypeError
  end.

(** [x.items()] *)
Definition items (x : value) : res dict :=
  match x with
  | VDict d => Ok d
  | _ => Raise AttributeError
  end.

(** [match_pattern(pattern, target_name)] for a key of [patterns]: on a
    key that is no string the first [re.match] raises [TypeError]. *)
Definition match_pattern_key (pattern : key) (target_name : str)
  : res bool :=
  match pattern with
  | KStr pattern => Ok (match_pattern pattern target_name)
  | KInt _ => Raise TypeError
  end.

(** The loop over [patterns.items()]. *)
Fixpoint apply_patterns (target_name : str) (patterns : dict)
         (effective : dict) : res dict :=
  match patterns with
  | [] => Ok effective
  | (pattern, pattern_policy) :: rest =>
      matches <- match_pattern_key pattern target_name ;;
      if matches then
        has <- py_in (lit "conventions") pattern_policy ;;
        override <- (if negb has
                     then Ok [(KStr (lit "conventions"), pattern_policy)]
                     else items pattern_policy) ;;
        apply_patterns target_name rest (deep_merge effective override)
      else apply_patterns target_name rest effective
  end.

(** One round of the loop over the chain. *)
Definition apply_level (fs : FS) (target_name : str) (effective : dict)
           (dir_path : path) : res dict :=
  policy <- load_policy_file fs dir_path ;;
  match policy with
  | None => Ok effective
  | Some policy =>
      if truthy policy then
        entries <- items policy ;;
        let base :=
          filter (fun kv => negb (key_eqb (fst kv) (KStr (lit "patterns"))))
                 entries in
        let effective :=
          if truthy (VDict base) then deep_merge effective base
          else effective in
        let patterns :=
          match dict_get (KStr (lit "patterns")) entries with
          | Some v => v
          | None => VDict []
          end in
        pats <- items patterns ;;
        apply_patterns target_name pats effective
      else Ok effective
  end.

Fixpoint apply_chain (fs : FS) (target_name : str) (chain : list path)
         (effective : dict) : res dict :=
  match chain with
  | [] => Ok effective
  | dir_path :: rest =>
      effective' <- apply_level fs target_name effective dir_path ;;
      apply_chain fs target_name rest effective'
  end.

Definition resolve_policy (fs : FS) (p root : path) : res dict :=
  let root_resolved := resolve fs root in
  let chain := rev (walk_chain fs root_resolved root p []) in
  let effective := DEFAULTS in
  let target_name := name (resolve fs p) in
  apply_chain fs target_name chain effective.

(** The loop of [get_convention] over the parts of a dotted key. *)
Fixpoint descend (parts : list str) (current : value) (default : value)
  : value :=
  match parts with
  | [] => match current with VNone => default | _ => current end
  | part :: rest =>
      match current with
      | VDict d =>
          descend rest
                  (match dict_get (KStr part) d with
                   | Some v => v
                   | None => VNone
                   end)
                  default
      | _ => default
      end
  end.

Definition get_convention (policy : dict) (key : str) (default : value)
  : res value :=
  let conventions :=
    match dict_get (KStr (lit "conventions")) policy with
    | Some c => c
    | None => VDict []
    end in
  if contains key (lit ".") then
    Ok (descend (split 46 key) conventions default)
  else
    match conventions with
    | VDict c =>
        Ok (match dict_get (KStr key) c with
            | Some v => v
            | None => default
            end)
    | _ => Raise AttributeError
    end.

End Policy.

(** ** scope.py *)

Module Scope.
Import Py Re Os.
#[local] Open Scope res_scope.

(** [(\d{2})-(\d{2})$] *)
Definition re_range : regex :=
  conc [Grp 1 digit2; chr 45; Grp 2 digit2; Eos].
(** [\d{2}$] *)
Definition re_cat : regex := conc [digit2; Eos].
(** [^{pattern}\.] *)
Definition re_cat_dot (pattern : str) : regex := conc [text pattern; dot].
(** [\d{2}\.\d{2}$] *)
Definition re_id : regex := conc [digit2; dot; digit2; Eos].
(** [(\d{2})\.\d{2}$] *)
Definition re_num_id : regex := conc [Grp 1 digit2; dot; digit2; Eos].
(** [(\d{2})$] *)
Definition re_num_cat : regex := conc [Grp 1 digit2; Eos].
(** [(\d{2})-\d{2}$] *)
Definition re_num_area : regex := conc [Grp 1 digit2; chr 45; digit2; Eos].

(** The text of the denial carries the target and the scope. *)
Inductive message :=
| OutOfScope (target : str) (scope : list str).

(** [Path(s)] for the text of a path, relative ones standing in the
    working directory. *)
Definition os_path (env : Env) (s : str) : path :=
  if startswith s (lit "/") then path_of_str s
  else path_of_str s ++ cwd env.

Definition find_scope_file (fs : FS) (env : Env) : option path :=
  let from_cwd :=
    let cwd_scope := child (cwd env) (lit "jd.yaml") in
    if path_exists fs cwd_scope then Some cwd_scope else None in
  match JD_AGENT_SCOPE env with
  | Some env_path =>
      if truthy (VStr env_path) then
        let p := os_path env env_path in
        if path_exists fs p then Some p else None
      else from_cwd
  | None => from_cwd
  end.

Definition _extract_number (target : str) : option Z :=
  match re_match re_num_id target with
  | Some m => Some (int (group_of m 1))
  | None =>
      match re_match re_num_cat target with
      | Some m => Some (int (group_of m 1))
      | None =>
          match re_match re_num_area target with
          | Some m => Some (int (group_of m 1))
          | None => None
          end
      end
  end.

Fixpoint is_in_scope (target : str) (scope : list str) : bool :=
  match scope with
  | [] => false
  | pattern :: rest =>
      let pattern := strip pattern in
      match re_match re_range pattern with
      | Some m =>
          let low := int (group_of m 1) in
          let high := int (group_of m 2) in
          match _extract_number target with
          | Some target_num =>
              if (low <=? target_num)%Z && (target_num <=? high)%Z then true
              else is_in_scope target rest
          | None => is_in_scope target rest
          end
      | None =>
          if matched (re_match re_cat pattern) then
            if match _extract_number target with
               | Some target_num => (target_num =? int pattern)%Z
               | None => false
               end
            then true
            else if matched (re_match (re_cat_dot pattern) target) then true
            else is_in_scope target rest
          else if matched (re_match re_id pattern) then
            if str_eqb target pattern then true
            else is_in_scope target rest
          else is_in_scope target rest
      end
  end.

Section WithRepr.

(** [str(x)] of a sequence or a mapping is its [repr], which the
    interpreter supplies. *)
Variable repr : value -> str.

(** [str(x)] *)
Definition py_str (x : value) : str :=
  match x with
  | VStr s => s
  | VInt z => str_of_int z
  | VBool true => lit "True"
  | VBool false => lit "False"
  | VNone => lit "None"
  | _ => repr x
  end.

(** [None]: unrestricted. *)
Definition load_scope (fs : FS) (env : Env) (scope_file : option path)
  : res (option (list str)) :=
  let scope_file :=
    match scope_file with
    | None => find_scope_file fs env
    | Some f => Some f
    end in
  match scope_file with
  | None => Ok None
  | Some f =>
      if negb (yaml_imported env) then Ok None
      else
        match safe_load fs f with
        | Raise e => if yaml_or_os_error e then Ok None else Raise e
        | Ok v =>
            match (if truthy v then v else VDict []) with
            | VDict data =>
                let scope :=
                  match dict_get (KStr (lit "scope")) data with
                  | Some x => x
                  | None => VNone
                  end in
                match scope with
                | VNone => Ok None
                | VStr s =>
                    if str_eqb s (lit "all") then Ok None
                    else Ok None
                | VList l => Ok (Some (List.map py_str l))
                | _ => Ok None
                end
            | _ => Raise AttributeError
            end
        end
  end.

Definition check_scope (fs : FS) (env : Env) (target : str)
           (scope_file : option path) : res (bool * option message) :=
  scope <- load_scope fs env scope_file ;;
  match scope with
  | None => Ok (true, None)
  | Some scope =>
      if is_in_scope target scope then Ok (true, None)
      else Ok (false, Some (OutOfScope target scope))
  end.

End WithRepr.

End Scope.

(** ** Filesystems given by a tree *)

Module Tree.
Import Py Os.

(** A file with what [open] and the YAML loader make of it (the
    document, or the exception raised), or a directory with its entries
    in listing order. *)
Inductive node :=
| File (content : res value)
| Dir (entries : list (str * node)).

Fixpoint entry (n : str) (es : list (str * node)) : option node :=
  match es with
  | [] => None
  | (n', t) :: es' => if str_eqb n n' then Some t else entry n es'
  end.

(** The node at the given components, outermost first. *)
Fixpoint lookup (t : node) (parts : list str) : option node :=
  match parts with
  | [] => Some t
  | n :: parts' =>
      match t with
      | Dir es =>
          match entry n es with
          | Some t' => lookup t' parts'
          | None => None
          end
      | File _ => None
      end
  end.

Definition at_path (t : node) (p : path) : option node := lookup t (rev p).

(** The filesystem whose root directory is [t]; it has no links. *)
Definition fs_of (t : node) : FS :=
  {| path_exists := fun p =>
       match at_path t p with Some _ => true | None => false end;
     is_dir := fun p =>
       match at_path t p with Some (Dir _) => true | _ => false end;
     listdir := fun p =>
       match at_path t p with
       | Some (Dir es) => Ok (List.map fst es)
       | Some (File _) => Raise NotADirectoryError
       | None => Raise FileNotFoundError
       end;
     resolve := fun p => p;
     safe_load := fun p =>
       match at_path t p with
       | Some (File c) => c
       | Some (Dir _) => Raise IsADirectoryError
       | None => Raise FileNotFoundError
       end |}.

Definition dir (n : string) (es : list (str * node)) : str * node :=
  (lit n, Dir es).
Definition file (n : string) (c : res value) : str * node :=
  (lit n, File c).

End Tree.

(** ** Sample filesystems *)

Module Sample.
Import Py Os Tree.

Definition ids_files_only_doc : value :=
  VDict [(KStr (lit "conventions"),
          VDict [(KStr (lit "ids_files_only"), VBool true)])].

(** The same with a pattern rule that switches the convention off again
    for the IDs numbered 01. *)
Definition ids_files_only_but_01_doc : value :=
  VDict [(KStr (lit "conventions"),
          VDict [(KStr (lit "ids_files_only"), VBool true)]);
         (KStr (lit "patterns"),
          VDict [(KStr (lit "*.01"),
                  VDict [(KStr (lit "ids_files_only"), VBool false)])])].

(** A policy document for the root: it sets the case of names and has
    a rule for the area meta categories. *)
Definition naming_doc : value :=
  VDict [(KStr (lit "conventions"),
          VDict [(KStr (lit "naming"),
                  VDict [(KStr (lit "case"), VStr (lit "title"))])]);
         (KStr (lit "patterns"),
          VDict [(KStr (lit "x0"),
                  VDict [(KStr (lit "meta_id"), VBool false)])])].

(** A filing system under [/home/alice/Documents]: [00.00] holds the
    files [at_root], and [80.00] the policy document [doc]. *)
Definition filing_under (at_root : list (str * node)) (doc : value)
  : node :=
  Dir [dir "home" [dir "alice" [dir "Documents"
    [ dir "00-09 System" [dir "00 Indices" [dir "00.00" at_root]];
      dir "20-29 Family"
          [dir "26 Recipes"
               [dir "26.00" []; dir "26.01 Unsorted" [];
                dir "26.05 Soups" []]];
      dir "70-79 Hobbies"
          [dir "71 Music" [dir "71.01 Scores" []]];
      dir "80-89 Work"
          [dir "80 Meta - Work"
               [dir "80.00" [file "policy.yaml" (Ok doc)];
                dir "80.01 Unsorted" []];
           dir "81 Projects" [dir "81.01 Alpha" []]];
      dir ".git" []; file "notes.txt" (Raise YAMLError) ]]]].

(** The same with [doc] as the only policy document. *)
Definition filing_with (doc : value) : node := filing_under [] doc.

Definition filing : node := filing_with ids_files_only_doc.

(** The same with a policy document for the root as well. *)
Definition filing_with_root_policy : node :=
  filing_under [file "policy.yaml" (Ok naming_doc)] ids_files_only_doc.

Definition documents : path := Path "/home/alice/Documents".
Definition meta_work : path :=
  Path "/home/alice/Documents/80-89 Work/80 Meta - Work".
Definition unsorted_80 : path :=
  Path "/home/alice/Documents/80-89 Work/80 Meta - Work/80.01 Unsorted".
Definition projects_81 : path :=
  Path "/home/alice/Documents/80-89 Work/81 Projects".
Definition alpha_81 : path :=
  Path "/home/alice/Documents/80-89 Work/81 Projects/81.01 Alpha".
Definition scores_71 : path :=
  Path "/home/alice/Documents/70-79 Hobbies/71 Music/71.01 Scores".

(** A filing system at [/srv/filing] in which the home directory of the
    user is one of the entries of the root. *)
Definition shared : node :=
  Dir [dir "srv" [dir "filing"
    [ dir "10-19 Admin" []; dir "20-29 Projects" [];
      dir "30-39 Archive" [];
      dir "rex" [dir "work" []] ]]].

Definition rex_env : Env :=
  {| home := Path "/srv/filing/rex";
     cwd := Path "/srv/filing/rex/work";
     JD_AGENT_SCOPE := None;
     yaml_imported := true |}.

(** A machine with working directories that hold a scope manifest:
    [/work/agent] (scope 20-29), [/work/empty] (an empty scope) and
    [/work/binary] (a file that is not valid UTF-8). *)
Definition scoped : node :=
  Dir [dir "work"
         [dir "agent"
              [file "jd.yaml"
                    (Ok (VDict [(KStr (lit "scope"),
                                 VList [VStr (lit "20-29")])]))];
          dir "empty"
              [file "jd.yaml"
                    (Ok (VDict [(KStr (lit "scope"), VList [])]))];
          dir "binary" [file "jd.yaml" (Raise UnicodeDecodeError)];
          dir "plain" []]].

(** In [/work/agent], with the variable naming a file that is not
    there. *)
Definition agent_env : Env :=
  {| home := Path "/home/agent";
     cwd := Path "/work/agent";
     JD_AGENT_SCOPE := Some (lit "/etc/jd/agent.yaml");
     yaml_imported := true |}.

(** In [/work/agent], [/work/empty] and [/work/plain], the variable not
    set. *)
Definition in_dir (d : path) : Env :=
  {| home := Path "/home/agent";
     cwd := d;
     JD_AGENT_SCOPE := None;
     yaml_imported := true |}.

(** A stand-in for [repr]; the sample scopes hold strings only. *)
Definition no_repr (x : value) : str := lit "...".

End Sample.

(** ** Conditions that the statements of Part II refer to *)

Module Cond.
Import Py Os Policy.

(** The pattern rules of the mapping [d], if it has any, are a mapping
    whose keys are strings none of which matches the name
    [target_name]. *)
Definition no_rule_matches (target_name : str) (d : dict) : Prop :=
  dict_get (KStr (lit "patterns")) d = None
  \/ exists pats,
       dict_get (KStr (lit "patterns")) d = Some (VDict pats)
       /\ forall pat pp, In (pat, pp) pats ->
                         match_pattern_key pat target_name = Ok false.

(** [D] is a mapping whose [conventions] set [ids_files_only] to true
    and whose [patterns], if any, do not match the name [target_name];
    its mappings have each key once. *)
Definition sets_ids_files_only (target_name : str) (D : value) : Prop :=
  exists d conv,
    D = VDict d
    /\ NoDup (List.map fst d)
    /\ dict_get (KStr (lit "conventions")) d = Some (VDict conv)
    /\ NoDup (List.map fst conv)
    /\ dict_get (KStr (lit "ids_files_only")) conv = Some (VBool true)
    /\ no_rule_matches target_name d.

(** [D] is a mapping that does not mention [ids_files_only]: it has no
    [conventions], or they are a mapping without that key; and its
    [patterns], if any, do not match the name [target_name]. *)
Definition leaves_ids_files_only (target_name : str) (D : value) : Prop :=
  exists d,
    D = VDict d
    /\ NoDup (List.map fst d)
    /\ (dict_get (KStr (lit "conventions")) d = None
        \/ exists conv,
             dict_get (KStr (lit "conventions")) d = Some (VDict conv)
             /\ NoDup (List.map fst conv)
             /\ dict_get (KStr (lit "ids_files_only")) conv = None)
    /\ no_rule_matches target_name d.

(** The policy holds [conventions.ids_files_only = b]. *)
Definition ids_files_only_is (b : bool) (effective : dict) : Prop :=
  exists conv,
    dict_get (KStr (lit "conventions")) effective = Some (VDict conv)
    /\ dict_get (KStr (lit "ids_files_only")) conv = Some (VBool b).

(** The resolved policy holds [conventions.ids_files_only = true]. *)
Definition ids_files_only_on (effective : dict) : Prop :=
  ids_files_only_is true effective.

(** [cat] is a category 80 whose meta directory [80.00] holds the policy
    document [D]. *)
Definition document_of_category_80 (fs : FS) (cat : path) (D : value)
  : Prop :=
  startswith (name cat) (lit "80 ") = true
  /\ path_exists fs (child cat (lit "80.00")) = true
  /\ path_exists fs (child (child cat (lit "80.00")) POLICY_FILENAME) = true
  /\ safe_load fs (child (child cat (lit "80.00")) POLICY_FILENAME) = Ok D.

(** The directories [resolve_policy] visits for [p]. *)
Definition chain_of (fs : FS) (p root : path) : list path :=
  walk_chain fs (resolve fs root) root p [].

(** Each of the directories loads no document, the document [D], or a
    document that does not mention [ids_files_only]. *)
Definition no_other_setting (fs : FS) (target_name : str) (D : value)
           (dirs : list path) : Prop :=
  forall dir, In dir dirs ->
    load_policy_file fs dir = Ok None
    \/ load_policy_file fs dir = Ok (Some D)
    \/ exists D', load_policy_file fs dir = Ok (Some D')
                  /\ leaves_ids_files_only target_name D'.

End Cond.

(** ** Ordering of paths and [sorted] *)

Module Order.
Import Py Os.

(** [a < b] on strings: by code point, the shorter first. *)
Fixpoint str_ltb (a b : str) : bool :=
  match a, b with
  | [], [] => false
  | [], _ :: _ => true
  | _ :: _, [] => false
  | x :: a', y :: b' =>
      if (x =? y)%N then str_ltb a' b' else (x <? y)%N
  end.

(** [a < b] on the lists of components, outermost first. *)
Fixpoint parts_ltb (a b : list str) : bool :=
  match a, b with
  | [], [] => false
  | [], _ :: _ => true
  | _ :: _, [] => false
  | x :: a', y :: b' =>
      if str_eqb x y then parts_ltb a' b' else str_ltb x y
  end.

(** [p < q] on paths. *)
Definition path_ltb (p q : path) : bool := parts_ltb (rev p) (rev q).

(** Where a stable sort puts [x] among elements that came before it:
    after those that are not greater. *)
Fixpoint insert (x : path) (l : list path) : list path :=
  match l with
  | [] => [x]
  | y :: l' => if path_ltb x y then x :: y :: l' else y :: insert x l'
  end.

(** [sorted(l)] *)
Definition sorted (l : list path) : list path :=
  fold_left (fun acc x => insert x acc) l [].

End Order.

(** ** Symbolic links *)

Module Links.
Import Py Os.

(** The filesystem together with what the code asks about links. *)
Record FSL := {
  files : FS;
  is_symlink : path -> bool;  (* [Path.is_symlink] *)
  resolves : path -> bool     (* [Path.resolve(strict=True)] returns;
                                 [false] when it raises [OSError] *)
}.

(** util.py, [is_symlink_valid] *)
Definition is_symlink_valid (fsl : FSL) (p : path) : bool :=
  if is_symlink fsl p then
    if resolves fsl p then true else false
  else true.

(** [p.is_symlink() and not is_symlink_valid(p)] *)
Definition broken (fsl : FSL) (p : path) : bool :=
  is_symlink fsl p && negb (is_symlink_valid fsl p).

(** A filesystem without links. *)
Definition no_links (fs : FS) : FSL :=
  {| files := fs; is_symlink := fun _ => false; resolves := fun _ => true |}.

End Links.

(** ** models.py: the filing tree *)

Module Filing.
Import Py Re Os Util Models Order Links.
#[local] Open Scope res_scope.

(** [(\d{2})[-–](\d{2}) (.+)] *)
Definition re_jdarea : regex :=
  conc [Grp 1 digit2; hyphen_or_dash; Grp 2 digit2; space; Grp 3 any_plus].

(** [(\d{2}) (.+)] *)
Definition re_jdcategory : regex :=
  conc [Grp 1 digit2; space; Grp 2 any_plus].

(** [JDCategory._get_ids] *)
Definition _get_ids (fsl : FSL) (p : path) : res (list JDID) :=
  entries <- iterdir (files fsl) p ;;
  Ok (flat_map
        (fun item =>
           if is_jd_id (files fsl) item then
             if broken fsl item then [] else [JDID_init item]
           else if is_jd_id_file (files fsl) item then [JDID_init item]
           else [])
        (sorted entries)).

(** [JDCategory.__init__] *)
Definition JDCategory_init (fsl : FSL) (p : path) : res JDCategory :=
  let parsed :=
    match re_match re_jdcategory (name p) with
    | Some m => (int (group_of m 1), group_of m 2)
    | None => (0%Z, name p)
    end in
  found <- _get_ids fsl p ;;
  Ok {| cat_path := p; _number := fst parsed; cat_name := snd parsed;
        ids := found |}.

Record JDArea := {
  area_path : path;
  area_number : Z;
  _end_number : Z;
  area_name : str;
  categories : list JDCategory
}.

(** The loop of [JDArea._get_categories]. *)
Fixpoint collect_categories (fsl : FSL) (subdirs : list path)
  : res (list JDCategory) :=
  match subdirs with
  | [] => Ok []
  | subdir :: rest =>
      if is_jd_category (files fsl) subdir then
        if broken fsl subdir then collect_categories fsl rest
        else
          c <- JDCategory_init fsl subdir ;;
          cats <- collect_categories fsl rest ;;
          Ok (c :: cats)
      else collect_categories fsl rest
  end.

(** [JDArea._get_categories] *)
Definition _get_categories (fsl : FSL) (p : path) : res (list JDCategory) :=
  entries <- iterdir (files fsl) p ;;
  collect_categories fsl (sorted entries).

(** [JDArea.__init__] *)
Definition JDArea_init (fsl : FSL) (p : path) : res JDArea :=
  let parsed :=
    match re_match re_jdarea (name p) with
    | Some m => (int (group_of m 1), int (group_of m 2), group_of m 3)
    | None => (0%Z, 9%Z, name p)
    end in
  found <- _get_categories fsl p ;;
  Ok {| area_path := p;
        area_number := fst (fst parsed);
        _end_number := snd (fst parsed);
        area_name := snd parsed;
        categories := found |}.

Record JDSystem := {
  sys_path : path;
  areas : list JDArea
}.

(** The loop of [JDSystem._get_areas]. *)
Fixpoint collect_areas (fsl : FSL) (subdirs : list path) : res (list JDArea) :=
  match subdirs with
  | [] => Ok []
  | subdir :: rest =>
      if is_jd_area (files fsl) subdir then
        if broken fsl subdir then collect_areas fsl rest
        else
          a <- JDArea_init fsl subdir ;;
          more <- collect_areas fsl rest ;;
          Ok (a :: more)
      else collect_areas fsl rest
  end.

(** [JDSystem._get_areas] *)
Definition _get_areas (fsl : FSL) (p : path) : res (list JDArea) :=
  entries <- iterdir (files fsl) p ;;
  collect_areas fsl (sorted entries).

(** [JDSystem.__init__] *)
Definition JDSystem_init (fsl : FSL) (p : path) : res JDSystem :=
  found <- _get_areas fsl p ;;
  Ok {| sys_path := p; areas := found |}.

(** The three loops of [JDSystem.find_by_id], innermost first. *)
Fixpoint find_id_in (id_str0 : str) (l : list JDID) : option JDID :=
  match l with
  | [] => None
  | jd_id :: rest =>
      if str_eqb (id_str jd_id) id_str0 then Some jd_id
      else find_id_in id_str0 rest
  end.

Fixpoint find_id_in_categories (id_str0 : str) (l : list JDCategory)
  : option JDID :=
  match l with
  | [] => None
  | category :: rest =>
      match find_id_in id_str0 (ids category) with
      | Some jd_id => Some jd_id
      | None => find_id_in_categories id_str0 rest
      end
  end.

Fixpoint find_id_in_areas (id_str0 : str) (l : list JDArea) : option JDID :=
  match l with
  | [] => None
  | area :: rest =>
      match find_id_in_categories id_str0 (categories area) with
      | Some jd_id => Some jd_id
      | None => find_id_in_areas id_str0 rest
      end
  end.

Definition find_by_id (jd : JDSystem) (id_str0 : str) : option JDID :=
  find_id_in_areas id_str0 (areas jd).

(** The two loops of [JDSystem.find_by_category]. *)
Fixpoint find_category_in (cat_num : Z) (l : list JDCategory)
  : option JDCategory :=
  match l with
  | [] => None
  | category :: rest =>
      if (_number category =? cat_num)%Z then Some category
      else find_category_in cat_num rest
  end.

Fixpoint find_category_in_areas (cat_num : Z) (l : list JDArea)
  : option JDCategory :=
  match l with
  | [] => None
  | area :: rest =>
      match find_category_in cat_num (categories area) with
      | Some category => Some category
      | None => find_category_in_areas cat_num rest
      end
  end.

Definition find_by_category (jd : JDSystem) (cat_num : Z)
  : option JDCategory :=
  find_category_in_areas cat_num (areas jd).

(** [JDSystem.all_ids] *)
Definition all_ids (jd : JDSystem) : list JDID :=
  flat_map (fun area => flat_map ids (categories area)) (areas jd).

(** [seen.get(k)] on the dictionary of first occurrences. *)
Fixpoint seen_get (k : str) (seen : list (str * JDID)) : option JDID :=
  match seen with
  | [] => None
  | (k', i) :: seen' => if str_eqb k k' then Some i else seen_get k seen'
  end.

(** The loop of [JDSystem.find_duplicates]. *)
Fixpoint duplicates_loop (l : list JDID) (seen : list (str * JDID))
         (dupes : list (str * path * path)) : list (str * path * path) :=
  match l with
  | [] => dupes
  | jd_id :: rest =>
      match seen_get (id_str jd_id) seen with
      | Some first =>
          duplicates_loop rest seen
            (dupes ++ [(id_str jd_id, id_path first, id_path jd_id)])
      | None =>
          duplicates_loop rest (seen ++ [(id_str jd_id, jd_id)]) dupes
      end
  end.

Definition find_duplicates (jd : JDSystem) : list (str * path * path) :=
  duplicates_loop (all_ids jd) [] [].

(** [JDID.is_mismatched], the category being the one that holds it. *)
Definition is_mismatched (i : JDID) (category : JDCategory) : bool :=
  negb (_cat_number i =? _number category)%Z.

(** [JDArea.__str__], [JDCategory.__str__], [JDID.__str__] *)
Definition JDArea_str (a : JDArea) : str :=
  format_02d (area_number a) ++ lit "-" ++ format_02d (_end_number a)
  ++ lit " " ++ area_name a.

Definition JDCategory_str (c : JDCategory) : str :=
  format_02d (_number c) ++ lit " " ++ cat_name c.

Definition JDID_str (i : JDID) : str :=
  id_str i ++ lit " " ++ _name i.

End Filing.

(** ** api.py *)

Module Api.
Import Py Os Util Order Links Filing.
#[local] Open Scope res_scope.

Definition get_areas (fs : FS) (root : path) : res (list path) :=
  entries <- iterdir fs root ;;
  Ok (filter (is_jd_area fs) (sorted entries)).

Definition get_categories (fs : FS) (area : path) : res (list path) :=
  entries <- iterdir fs area ;;
  Ok (filter (is_jd_category fs) (sorted entries)).

Definition get_ids (fs : FS) (category : path) : res (list path) :=
  entries <- iterdir fs category ;;
  Ok (filter (is_jd_id fs) (sorted entries)).

(** [None]: the search for the root does not end. *)
Definition get_system (fsl : FSL) (env : Env) (p : path)
  : option (res JDSystem) :=
  match get_jd_root_dir (files fsl) env p with
  | None => None
  | Some (Raise e) => Some (Raise e)
  | Some (Ok root) =>
      Some (match is_jd_root (files fsl) root with
            | Raise e => Raise e
            | Ok true => JDSystem_init fsl root
            | Ok false => Raise (NotJohnnyDecimalDirectoryError p)
            end)
  end.

End Api.

(** ** completion.py *)

Module Completion.
Import Py Os Models Links Filing Api.

(** [click]'s [CompletionItem(value, help=...)] *)
Record CompletionItem := {
  item_value : str;
  item_help : str
}.

(** The items for one ID of a category. *)
Definition complete_id (category : JDCategory) (incomplete : str)
           (jd_id : JDID) : list CompletionItem :=
  let id_str := id_str jd_id in
  if startswith id_str incomplete then
    let id_name := if truthy (VStr (_name jd_id)) then _name jd_id
                   else lit "(meta)" in
    let help_text := cat_name category ++ lit " > " ++ id_name in
    [ {| item_value := id_str; item_help := help_text |} ]
  else [].

(** The items for one category and its IDs. *)
Definition complete_category (incomplete : str) (category : JDCategory)
  : list CompletionItem :=
  let cat_str := format_02d (_number category) in
  (if startswith cat_str incomplete || str_eqb incomplete []
   then [ {| item_value := cat_str; item_help := cat_name category |} ]
   else [])
  ++ flat_map (complete_id category incomplete) (ids category).

(** The items for one area, its categories and their IDs. *)
Definition complete_area (incomplete : str) (area : JDArea)
  : list CompletionItem :=
  let area_prefix := str_of_int (area_number area / 10) in
  (if str_eqb incomplete [] || startswith area_prefix incomplete then
     if (length incomplete <=? 1)%nat then
       [ {| item_value := format_02d (area_number area);
            item_help := area_name area |} ]
     else []
   else [])
  ++ flat_map (complete_category incomplete) (categories area).

(** [None]: the search for the root does not end.  Any exception of
    [get_system] gives no completions. *)
Definition get_jd_completions (fsl : FSL) (env : Env) (incomplete : str)
  : option (list CompletionItem) :=
  let docs := child (home env) (lit "Documents") in
  match get_system fsl env docs with
  | None => None
  | Some (Raise _) => Some []
  | Some (Ok jd) => Some (flat_map (complete_area incomplete) (areas jd))
  end.

End Completion.

(** ** cli.py: helpers *)

Module Cli.
Import Py Os.

(** [_clean_empty_dicts] works in place; this is the mapping it leaves.
    The recursion goes into the values that are mappings, and a key is
    removed when its mapping is empty afterwards. *)
Fixpoint cleaned (v : value) : value :=
  match v with
  | VDict d =>
      VDict
        ((fix loop (items : list (key * value)) : list (key * value) :=
            match items with
            | [] => []
            | (key, x) :: rest =>
                match x with
                | VDict _ =>
                    match cleaned x with
                    | VDict [] => loop rest
                    | x' => (key, x') :: loop rest
                    end
                | _ => (key, x) :: loop rest
                end
            end) d)
  | _ => v
  end.

Definition _clean_empty_dicts (d : dict) : dict :=
  match cleaned (VDict d) with
  | VDict d' => d'
  | _ => d
  end.

End Cli.

(** ** Sample filing systems as the classes read them *)

Module Loaded.
Import Py Os Tree Links Filing.

Definition load (t : node) (root : path) : JDSystem :=
  match JDSystem_init (no_links (fs_of t)) root with
  | Ok jd => jd
  | Raise _ => {| sys_path := root; areas := [] |}
  end.

(** The sample filing system of [/home/alice/Documents]. *)
Definition system : JDSystem := load Sample.filing Sample.documents.

(** A filing system in which the number 11.01 is used three times. *)
Definition doubled : node :=
  Dir [dir "home" [dir "alice" [dir "Documents"
    [ dir "10-19 Admin"
          [dir "11 Tax" [dir "11.01 Returns" []; dir "11.01 Receipts" [];
                         dir "11.02 Letters" []]];
      dir "20-29 Family" [dir "26 Recipes" [dir "11.01 Soups" []]];
      dir "30-39 Archive" [] ]]]].

Definition doubled_system : JDSystem := load doubled Sample.documents.

End Loaded.

(** ** Values as the YAML loader delivers them *)

Module Yaml.
Import Py.

(** A mapping built by the loader has each key once, and so have the
    mappings under its keys. *)
Fixpoint well_keyed (v : value) : Prop :=
  match v with
  | VDict d =>
      NoDup (List.map fst d)
      /\ (fix each (items : list (key * value)) : Prop :=
            match items with
            | [] => True
            | (_, x) :: rest => well_keyed x /\ each rest
            end) d
  | _ => True
  end.

End Yaml.

(* ================================================================== *)
(** * Part II: properties *)
(* ================================================================== *)

Import Py Re Os.

#[local] Arguments consumed : simpl never.
#[local] Arguments N.eqb : simpl never.
#[local] Arguments is_digit : simpl never.
#[local] Arguments is_space : simpl never.
#[local] Arguments is_dot : simpl never.

(** ** Strings and ranges *)

Lemma str_eqb_eq (a b : str) : str_eqb a b = true <-> a = b.
Proof.
  revert b; induction a as [|x a IH]; intros [|y b]; simpl;
    try (split; congruence).
  rewrite andb_true_iff, N.eqb_eq, IH. split.
  - intros [-> ->]; reflexivity.
  - intros E; injection E; auto.
Qed.

Lemma str_eqb_refl (a : str) : str_eqb a a = true.
Proof. apply str_eqb_eq; reflexivity. Qed.

Lemma str_eqb_neq (a b : str) : str_eqb a b = false <-> a <> b.
Proof.
  rewrite <- str_eqb_eq. destruct (str_eqb a b); split; congruence.
Qed.

Lemma key_eqb_eq (a b : key) : key_eqb a b = true <-> a = b.
Proof.
  destruct a as [s|x], b as [t|y]; simpl; try (split; congruence).
  - rewrite str_eqb_eq. split; [intros ->; reflexivity|].
    intros E; injection E; auto.
  - rewrite Z.eqb_eq. split; [intros ->; reflexivity|].
    intros E; injection E; auto.
Qed.

Lemma key_eqb_refl (a : key) : key_eqb a a = true.
Proof. apply key_eqb_eq; reflexivity. Qed.

Lemma key_eqb_neq (a b : key) : key_eqb a b = false <-> a <> b.
Proof.
  rewrite <- key_eqb_eq. destruct (key_eqb a b); split; congruence.
Qed.

Lemma path_eqb_eq (a b : path) : path_eqb a b = true <-> a = b.
Proof.
  revert b; induction a as [|x a IH]; intros [|y b]; simpl;
    try (split; congruence).
  rewrite andb_true_iff, str_eqb_eq, IH. split.
  - intros [-> ->]; reflexivity.
  - intros E; injection E; auto.
Qed.

Lemma startswith_app (s prefix : str) :
  startswith s prefix = true <-> exists rest, s = prefix ++ rest.
Proof.
  revert s; induction prefix as [|p prefix IH]; intros s; simpl.
  - split; [intros _; exists s; reflexivity | intros _; reflexivity].
  - destruct s as [|c s].
    + split; [congruence | intros [r E]; discriminate].
    + rewrite andb_true_iff, N.eqb_eq, IH. split.
      * intros [-> [r ->]]. exists r; reflexivity.
      * intros [r E]. injection E as -> ->. split; [|exists r]; reflexivity.
Qed.

Lemma In_range (a b i : Z) :
  In i (Models.range a b) <-> (a <= i < b)%Z.
Proof.
  unfold Models.range. rewrite in_map_iff. split.
  - intros [n [<- Hn]]. apply in_seq in Hn. lia.
  - intros H. exists (Z.to_nat (i - a)). split; [lia|].
    apply in_seq. lia.
Qed.

(** ** util.py: the ID string *)

Section IdString.
Import Util.

Lemma format_02d_two_digits (n : Z) :
  (0 <= n <= 99)%Z ->
  format_02d n = [Z.to_N (48 + n / 10); Z.to_N (48 + n mod 10)].
Proof.
  intros H.
  assert (A : forallb
                (fun i => str_eqb (format_02d i)
                            [Z.to_N (48 + i / 10); Z.to_N (48 + i mod 10)])
                (Models.range 0 100) = true) by (vm_compute; reflexivity).
  rewrite forallb_forall in A. apply str_eqb_eq, A, In_range. lia.
Qed.

Lemma decimal_ascii (d : Z) :
  (0 <= d <= 9)%Z -> decimal (Z.to_N (48 + d)) = Some (Z.to_N d).
Proof.
  intros H. unfold decimal, decimal_zeros. cbn [decimal_in].
  replace ((48 <=? Z.to_N (48 + d))%N && (Z.to_N (48 + d) <? 48 + 10)%N)
    with true.
  - f_equal. lia.
  - symmetry. apply andb_true_iff.
    split; [apply N.leb_le | apply N.ltb_lt]; lia.
Qed.

Lemma is_digit_of_Z (d : Z) :
  (0 <= d <= 9)%Z -> is_digit (Z.to_N (48 + d)) = true.
Proof.
  intros H. unfold is_digit. rewrite (decimal_ascii d H). reflexivity.
Qed.

Lemma consumed_app (p s : str) : consumed (p ++ s) s = p.
Proof.
  unfold consumed. rewrite length_app.
  replace (length p + length s - length s)%nat with (length p) by lia.
  rewrite firstn_app, firstn_all, Nat.sub_diag. simpl. apply app_nil_r.
Qed.

Lemma consumed_1 (a : N) (s : str) : consumed (a :: s) s = [a].
Proof. apply (consumed_app [a]). Qed.

Lemma consumed_2 (a b : N) (s : str) : consumed (a :: b :: s) s = [a; b].
Proof. apply (consumed_app [a; b]). Qed.


Lemma int_2 (a b da db : N) :
  decimal a = Some da -> decimal b = Some db ->
  Py.int [a; b] = (10 * Z.of_N da + Z.of_N db)%Z.
Proof. intros Ha Hb. unfold Py.int. cbn [fold_left]. rewrite Ha, Hb. lia. Qed.

Lemma re_id_string_digits (a b c d : N) (rest : str) :
  is_digit a = true -> is_digit b = true ->
  is_digit c = true -> is_digit d = true ->
  re_match re_id_string (a :: b :: 46%N :: c :: d :: rest)
  = Some [(2%nat, [c; d]); (1%nat, [a; b])].
Proof.
  intros Ha Hb Hc Hd. unfold re_match, re_id_string. simpl.
  rewrite Ha, Hb, Hc, Hd. simpl.
  rewrite !consumed_2. reflexivity.
Qed.

(** C9.  Formatting a category number and a sequence number of 0..99 as
    the zero-padded string NN.MM and parsing that string gives the two
    numbers back; 26 and 1 format as 26.01, which parses as (26, 1). *)
Theorem format_parse_round_trip (category sequence : Z) :
  (0 <= category <= 99)%Z -> (0 <= sequence <= 99)%Z ->
  parse_jd_id_string (format_jd_id category sequence)
  = Ok (category, sequence)
  /\ format_jd_id 26 1 = lit "26.01"
  /\ parse_jd_id_string (lit "26.01") = Ok (26, 1)%Z.
Proof.
  intros Hc Hs. split; [|split; reflexivity].
  unfold format_jd_id, parse_jd_id_string.
  rewrite !format_02d_two_digits by assumption.
  change (?x ++ lit "." ++ ?y) with (x ++ 46%N :: y). cbn [app].
  rewrite re_id_string_digits
    by (apply is_digit_of_Z; Z.div_mod_to_equations; lia).
  cbn [group_of group Nat.eqb].
  rewrite (int_2 _ _ (Z.to_N (category / 10)) (Z.to_N (category mod 10)))
    by (apply decimal_ascii; Z.div_mod_to_equations; lia).
  rewrite (int_2 _ _ (Z.to_N (sequence / 10)) (Z.to_N (sequence mod 10)))
    by (apply decimal_ascii; Z.div_mod_to_equations; lia).
  rewrite !Z2N.id by (Z.div_mod_to_equations; lia).
  f_equal. f_equal; Z.div_mod_to_equations; lia.
Qed.

Lemma format_parse_round_trip_witness :
  parse_jd_id_string (format_jd_id 26 1) = Ok (26, 1)%Z.
Proof.
  apply (format_parse_round_trip 26 1); lia.
Defined.

End IdString.

(** ** The patterns as tests on the leading characters *)

Lemma many_total (p : N -> bool) (k : str -> option captures) (t : str) :
  (forall t', k t' <> None) ->
  matched (many p k t) = match t with c :: _ => p c | [] => false end.
Proof.
  intros Hk. destruct t as [|c t]; simpl; [reflexivity|].
  destruct (p c); [|reflexivity].
  destruct (many p k t); [reflexivity|].
  specialize (Hk t). destruct (k t); [reflexivity | congruence].
Qed.

Ltac case_tests :=
  repeat (match goal with
          | |- context [is_digit ?c] => destruct (is_digit c)
          | |- context [is_space ?c] => destruct (is_space c)
          | |- context [is_dot ?c] => destruct (is_dot c)
          | |- context [N.eqb ?a ?b] => destruct (N.eqb a b)
          | |- context [at_end ?s] => destruct (at_end s)
          | |- context [match many ?p ?k ?t with _ => _ end] =>
              destruct (many p k t)
          end; simpl).

Ltac re_eval :=
  unfold re_match; simpl; unfold en_dash, newline; case_tests;
  rewrite ?consumed_1, ?consumed_2; try reflexivity.

Section UtilPatterns.
Import Util.

Lemma re_category_eq (n : str) :
  matched (re_match re_category n)
  = match n with
    | a :: b :: sp :: c :: _ =>
        is_digit a && is_digit b && (32 =? sp)%N && is_dot c
    | _ => false
    end.
Proof. destruct n as [|a [|b [|sp [|c rest]]]]; re_eval. Qed.

Lemma re_area_eq (n : str) :
  matched (re_match re_area n)
  = match n with
    | a :: b :: sep :: c :: d :: sp :: e :: _ =>
        is_digit a && is_digit b && ((sep =? 45)%N || (sep =? 8211)%N)
        && is_digit c && is_digit d && (32 =? sp)%N && is_dot e
    | _ => false
    end.
Proof. destruct n as [|a [|b [|sep [|c [|d [|sp [|e rest]]]]]]]; re_eval. Qed.

Lemma re_area_prefix_eq (n : str) :
  matched (re_match re_area_prefix n)
  = match n with
    | a :: b :: sep :: c :: d :: sp :: _ =>
        is_digit a && is_digit b && ((sep =? 45)%N || (sep =? 8211)%N)
        && is_digit c && is_digit d && (32 =? sp)%N
    | _ => false
    end.
Proof. destruct n as [|a [|b [|sep [|c [|d [|sp rest]]]]]]; re_eval. Qed.

Lemma re_id_prefix_eq (n : str) :
  matched (re_match re_id_prefix n)
  = match n with
    | a :: b :: sep :: c :: d :: sp :: _ =>
        is_digit a && is_digit b && (46 =? sep)%N
        && is_digit c && is_digit d && (32 =? sp)%N
    | _ => false
    end.
Proof. destruct n as [|a [|b [|sep [|c [|d [|sp rest]]]]]]; re_eval. Qed.

Lemma re_id_eq (n : str) :
  matched (re_match re_id n)
  = match n with
    | a :: b :: sep :: c :: d :: rest =>
        is_digit a && is_digit b && (46 =? sep)%N
        && is_digit c && is_digit d
        && (at_end rest
            || match rest with
               | sp :: e :: _ => (32 =? sp)%N && is_dot e
               | _ => false
               end)
    | _ => false
    end.
Proof. destruct n as [|a [|b [|sep [|c [|d [|sp [|e rest]]]]]]]; re_eval. Qed.

(** The third character decides between the three kinds of name. *)
Lemma category_third_char (n : str) :
  matched (re_match re_category n) = true -> nth_error n 2 = Some 32%N.
Proof.
  rewrite re_category_eq. destruct n as [|a [|b [|sp [|c rest]]]];
    try discriminate.
  rewrite !andb_true_iff. intros [[[_ _] E] _].
  apply N.eqb_eq in E. subst sp. reflexivity.
Qed.

Lemma area_third_char (n : str) :
  matched (re_match re_area n) = true
  \/ matched (re_match re_area_prefix n) = true ->
  nth_error n 2 = Some 45%N \/ nth_error n 2 = Some 8211%N.
Proof.
  rewrite re_area_eq, re_area_prefix_eq.
  destruct n as [|a [|b [|sep [|c [|d [|sp rest]]]]]];
    try (intros [H|H]; discriminate).
  assert (G : (sep =? 45)%N || (sep =? 8211)%N = true ->
              nth_error (a :: b :: sep :: c :: d :: sp :: rest) 2
              = Some 45%N
              \/ nth_error (a :: b :: sep :: c :: d :: sp :: rest) 2
                 = Some 8211%N).
  { rewrite orb_true_iff, !N.eqb_eq. simpl. intros [-> | ->]; auto. }
  intros [H|H]; apply G.
  - destruct rest; [discriminate|].
    rewrite !andb_true_iff in H. tauto.
  - rewrite !andb_true_iff in H. tauto.
Qed.

Lemma id_third_char (n : str) :
  matched (re_match re_id n) = true
  \/ matched (re_match re_id_prefix n) = true ->
  nth_error n 2 = Some 46%N.
Proof.
  rewrite re_id_eq, re_id_prefix_eq.
  destruct n as [|a [|b [|sep [|c [|d rest]]]]];
    try (intros [H|H]; discriminate).
  assert (G : (46 =? sep)%N = true ->
              nth_error (a :: b :: sep :: c :: d :: rest) 2 = Some 46%N).
  { rewrite N.eqb_eq. intros <-. reflexivity. }
  intros [H|H]; apply G.
  - rewrite !andb_true_iff in H. tauto.
  - destruct rest; [discriminate|].
    rewrite !andb_true_iff in H. tauto.
Qed.

(** C8.  A name that matches the area pattern or the ID pattern is never
    classified as a category; a directory classified as a category has a
    name of two digits, a space and text that matches neither the area
    nor the ID pattern. *)
Theorem category_excludes_area_and_id (fs : FS) (directory : path) :
  (matched (re_match re_area (name directory)) = true
   \/ matched (re_match re_id (name directory)) = true ->
   is_jd_category fs directory = false)
  /\ (is_jd_category fs directory = true ->
      is_dir fs directory = true
      /\ matched (re_match re_category (name directory)) = true
      /\ matched (re_match re_area (name directory)) = false
      /\ matched (re_match re_id (name directory)) = false).
Proof.
  assert (K : is_jd_category fs directory = true ->
              is_dir fs directory = true
              /\ matched (re_match re_category (name directory)) = true).
  { unfold is_jd_category. destruct (is_dir fs directory); simpl;
      [|discriminate].
    destruct (matched (re_match re_area_prefix _)); [discriminate|].
    destruct (matched (re_match re_id_prefix _)); [discriminate|].
    auto. }
  assert (X : forall b, matched (re_match re_category (name directory)) = true ->
              (b = true ->
               nth_error (name directory) 2 <> Some 32%N) -> b = false).
  { intros b Hc Hb. destruct b; [|reflexivity].
    exfalso. apply (Hb eq_refl). apply category_third_char, Hc. }
  split.
  - intros H. destruct (is_jd_category fs directory) eqn:E; [|reflexivity].
    destruct (K eq_refl) as [_ Hc]. apply category_third_char in Hc.
    destruct H as [H|H].
    + destruct (area_third_char (name directory) (or_introl H)); congruence.
    + rewrite (id_third_char (name directory) (or_introl H)) in Hc.
      discriminate.
  - intros H. destruct (K H) as [Hd Hc]. repeat split; try assumption.
    + apply (X _ Hc). intros Ha.
      destruct (area_third_char (name directory) (or_introl Ha)); congruence.
    + apply (X _ Hc). intros Hi.
      rewrite (id_third_char (name directory) (or_introl Hi)). congruence.
Qed.

Lemma category_excludes_area_and_id_witness :
  is_jd_category (Tree.fs_of Sample.filing)
                 (child Sample.documents (lit "20-29 Family")) = false
  /\ matched (re_match re_area (lit "26 Recipes")) = false.
Proof.
  split.
  - apply (proj1 (category_excludes_area_and_id
                    (Tree.fs_of Sample.filing)
                    (child Sample.documents (lit "20-29 Family")))).
    left. vm_compute. reflexivity.
  - apply (proj2 (category_excludes_area_and_id
                    (Tree.fs_of Sample.filing)
                    (child (child Sample.documents (lit "20-29 Family"))
                           (lit "26 Recipes")))).
    vm_compute. reflexivity.
Defined.

End UtilPatterns.

(** ** util.py: roots *)

Section Roots.
Import Util.

Lemma filter_twice {A : Type} (f g : A -> bool) (l : list A) :
  filter f (filter g l) = filter (fun x => g x && f x) l.
Proof.
  induction l as [|x l IH]; simpl; [reflexivity|].
  destruct (g x); simpl; [destruct (f x)|]; rewrite IH; reflexivity.
Qed.

Lemma is_jd_root_listed (fs : FS) (directory : path) (entries : list path) :
  iterdir fs directory = Ok entries ->
  is_jd_root fs directory
  = Ok (3 <=? length
          (filter (fun c => is_dir fs c
                            && negb (startswith (name c) (lit "."))
                            && matched (re_match re_area (name c)))
                  entries))%nat.
Proof.
  intros E. unfold is_jd_root. rewrite E, filter_twice.
  do 3 f_equal. apply filter_ext. intros c. unfold is_jd_area.
  destruct (is_dir fs c); simpl; [|reflexivity].
  destruct (startswith (name c) (lit ".")); reflexivity.
Qed.

(** C5.  A directory is a root exactly when it can be listed and at
    least 3 of its entries are directories whose name does not start
    with a dot and matches the area pattern: with 3 it is a root, with 2
    it is not. *)
Theorem root_threshold_is_three (fs : FS) (directory : path) :
  (forall entries, iterdir fs directory = Ok entries ->
     is_jd_root fs directory
     = Ok (3 <=? length
             (filter (fun c => is_dir fs c
                               && negb (startswith (name c) (lit "."))
                               && matched (re_match re_area (name c)))
                     entries))%nat)
  /\ (is_jd_root fs directory = Ok true <->
      exists entries,
        iterdir fs directory = Ok entries
        /\ (3 <= length
                   (filter (fun c => is_dir fs c
                                     && negb (startswith (name c) (lit "."))
                                     && matched (re_match re_area (name c)))
                           entries))%nat).
Proof.
  split; [apply is_jd_root_listed|]. split.
  - intros H. destruct (iterdir fs directory) as [entries|e] eqn:E.
    + exists entries. split; [reflexivity|].
      rewrite (is_jd_root_listed _ _ _ E) in H. injection H as H.
      apply Nat.leb_le, H.
    + unfold is_jd_root in H. rewrite E in H. destruct e; discriminate.
  - intros [entries [E H]]. rewrite (is_jd_root_listed _ _ _ E).
    f_equal. apply Nat.leb_le, H.
Qed.

Lemma root_threshold_is_three_witness :
  is_jd_root (Tree.fs_of Sample.filing) Sample.documents = Ok true
  /\ is_jd_root (Tree.fs_of Sample.filing)
                (child Sample.documents (lit "80-89 Work")) = Ok false.
Proof.
  split.
  - apply (proj2 (root_threshold_is_three (Tree.fs_of Sample.filing)
                                          Sample.documents)).
    eexists. split; [vm_compute; reflexivity|]. vm_compute. lia.
  - rewrite (proj1 (root_threshold_is_three
                      (Tree.fs_of Sample.filing)
                      (child Sample.documents (lit "80-89 Work")))
               _ eq_refl).
    vm_compute. reflexivity.
Defined.

Lemma path_eqb_refl (p : path) : path_eqb p p = true.
Proof. apply path_eqb_eq. reflexivity. Qed.

Lemma in_home_below (env : Env) (below : path) :
  is_in_user_home env (below ++ home env) = true.
Proof.
  unfold is_in_user_home, is_relative_to. rewrite length_app.
  replace (length below + length (home env) - length (home env))%nat
    with (length below + 0)%nat by lia.
  rewrite skipn_app, Nat.add_0_r, skipn_all. 
  replace (length below - length below)%nat with 0%nat by lia.
  simpl. apply path_eqb_refl.
Qed.

Lemma above_home_outside (env : Env) (n : str) (up : path) :
  home env = n :: up -> is_in_user_home env up = false.
Proof.
  intros H. unfold is_in_user_home, is_relative_to. rewrite H. simpl length.
  replace (length up - S (length up))%nat with 0%nat by lia. simpl skipn.
  destruct (path_eqb up (n :: up)) eqn:E; [|reflexivity].
  apply path_eqb_eq in E. apply (f_equal (@length str)) in E. simpl in E. lia.
Qed.

(** When no directory from the start up to the home directory is a root,
    the walk goes one level further: the parent of the home directory is
    tested, and returned if it is a root. *)
Lemma walk_tests_parent_of_home (fs : FS) (env : Env) (below : path)
      (n : str) (up : path) :
  home env = n :: up ->
  (forall k, is_jd_root fs (skipn k below ++ home env) = Ok false) ->
  get_jd_root_dir fs env (below ++ home env)
  = Some (match is_jd_root fs up with
          | Ok true => Ok up
          | Ok false => Raise (NotJohnnyDecimalDirectoryError up)
          | Raise e => Raise e
          end).
Proof.
  intros H R.
  assert (W : walk_up fs env (below ++ home env)
              = match is_jd_root fs up with
                | Ok _ => Some (Ok up)
                | Raise e => Some (Raise e)
                end).
  { induction below as [|c below IH].
    - simpl app. pose proof (R 0%nat) as R0. simpl in R0.
      pose proof (in_home_below env []) as I. simpl in I.
      rewrite H in *. simpl. rewrite R0, I. simpl.
      destruct up as [|m up']; simpl.
      + destruct (is_jd_root fs []) as [r|e] eqn:E; [|reflexivity].
        pose proof (above_home_outside env n [] H) as O.
        rewrite O, andb_false_r. reflexivity.
      + destruct (is_jd_root fs (m :: up')) as [r|e] eqn:E; [|reflexivity].
        pose proof (above_home_outside env n (m :: up') H) as O.
        rewrite O, andb_false_r. reflexivity.
    - pose proof (R 0%nat) as R0. simpl in R0.
      pose proof (in_home_below env (c :: below)) as I.
      simpl. simpl in I. rewrite R0, I. simpl.
      apply IH. intros k. apply (R (S k)). }
  unfold get_jd_root_dir. rewrite W.
  destruct (is_jd_root fs up) as [[|]|e] eqn:E; simpl; rewrite ?E;
    reflexivity.
Qed.

(** C6.  The walk from [/srv/filing/rex/work], inside the home directory
    [/srv/filing/rex], goes on to the parent of the home directory,
    tests it, and returns it. *)
Theorem root_walk_passes_home :
  is_in_user_home Sample.rex_env (Path "/srv/filing/rex/work") = true
  /\ get_jd_root_dir (Tree.fs_of Sample.shared) Sample.rex_env
                     (Path "/srv/filing/rex/work")
     = Some (Ok (Path "/srv/filing"))
  /\ is_in_user_home Sample.rex_env (Path "/srv/filing") = false.
Proof. repeat split; vm_compute; reflexivity. Qed.

End Roots.

(** ** models.py: the next free sequence number *)

Section NextId.
Import Models.

Lemma range_cons (a b : Z) :
  (a < b)%Z -> range a b = a :: range (a + 1) b.
Proof.
  intros H. unfold range.
  replace (Z.to_nat (b - a)) with (S (Z.to_nat (b - (a + 1)))) by lia.
  simpl. rewrite Z.add_0_r. f_equal.
  rewrite <- seq_shift, map_map. apply map_ext. intros i. lia.
Qed.

Lemma range_nil (a b : Z) : (b <= a)%Z -> range a b = [].
Proof.
  intros H. unfold range.
  replace (Z.to_nat (b - a)) with 0%nat by lia. reflexivity.
Qed.

(** [find] on a range returns the least number that passes the test. *)
Lemma find_range_least (f : Z -> bool) (a b i : Z) :
  find f (range a b) = Some i ->
  (a <= i < b)%Z /\ f i = true /\ forall j, (a <= j < i)%Z -> f j = false.
Proof.
  remember (Z.to_nat (b - a)) as n eqn:En. revert a En.
  induction n as [|n IH]; intros a En.
  - rewrite range_nil by lia. discriminate.
  - rewrite range_cons by lia. simpl. destruct (f a) eqn:Fa.
    + intros H; injection H as <-.
      split; [lia|]. split; [assumption|]. intros j Hj; lia.
    + intros H. destruct (IH (a + 1)%Z ltac:(lia) H) as [R [Fi L]].
      split; [lia|]. split; [assumption|]. intros j Hj. destruct (Z.eq_dec j a) as [->|Nj]; [assumption|].
      apply L; lia.
Qed.

Lemma unused_test (used : list Z) (i : Z) :
  negb (existsb (Z.eqb i) used) = true <-> ~ In i used.
Proof.
  rewrite negb_true_iff. split.
  - intros H Hin. assert (E : existsb (Z.eqb i) used = true).
    { apply existsb_exists. exists i. split; [assumption|apply Z.eqb_refl]. }
    congruence.
  - intros H. destruct (existsb (Z.eqb i) used) eqn:E; [|reflexivity].
    apply existsb_exists in E. destruct E as [x [Hx Ex]].
    apply Z.eqb_eq in Ex. subst x. contradiction.
Qed.

Lemma used_test (used : list Z) (i : Z) :
  negb (existsb (Z.eqb i) used) = false <-> In i used.
Proof.
  rewrite negb_false_iff, existsb_exists. split.
  - intros [x [Hx Ex]]. apply Z.eqb_eq in Ex. subst x. assumption.
  - intros H. exists i. split; [assumption|apply Z.eqb_refl].
Qed.

(** C7.  [next_id] returns the least sequence number of 1..99 that no ID
    of the category uses (so never 0); it raises exactly when all of
    1..99 are used; with the sequences 0, 1 and 5 in use it returns 2. *)
Theorem next_id_least_unused (c : JDCategory) :
  (forall i, next_id c = Ok i ->
     (1 <= i <= 99)%Z
     /\ ~ In i (List.map sequence (ids c))
     /\ forall j, (1 <= j < i)%Z -> In j (List.map sequence (ids c)))
  /\ ((exists j, (1 <= j <= 99)%Z /\ ~ In j (List.map sequence (ids c))) ->
      exists i, next_id c = Ok i)
  /\ (next_id c = Raise ValueError <->
      forall j, (1 <= j <= 99)%Z -> In j (List.map sequence (ids c)))
  /\ ((forall j, In j (List.map sequence (ids c))
                 <-> j = 0%Z \/ j = 1%Z \/ j = 5%Z) ->
      next_id c = Ok 2%Z).
Proof.
  set (used := List.map sequence (ids c)).
  assert (S1 : forall i, next_id c = Ok i ->
                 (1 <= i <= 99)%Z /\ ~ In i used
                 /\ forall j, (1 <= j < i)%Z -> In j used).
  { intros i H. unfold next_id in H. fold used in H.
    destruct (find _ (range 1 100)) as [i'|] eqn:F; [|discriminate].
    injection H as ->. apply find_range_least in F.
    destruct F as [R [Fi L]]. split; [lia|]. split.
    - apply unused_test, Fi.
    - intros j Hj. apply used_test, L. lia. }
  assert (S3 : next_id c = Raise ValueError <->
               forall j, (1 <= j <= 99)%Z -> In j used).
  { unfold next_id. fold used. split.
    - destruct (find _ (range 1 100)) eqn:F; [discriminate|]. intros _ j Hj.
      apply used_test. apply (find_none _ _ F). apply In_range. lia.
    - intros H. destruct (find _ (range 1 100)) as [i|] eqn:F; [|reflexivity].
      apply find_range_least in F. destruct F as [R [Fi _]].
      apply unused_test in Fi. exfalso. apply Fi, H. lia. }
  assert (S2 : (exists j, (1 <= j <= 99)%Z /\ ~ In j used) ->
               exists i, next_id c = Ok i).
  { intros [j [Hj Nj]]. unfold next_id. fold used.
    destruct (find _ (range 1 100)) as [i|] eqn:F.
    - exists i; reflexivity.
    - exfalso. apply Nj, used_test. apply (find_none _ _ F).
      apply In_range. lia. }
  split; [exact S1|]. split; [exact S2|]. split; [exact S3|].
  - intros U. destruct S2 as [i E].
    { exists 2%Z. split; [lia|]. rewrite U. lia. }
    destruct (S1 i E) as [R [Ni L]]. rewrite E. f_equal.
    assert (i <> 1)%Z by (intros ->; apply Ni, U; lia).
    destruct (Z_lt_le_dec 2 i) as [G|G]; [|lia].
    exfalso. assert (In 2%Z used) as I2 by (apply L; lia).
    apply U in I2. lia.
Qed.

Lemma next_id_least_unused_witness :
  next_id {| cat_path := Path "/20-29 Family/26 Recipes";
             _number := 26; cat_name := lit "Recipes";
             ids := List.map JDID_init
                      [Path "/20-29 Family/26 Recipes/26.00";
                       Path "/20-29 Family/26 Recipes/26.01 Unsorted";
                       Path "/20-29 Family/26 Recipes/26.05 Soups"] |}
  = Ok 2%Z.
Proof.
  apply (proj2 (proj2 (proj2 (next_id_least_unused _)))).
  intros j. vm_compute. intuition congruence.
Defined.

End NextId.

(** ** policy.py: merging *)

Section Merge.
Import Policy.

Lemma dict_get_set_same (k : key) (v : value) (d : dict) :
  dict_get k (dict_set k v d) = Some v.
Proof.
  induction d as [|[k' v'] d IH]; simpl.
  - rewrite key_eqb_refl. reflexivity.
  - destruct (key_eqb k k') eqn:E; simpl.
    + rewrite key_eqb_refl. reflexivity.
    + rewrite E. exact IH.
Qed.

Lemma dict_get_set_other (k k0 : key) (v : value) (d : dict) :
  key_eqb k k0 = false -> dict_get k (dict_set k0 v d) = dict_get k d.
Proof.
  intros N. induction d as [|[k' v'] d IH]; simpl.
  - rewrite N. reflexivity.
  - destruct (key_eqb k0 k') eqn:E; simpl.
    + apply key_eqb_eq in E. subst k'. rewrite N. reflexivity.
    + destruct (key_eqb k k'); [reflexivity | exact IH].
Qed.

Lemma dict_get_absent (k : key) (d : dict) :
  ~ In k (List.map fst d) -> dict_get k d = None.
Proof.
  induction d as [|[k' v'] d IH]; simpl; [reflexivity|].
  intros N. destruct (key_eqb k k') eqn:E.
  - apply key_eqb_eq in E. subst k'. exfalso. apply N. left; reflexivity.
  - apply IH. intros H. apply N. right; exact H.
Qed.

Lemma deep_merge_nil (base : dict) : deep_merge base [] = base.
Proof. reflexivity. Qed.

Lemma deep_merge_cons (base : dict) (k : key) (v : value) (rest : dict) :
  deep_merge base ((k, v) :: rest)
  = deep_merge (merge_item base k v) rest.
Proof.
  unfold deep_merge, merge_item. simpl.
  destruct (dict_get k base) as [[| | | | |sub]|]; try reflexivity.
  destruct v; reflexivity.
Qed.

(** What a merge holds under each key. *)
Lemma deep_merge_get (override base : dict) (k : key) :
  NoDup (List.map fst override) ->
  dict_get k (deep_merge base override)
  = match dict_get k override with
    | None => dict_get k base
    | Some v =>
        match dict_get k base, v with
        | Some (VDict sub), VDict o => Some (VDict (deep_merge sub o))
        | _, _ => Some v
        end
    end.
Proof.
  revert base. induction override as [|[k0 v0] rest IH]; intros base U.
  - reflexivity.
  - rewrite deep_merge_cons. simpl in U. inversion U as [|? ? N U']; subst.
    rewrite (IH _ U'). simpl. destruct (key_eqb k k0) eqn:E.
    + apply key_eqb_eq in E. subst k0.
      rewrite (dict_get_absent _ _ N). unfold merge_item.
      destruct (dict_get k base) as [[| | | | |sub]|];
        try (rewrite dict_get_set_same; reflexivity).
      destruct v0; rewrite dict_get_set_same; reflexivity.
    + assert (G : dict_get k (merge_item base k0 v0) = dict_get k base).
      { unfold merge_item.
        destruct (dict_get k0 base) as [[| | | | |sub]|];
          try (apply dict_get_set_other; exact E).
        destruct v0; apply dict_get_set_other; exact E. }
      rewrite G. reflexivity.
Qed.

(** C3.  Under a key of both dicts whose two values are mappings the
    merge holds their merge; under any other key of the override it
    holds the override's value, lists included; the other keys keep the
    base's value.  {a:{x:1,y:2}} merged with {a:{y:3}} is
    {a:{x:1,y:3}}, and {a:[1,2]} merged with {a:[3]} is {a:[3]}. *)
Theorem deep_merge_right_biased (base override : dict) (k : key) :
  NoDup (List.map fst override) ->
  (forall b o,
     dict_get k base = Some (VDict b) ->
     dict_get k override = Some (VDict o) ->
     dict_get k (deep_merge base override) = Some (VDict (deep_merge b o)))
  /\ (forall v,
        dict_get k override = Some v ->
        is_dict v = false
        \/ (forall b, dict_get k base <> Some (VDict b)) ->
        dict_get k (deep_merge base override) = Some v)
  /\ (dict_get k override = None ->
      dict_get k (deep_merge base override) = dict_get k base)
  /\ deep_merge
       [(KStr (lit "a"),
         VDict [(KStr (lit "x"), VInt 1); (KStr (lit "y"), VInt 2)])]
       [(KStr (lit "a"), VDict [(KStr (lit "y"), VInt 3)])]
     = [(KStr (lit "a"),
         VDict [(KStr (lit "x"), VInt 1); (KStr (lit "y"), VInt 3)])]
  /\ deep_merge [(KStr (lit "a"), VList [VInt 1; VInt 2])]
                [(KStr (lit "a"), VList [VInt 3])]
     = [(KStr (lit "a"), VList [VInt 3])].
Proof.
  intros U. pose proof (deep_merge_get override base k U) as G.
  split; [|split; [|split; [|split; reflexivity]]].
  - intros b o Hb Ho. rewrite G, Ho, Hb. reflexivity.
  - intros v Hv H. rewrite G, Hv.
    destruct (dict_get k base) as [[| | | | |sub]|]; try reflexivity.
    destruct v; try reflexivity.
    destruct H as [H|H]; [discriminate|]. exfalso. apply (H sub). reflexivity.
  - intros Ho. rewrite G, Ho. reflexivity.
Qed.

Lemma deep_merge_right_biased_witness :
  dict_get (KStr (lit "a"))
           (deep_merge [(KStr (lit "a"), VList [VInt 1; VInt 2]);
                        (KStr (lit "b"), VInt 0)]
                       [(KStr (lit "a"), VList [VInt 3])])
  = Some (VList [VInt 3]).
Proof.
  refine (proj1 (proj2 (deep_merge_right_biased
                          [(KStr (lit "a"), VList [VInt 1; VInt 2]);
                           (KStr (lit "b"), VInt 0)]
                          [(KStr (lit "a"), VList [VInt 3])]
                          (KStr (lit "a")) _))
                (VList [VInt 3]) eq_refl (or_introl eq_refl)).
  repeat constructor. simpl. tauto.
Defined.

End Merge.

(** ** policy.py: patterns *)

Section Patterns.
Import Policy.

Lemma re_star_eq (p : str) :
  re_match re_star p
  = match p with
    | st :: dt :: a :: b :: tail =>
        if (42 =? st)%N && (46 =? dt)%N && is_digit a && is_digit b
           && at_end tail
        then Some [(1%nat, [a; b])] else None
    | _ => None
    end.
Proof. destruct p as [|st [|dt [|a [|b tail]]]]; re_eval. Qed.

Lemma re_id_exact_eq (p : str) :
  matched (re_match re_id_exact p)
  = match p with
    | a :: b :: dt :: c :: d :: tail =>
        is_digit a && is_digit b && (46 =? dt)%N && is_digit c && is_digit d
        && at_end tail
    | _ => false
    end.
Proof. destruct p as [|a [|b [|dt [|c [|d tail]]]]]; re_eval. Qed.

Lemma re_cat_exact_eq (p : str) :
  matched (re_match re_cat_exact p)
  = match p with
    | a :: b :: tail => is_digit a && is_digit b && at_end tail
    | _ => false
    end.
Proof. destruct p as [|a [|b tail]]; re_eval. Qed.

Lemma re_any_seq_eq (a b : N) (n : str) :
  matched (re_match (re_any_seq [a; b]) n)
  = match n with
    | d1 :: d2 :: dt :: a' :: b' :: rest =>
        is_digit d1 && is_digit d2 && (46 =? dt)%N
        && (a =? a')%N && (b =? b')%N
        && (at_end rest
            || match rest with c :: _ => is_space c | [] => false end)
    | _ => false
    end.
Proof.
  destruct n as [|d1 [|d2 [|dt [|a' [|b' [|c [|c2 rest]]]]]]];
    re_eval.
Qed.

Lemma re_x0_eq (n : str) :
  re_match re_x0 n
  = match n with
    | d :: z :: c :: _ =>
        if is_digit d && (48 =? z)%N && is_space c
        then Some [(1%nat, [d])] else None
    | _ => None
    end.
Proof. destruct n as [|d [|z [|c rest]]]; re_eval. Qed.

Lemma re_cat_name_eq (a b : N) (n : str) :
  matched (re_match (re_cat_name [a; b]) n)
  = match n with
    | a' :: b' :: c :: _ => (a =? a')%N && (b =? b')%N && is_space c
    | _ => false
    end.
Proof. destruct n as [|a' [|b' [|c rest]]]; re_eval. Qed.

Lemma at_end_cases (tail : str) :
  at_end tail = true <-> tail = [] \/ tail = [newline].
Proof.
  destruct tail as [|c [|c' tail]]; simpl.
  - split; auto.
  - rewrite N.eqb_eq. split.
    + intros ->. right; reflexivity.
    + intros [H|H]; [discriminate | injection H; auto].
  - split; [discriminate | intros [H|H]; discriminate].
Qed.

Lemma digit_not (c x : N) :
  is_digit c = true -> is_digit x = false -> (x =? c)%N = false.
Proof.
  intros H R. apply N.eqb_neq. intros ->. congruence.
Qed.

Lemma match_star (a b : N) (name : str) :
  is_digit a = true -> is_digit b = true ->
  match_pattern (lit "*." ++ [a; b]) name
  = matched (re_match (re_any_seq [a; b]) name).
Proof.
  intros Ha Hb. unfold match_pattern. rewrite re_star_eq. simpl.
  change (42 =? 42)%N with true. change (46 =? 46)%N with true.
  rewrite Ha, Hb. reflexivity.
Qed.

Lemma match_x0 (name : str) :
  match_pattern (lit "x0") name
  = match name with
    | d :: z :: c :: _ =>
        is_digit d && (48 =? z)%N && is_space c && negb (d =? 48)%N
    | _ => false
    end.
Proof.
  unfold match_pattern. change (re_match re_star (lit "x0")) with (@None captures).
  change (str_eqb (lit "x0") (lit "x0")) with true. cbv iota.
  rewrite re_x0_eq. destruct name as [|d [|z [|c rest]]]; try reflexivity.
  destruct (is_digit d && (48 =? z)%N && is_space c); [|reflexivity].
  unfold group_of. simpl. rewrite andb_true_r. reflexivity.
Qed.

Lemma match_id (a b c d : N) (name : str) :
  is_digit a = true -> is_digit b = true ->
  is_digit c = true -> is_digit d = true ->
  match_pattern [a; b; 46%N; c; d] name
  = startswith name [a; b; 46%N; c; d].
Proof.
  intros Ha Hb Hc Hd. unfold match_pattern. rewrite re_star_eq.
  rewrite (digit_not a 42 Ha) by reflexivity. simpl andb. cbv iota.
  assert (X : str_eqb [a; b; 46%N; c; d] (lit "x0") = false).
  { simpl. rewrite N.eqb_sym, (digit_not a 120 Ha) by reflexivity. reflexivity. }
  rewrite X, re_id_exact_eq, Ha, Hb, Hc, Hd. reflexivity.
Qed.

Lemma match_cat (a b : N) (name : str) :
  is_digit a = true -> is_digit b = true ->
  match_pattern [a; b] name = matched (re_match (re_cat_name [a; b]) name).
Proof.
  intros Ha Hb. unfold match_pattern. rewrite re_star_eq.
  cbv iota.
  assert (X : str_eqb [a; b] (lit "x0") = false).
  { simpl. rewrite N.eqb_sym, (digit_not a 120 Ha) by reflexivity. reflexivity. }
  rewrite X, re_id_exact_eq, re_cat_exact_eq, Ha, Hb. reflexivity.
Qed.


Lemma re_star_shape (p : str) (m : captures) :
  re_match re_star p = Some m ->
  exists a b tail, p = lit "*." ++ [a; b] ++ tail
    /\ is_digit a = true /\ is_digit b = true /\ at_end tail = true.
Proof.
  rewrite re_star_eq. destruct p as [|st [|dt [|a [|b tail]]]];
    try discriminate.
  destruct (_ && _) eqn:E; [|discriminate]. intros _.
  rewrite !andb_true_iff, !N.eqb_eq in E.
  destruct E as [[[[<- <-] Ha] Hb] Ht]. exists a, b, tail. auto.
Qed.

Lemma re_id_exact_shape (p : str) :
  matched (re_match re_id_exact p) = true ->
  exists a b c d tail, p = [a; b; 46%N; c; d] ++ tail
    /\ is_digit a = true /\ is_digit b = true
    /\ is_digit c = true /\ is_digit d = true /\ at_end tail = true.
Proof.
  rewrite re_id_exact_eq. destruct p as [|a [|b [|dt [|c [|d tail]]]]];
    try discriminate.
  rewrite !andb_true_iff, !N.eqb_eq.
  intros [[[[[Ha Hb] <-] Hc] Hd] Ht]. exists a, b, c, d, tail. auto 7.
Qed.

Lemma re_cat_exact_shape (p : str) :
  matched (re_match re_cat_exact p) = true ->
  exists a b tail, p = [a; b] ++ tail
    /\ is_digit a = true /\ is_digit b = true /\ at_end tail = true.
Proof.
  rewrite re_cat_exact_eq. destruct p as [|a [|b tail]]; try discriminate.
  rewrite !andb_true_iff. intros [[Ha Hb] Ht]. exists a, b, tail. auto.
Qed.

(** A pattern that matches some name has one of the four forms, up to a
    newline at its end. *)
Lemma match_pattern_form (pattern name : str) :
  match_pattern pattern name = true ->
  exists form tail,
    pattern = form ++ tail /\ at_end tail = true
    /\ ((exists a b, is_digit a = true /\ is_digit b = true
                     /\ form = lit "*." ++ [a; b])
        \/ form = lit "x0"
        \/ (exists a b, is_digit a = true /\ is_digit b = true
                        /\ form = [a; b])
        \/ (exists a b c d, is_digit a = true /\ is_digit b = true
                            /\ is_digit c = true /\ is_digit d = true
                            /\ form = [a; b; 46%N; c; d])).
Proof.
  unfold match_pattern.
  destruct (re_match re_star pattern) as [m|] eqn:S.
  { intros _. apply re_star_shape in S.
    destruct S as [a [b [tail [-> [Ha [Hb Ht]]]]]].
    exists (lit "*." ++ [a; b]), tail. split; [reflexivity|].
    split; [assumption|]. left. exists a, b. auto. }
  destruct (str_eqb pattern (lit "x0")) eqn:X.
  { intros _. apply str_eqb_eq in X. subst pattern.
    exists (lit "x0"), []. split; [reflexivity|]. split; [reflexivity|].
    right; left. reflexivity. }
  destruct (matched (re_match re_id_exact pattern)) eqn:I.
  { intros _. apply re_id_exact_shape in I.
    destruct I as [a [b [c [d [tail [-> [Ha [Hb [Hc [Hd Ht]]]]]]]]]].
    exists [a; b; 46%N; c; d], tail. split; [reflexivity|].
    split; [assumption|]. right; right; right. exists a, b, c, d. auto 7. }
  destruct (matched (re_match re_cat_exact pattern)) eqn:C;
    [|discriminate].
  intros _. apply re_cat_exact_shape in C.
  destruct C as [a [b [tail [-> [Ha [Hb Ht]]]]]].
  exists [a; b], tail. split; [reflexivity|]. split; [assumption|].
  right; right; left. exists a, b. auto.
Qed.

Lemma match_pattern_other (pattern name : str) :
  last pattern 0%N <> newline ->
  (forall a b, is_digit a = true -> is_digit b = true ->
               pattern <> lit "*." ++ [a; b]) ->
  pattern <> lit "x0" ->
  (forall a b, is_digit a = true -> is_digit b = true -> pattern <> [a; b]) ->
  (forall a b c d, is_digit a = true -> is_digit b = true ->
                   is_digit c = true -> is_digit d = true ->
                   pattern <> [a; b; 46%N; c; d]) ->
  match_pattern pattern name = false.
Proof.
  intros L N1 N2 N3 N4.
  destruct (match_pattern pattern name) eqn:M; [|reflexivity]. exfalso.
  apply match_pattern_form in M.
  destruct M as [form [tail [-> [Ht F]]]].
  apply at_end_cases in Ht. destruct Ht as [-> | ->].
  - rewrite app_nil_r in *.
    destruct F as [[a [b [Ha [Hb ->]]]] | [-> | [[a [b [Ha [Hb ->]]]]
                  | [a [b [c [d [Ha [Hb [Hc [Hd ->]]]]]]]]]]].
    + apply (N1 a b Ha Hb). reflexivity.
    + apply N2. reflexivity.
    + apply (N3 a b Ha Hb). reflexivity.
    + apply (N4 a b c d Ha Hb Hc Hd). reflexivity.
  - apply L. apply last_last.
Qed.

Lemma match_star_iff (a b : N) (name : str) :
  is_digit a = true -> is_digit b = true ->
  (match_pattern (lit "*." ++ [a; b]) name = true <->
   exists d1 d2 rest,
     name = d1 :: d2 :: 46%N :: a :: b :: rest
     /\ is_digit d1 = true /\ is_digit d2 = true
     /\ (rest = [] \/ exists c rest', rest = c :: rest' /\ is_space c = true)).
Proof.
  intros Ha Hb. rewrite (match_star a b name Ha Hb), re_any_seq_eq. split.
  - destruct name as [|d1 [|d2 [|dt [|a' [|b' rest]]]]]; try discriminate.
    rewrite !andb_true_iff, !N.eqb_eq, orb_true_iff.
    intros [[[[[H1 H2] <-] <-] <-] R]. exists d1, d2, rest.
    repeat split; try assumption.
    destruct R as [R|R].
    + apply at_end_cases in R. destruct R as [-> | ->]; [left; reflexivity|].
      right. exists newline, []. split; reflexivity.
    + destruct rest as [|c rest']; [discriminate|]. right. exists c, rest'.
      split; [reflexivity|assumption].
  - intros [d1 [d2 [rest [-> [H1 [H2 R]]]]]].
    rewrite H1, H2, !N.eqb_refl. simpl.
    destruct R as [-> | [c [rest' [-> Hc]]]]; [reflexivity|].
    rewrite Hc. apply orb_true_r.
Qed.

Lemma match_x0_iff (name : str) :
  match_pattern (lit "x0") name = true <->
  exists d c rest,
    name = d :: 48%N :: c :: rest
    /\ is_digit d = true /\ d <> 48%N /\ is_space c = true.
Proof.
  rewrite match_x0. split.
  - destruct name as [|d [|z [|c rest]]]; try discriminate.
    rewrite !andb_true_iff, negb_true_iff, N.eqb_eq, N.eqb_neq.
    intros [[[Hd <-] Hc] Hn]. exists d, c, rest. auto.
  - intros [d [c [rest [-> [Hd [Hn Hc]]]]]].
    rewrite Hd, Hc, N.eqb_refl. apply N.eqb_neq in Hn. rewrite Hn.
    reflexivity.
Qed.

Lemma match_cat_iff (a b : N) (name : str) :
  is_digit a = true -> is_digit b = true ->
  (match_pattern [a; b] name = true <->
   exists c rest, name = a :: b :: c :: rest /\ is_space c = true).
Proof.
  intros Ha Hb. rewrite (match_cat a b name Ha Hb), re_cat_name_eq. split.
  - destruct name as [|a' [|b' [|c rest]]]; try discriminate.
    rewrite !andb_true_iff, !N.eqb_eq. intros [[<- <-] Hc].
    exists c, rest. auto.
  - intros [c [rest [-> Hc]]]. rewrite !N.eqb_refl, Hc. reflexivity.
Qed.

Lemma match_id_iff (a b c d : N) (name : str) :
  is_digit a = true -> is_digit b = true ->
  is_digit c = true -> is_digit d = true ->
  (match_pattern [a; b; 46%N; c; d] name = true <->
   exists rest, name = [a; b; 46%N; c; d] ++ rest).
Proof.
  intros Ha Hb Hc Hd. rewrite (match_id a b c d name Ha Hb Hc Hd).
  apply startswith_app.
Qed.

(** C4, as amended.  [*.NN] matches the names that begin with two
    digits, a dot and NN and then end or go on with white space; [x0]
    those that begin with a digit other than 0, a 0 and a white-space
    character (so none that begins with 00); a two-digit pattern those
    that begin with it and a white-space character; an [NN.MM] pattern
    those it is a prefix of; a pattern of no such form, and not ending
    in a newline, matches no name. *)
Theorem match_pattern_declared_forms (name : str) :
  (forall a b, is_digit a = true -> is_digit b = true ->
     (match_pattern (lit "*." ++ [a; b]) name = true <->
      exists d1 d2 rest,
        name = d1 :: d2 :: 46%N :: a :: b :: rest
        /\ is_digit d1 = true /\ is_digit d2 = true
        /\ (rest = []
            \/ exists c rest', rest = c :: rest' /\ is_space c = true)))
  /\ (match_pattern (lit "x0") name = true <->
      exists d c rest,
        name = d :: 48%N :: c :: rest
        /\ is_digit d = true /\ d <> 48%N /\ is_space c = true)
  /\ (forall rest, match_pattern (lit "x0") (lit "00 " ++ rest) = false)
  /\ (forall a b, is_digit a = true -> is_digit b = true ->
        (match_pattern [a; b] name = true <->
         exists c rest, name = a :: b :: c :: rest /\ is_space c = true))
  /\ (forall a b c d, is_digit a = true -> is_digit b = true ->
                      is_digit c = true -> is_digit d = true ->
        (match_pattern [a; b; 46%N; c; d] name = true <->
         exists rest, name = [a; b; 46%N; c; d] ++ rest))
  /\ (forall pattern,
        last pattern 0%N <> newline ->
        (forall a b, is_digit a = true -> is_digit b = true ->
                     pattern <> lit "*." ++ [a; b]) ->
        pattern <> lit "x0" ->
        (forall a b, is_digit a = true -> is_digit b = true ->
                     pattern <> [a; b]) ->
        (forall a b c d, is_digit a = true -> is_digit b = true ->
                         is_digit c = true -> is_digit d = true ->
                         pattern <> [a; b; 46%N; c; d]) ->
        match_pattern pattern name = false)
  /\ match_pattern (lit "*.00") (lit "26.00") = true
  /\ match_pattern (lit "*.00") (lit "05.00 Anything") = true
  /\ match_pattern (lit "*.00") (lit "26.01") = false.
Proof.
  split; [intros a b; apply match_star_iff|].
  split; [apply match_x0_iff|].
  split; [intros rest; rewrite match_x0; reflexivity|].
  split; [intros a b; apply match_cat_iff|].
  split; [intros a b c d; apply match_id_iff|].
  split; [intros pattern; apply match_pattern_other|].
  repeat split; vm_compute; reflexivity.
Qed.

Lemma match_pattern_declared_forms_witness :
  match_pattern (lit "26") (lit "26 Recipes") = true
  /\ match_pattern (lit "recipes") (lit "26 Recipes") = false.
Proof.
  split.
  - apply (proj1 (proj2 (proj2 (proj2
             (match_pattern_declared_forms (lit "26 Recipes")))))
             50%N 54%N eq_refl eq_refl).
    exists 32%N, (lit "Recipes"). split; reflexivity.
  - apply (proj1 (proj2 (proj2 (proj2 (proj2 (proj2
             (match_pattern_declared_forms (lit "26 Recipes")))))))
             (lit "recipes")); intros; discriminate.
Defined.

(** C4, as stated, fails twice: [x0] matches a name whose third
    character is a tab, not a space; and the pattern [*.00] followed by
    a newline, which is none of the four forms, matches [26.00]. *)
Lemma match_pattern_exact_forms_counterexample :
  match_pattern (lit "x0") (lit "10" ++ [9%N] ++ lit "Meta") = true
  /\ nth_error (lit "10" ++ [9%N] ++ lit "Meta") 2 <> Some 32%N
  /\ match_pattern (lit "*.00" ++ [newline]) (lit "26.00") = true
  /\ lit "*.00" ++ [newline] <> lit "*.00".
Proof.
  split; [vm_compute; reflexivity|].
  split; [vm_compute; discriminate|].
  split; [vm_compute; reflexivity|]. vm_compute; discriminate.
Qed.

End Patterns.

(** ** policy.py: the cascade *)

Section Cascade.
Import Policy Cond.

Lemma re_meta_eq (n : str) :
  matched (re_match re_meta n)
  = match n with
    | a :: b :: dt :: z1 :: z2 :: tail =>
        is_digit a && is_digit b && (46 =? dt)%N && (48 =? z1)%N
        && (48 =? z2)%N && at_end tail
    | _ => false
    end.
Proof. destruct n as [|a [|b [|dt [|z1 [|z2 tail]]]]]; re_eval. Qed.

Lemma re_id_num_eq (n : str) :
  re_match re_id_num n
  = match n with
    | a :: b :: dt :: c :: d :: _ =>
        if is_digit a && is_digit b && (46 =? dt)%N && is_digit c
           && is_digit d
        then Some [(1%nat, [a; b])] else None
    | _ => None
    end.
Proof. destruct n as [|a [|b [|dt [|c [|d tail]]]]]; re_eval. Qed.

Lemma re_cat_num_eq (n : str) :
  re_match re_cat_num n
  = match n with
    | a :: b :: sp :: _ =>
        if is_digit a && is_digit b && (32 =? sp)%N
        then Some [(1%nat, [a; b])] else None
    | _ => None
    end.
Proof. destruct n as [|a [|b [|sp tail]]]; re_eval. Qed.

Lemma re_area_num_eq (n : str) :
  re_match re_area_num n
  = match n with
    | a :: b :: sep :: c :: d :: sp :: _ =>
        if is_digit a && is_digit b && ((sep =? 45)%N || (sep =? 8211)%N)
           && is_digit c && is_digit d && (32 =? sp)%N
        then Some [(2%nat, [b]); (1%nat, [a])] else None
    | _ => None
    end.
Proof. destruct n as [|a [|b [|sep [|c [|d [|sp tail]]]]]]; re_eval. Qed.

Lemma find_meta_dir_category (fs : FS) (cat : path) :
  startswith (name cat) (lit "80 ") = true ->
  find_meta_dir fs cat
  = if path_exists fs (child cat (lit "80.00"))
    then Ok (Some (child cat (lit "80.00"))) else Ok None.
Proof.
  intros H. apply startswith_app in H. destruct H as [rest E].
  unfold find_meta_dir.
  rewrite re_meta_eq, re_id_num_eq, re_cat_num_eq, E.
  destruct rest as [|r1 [|r2 rest]]; reflexivity.
Qed.

Lemma find_meta_dir_area (fs : FS) (area cat : path) (children : list path) :
  startswith (name area) (lit "80-89 ") = true ->
  iterdir fs area = Ok children ->
  find (fun c => is_dir fs c && startswith (name c) (lit "80 ")) children
  = Some cat ->
  find_meta_dir fs area
  = if path_exists fs (child cat (lit "80.00"))
    then Ok (Some (child cat (lit "80.00"))) else Ok None.
Proof.
  intros H L F. apply startswith_app in H. destruct H as [rest E].
  unfold find_meta_dir.
  rewrite re_meta_eq, re_id_num_eq, re_cat_num_eq, re_area_num_eq, E, L.
  change (lit "80-89 " ++ rest)
    with (56 :: 48 :: 45 :: 56 :: 57 :: 32 :: rest)%N.
  cbv beta iota.
  change (is_digit 56) with true. change (is_digit 48) with true.
  change (is_digit 57) with true. change (46 =? 45)%N with false.
  change (32 =? 45)%N with false. change (45 =? 45)%N with true.
  change (32 =? 32)%N with true.
  cbv beta iota. simpl andb. cbv beta iota. cbn [bind].
  change ((group_of [(2%nat, [48%N]); (1%nat, [56%N])] 1 ++ lit "0")
          ++ lit " ")
    with (lit "80 ").
  rewrite F. reflexivity.
Qed.

Lemma load_policy_file_at (fs : FS) (dir meta : path) (D : value) :
  find_meta_dir fs dir = Ok (Some meta) ->
  path_exists fs (child meta POLICY_FILENAME) = true ->
  safe_load fs (child meta POLICY_FILENAME) = Ok D ->
  truthy D = true ->
  load_policy_file fs dir = Ok (Some D).
Proof.
  intros M E L T. unfold load_policy_file. rewrite M. cbn [bind].
  rewrite E, L, T. reflexivity.
Qed.

Lemma sets_truthy (t : str) (D : value) :
  sets_ids_files_only t D -> truthy D = true.
Proof.
  intros [d [conv [-> [_ [C _]]]]]. destruct d; [discriminate|reflexivity].
Qed.

Lemma dict_get_filter (k : key) (f : key -> bool) (d : dict) :
  f k = true ->
  dict_get k (filter (fun kv => f (fst kv)) d) = dict_get k d.
Proof.
  intros K. induction d as [|[k' v'] d IH]; simpl; [reflexivity|].
  destruct (key_eqb k k') eqn:E.
  - apply key_eqb_eq in E. subst k'. rewrite K. simpl.
    rewrite key_eqb_refl. reflexivity.
  - destruct (f k'); simpl; [rewrite E|]; exact IH.
Qed.

Lemma NoDup_filter_keys (f : key * value -> bool) (d : dict) :
  NoDup (List.map fst d) -> NoDup (List.map fst (filter f d)).
Proof.
  induction d as [|[k v] d IH]; simpl; intros U; [constructor|].
  inversion U as [|? ? N U']; subst. destruct (f (k, v)); simpl.
  - constructor; [|apply IH, U']. intros H. apply N.
    apply in_map_iff in H. destruct H as [[k' v'] [E H]]. simpl in E.
    subst k'. apply filter_In in H. destruct H as [H _].
    apply in_map_iff. exists (k, v'). split; [reflexivity|exact H].
  - apply IH, U'.
Qed.

Lemma apply_patterns_no_match (t : str) (pats : dict) (eff : dict) :
  (forall pat pp, In (pat, pp) pats -> match_pattern_key pat t = Ok false) ->
  apply_patterns t pats eff = Ok eff.
Proof.
  induction pats as [|[pat pp] pats IH]; intros H; simpl; [reflexivity|].
  rewrite (H pat pp) by (left; reflexivity). cbn [bind].
  apply IH. intros pat' pp' I. apply (H pat' pp'). right; exact I.
Qed.

(** A level whose document is a mapping without a matching rule merges
    the mapping, its [patterns] left out, into the policy. *)
Lemma apply_level_mapping (fs : FS) (t : str) (eff : dict) (dir : path)
      (d : dict) :
  load_policy_file fs dir = Ok (Some (VDict d)) ->
  no_rule_matches t d ->
  apply_level fs t eff dir
  = Ok (deep_merge eff
          (filter (fun kv =>
                     negb (key_eqb (fst kv) (KStr (lit "patterns")))) d)).
Proof.
  intros L P. unfold apply_level. rewrite L. cbn [bind].
  destruct d as [|kv d']; [reflexivity|].
  set (d := kv :: d') in *. cbn [truthy items bind].
  change (match d with [] => false | _ :: _ => true end) with true.
  cbv iota.
  set (base := filter _ d).
  assert (E : (if match base with [] => false | _ :: _ => true end
               then deep_merge eff base else eff)
              = deep_merge eff base).
  { destruct base; reflexivity. }
  rewrite E.
  destruct P as [P | [pats [P N]]]; rewrite P; cbn [items bind].
  - reflexivity.
  - apply apply_patterns_no_match, N.
Qed.

(** Merging the document switches the convention on. *)
Lemma apply_level_document (fs : FS) (t : str) (eff : dict) (dir : path)
      (D : value) :
  sets_ids_files_only t D ->
  load_policy_file fs dir = Ok (Some D) ->
  exists eff', apply_level fs t eff dir = Ok eff' /\ ids_files_only_on eff'.
Proof.
  intros [d [conv [-> [Ud [C [Uc [I P]]]]]]] L.
  rewrite (apply_level_mapping fs t eff dir d L P).
  set (base := filter _ d).
  assert (Cb : dict_get (KStr (lit "conventions")) base = Some (VDict conv)).
  { subst base.
    rewrite (dict_get_filter (KStr (lit "conventions"))
               (fun k => negb (key_eqb k (KStr (lit "patterns")))))
      by reflexivity.
    exact C. }
  exists (deep_merge eff base). split; [reflexivity|].
  assert (Ub : NoDup (List.map fst base)) by (apply NoDup_filter_keys, Ud).
  pose proof (deep_merge_get base eff (KStr (lit "conventions")) Ub) as G.
  rewrite Cb in G.
  destruct (dict_get (KStr (lit "conventions")) eff) as [[| | | | |sub]|];
    try (exists conv; split; assumption).
  exists (deep_merge sub conv). split; [exact G|].
  rewrite (deep_merge_get conv sub (KStr (lit "ids_files_only")) Uc), I.
  destruct (dict_get (KStr (lit "ids_files_only")) sub) as [[| | | | |x]|];
    reflexivity.
Qed.

(** Merging a document that does not mention the convention leaves it
    as it is. *)
Lemma apply_level_leaves (fs : FS) (t : str) (b : bool) (eff : dict)
      (dir : path) (D : value) :
  leaves_ids_files_only t D ->
  load_policy_file fs dir = Ok (Some D) ->
  ids_files_only_is b eff ->
  exists eff',
    apply_level fs t eff dir = Ok eff' /\ ids_files_only_is b eff'.
Proof.
  intros [d [-> [Ud [C P]]]] L [conv0 [C0 I0]].
  rewrite (apply_level_mapping fs t eff dir d L P).
  set (base := filter _ d).
  assert (Cb : dict_get (KStr (lit "conventions")) base
               = dict_get (KStr (lit "conventions")) d).
  { subst base.
    apply (dict_get_filter (KStr (lit "conventions"))
             (fun k => negb (key_eqb k (KStr (lit "patterns"))))).
    reflexivity. }
  exists (deep_merge eff base). split; [reflexivity|].
  assert (Ub : NoDup (List.map fst base)) by (apply NoDup_filter_keys, Ud).
  pose proof (deep_merge_get base eff (KStr (lit "conventions")) Ub) as G.
  rewrite Cb, C0 in G.
  destruct C as [C | [conv [C [Uc I]]]]; rewrite C in G.
  - exists conv0. split; assumption.
  - exists (deep_merge conv0 conv). split; [exact G|].
    rewrite (deep_merge_get conv conv0 (KStr (lit "ids_files_only")) Uc), I.
    exact I0.
Qed.

Lemma apply_level_absent (fs : FS) (t : str) (eff : dict) (dir : path) :
  load_policy_file fs dir = Ok None -> apply_level fs t eff dir = Ok eff.
Proof. intros L. unfold apply_level. rewrite L. reflexivity. Qed.

Lemma apply_chain_absent (fs : FS) (t : str) (chain : list path) (eff : dict) :
  (forall dir, In dir chain -> load_policy_file fs dir = Ok None) ->
  apply_chain fs t chain eff = Ok eff.
Proof.
  revert eff. induction chain as [|dir chain IH]; intros eff H; simpl;
    [reflexivity|].
  rewrite apply_level_absent by (apply H; left; reflexivity). cbn [bind].
  apply IH. intros d I. apply H. right; exact I.
Qed.

Lemma apply_chain_app (fs : FS) (t : str) (first rest : list path)
      (eff : dict) :
  apply_chain fs t (first ++ rest) eff
  = bind (apply_chain fs t first eff) (apply_chain fs t rest).
Proof.
  revert eff. induction first as [|dir first IH]; intros eff;
    [reflexivity|].
  cbn [app apply_chain].
  destruct (apply_level fs t eff dir) as [eff'|e]; cbn [bind];
    [apply IH | reflexivity].
Qed.

(** Levels that load nothing, or documents that do not mention the
    convention, leave it as it is. *)
Lemma apply_chain_leaves (fs : FS) (t : str) (b : bool) (chain : list path)
      (eff : dict) :
  (forall dir, In dir chain ->
     load_policy_file fs dir = Ok None
     \/ exists D', load_policy_file fs dir = Ok (Some D')
                   /\ leaves_ids_files_only t D') ->
  ids_files_only_is b eff ->
  exists eff',
    apply_chain fs t chain eff = Ok eff' /\ ids_files_only_is b eff'.
Proof.
  revert eff. induction chain as [|dir chain IH]; intros eff H G.
  - exists eff. split; [reflexivity | exact G].
  - cbn [apply_chain].
    assert (S : exists eff1, apply_level fs t eff dir = Ok eff1
                             /\ ids_files_only_is b eff1).
    { destruct (H dir (or_introl eq_refl)) as [L | [D' [L Q]]].
      - exists eff. split; [apply apply_level_absent, L | exact G].
      - apply (apply_level_leaves fs t b eff dir D' Q L G). }
    destruct S as [eff1 [E G1]]. rewrite E. cbn [bind].
    apply IH; [|exact G1]. intros d I. apply H. right; exact I.
Qed.

(** Once the convention is on, levels that load nothing, the document
    [D] or a document that does not mention it leave it on. *)
Lemma apply_chain_on (fs : FS) (t : str) (D : value) (chain : list path)
      (eff : dict) :
  sets_ids_files_only t D ->
  no_other_setting fs t D chain ->
  ids_files_only_on eff ->
  exists eff', apply_chain fs t chain eff = Ok eff' /\ ids_files_only_on eff'.
Proof.
  intros S. revert eff. induction chain as [|dir chain IH]; intros eff H G.
  - exists eff. split; [reflexivity | exact G].
  - cbn [apply_chain].
    assert (U : exists eff1, apply_level fs t eff dir = Ok eff1
                             /\ ids_files_only_on eff1).
    { destruct (H dir (or_introl eq_refl)) as [L | [L | [D' [L Q]]]].
      - exists eff. split; [apply apply_level_absent, L | exact G].
      - apply (apply_level_document fs t eff dir D S L).
      - apply (apply_level_leaves fs t true eff dir D' Q L G). }
    destruct U as [eff1 [E G1]]. rewrite E. cbn [bind].
    apply IH; [|exact G1]. intros d I. apply H. right; exact I.
Qed.

Lemma get_ids_files_only (b : bool) (eff : dict) (default : value) :
  ids_files_only_is b eff ->
  get_convention eff (lit "ids_files_only") default = Ok (VBool b).
Proof.
  intros [conv [C I]]. unfold get_convention. rewrite C.
  change (contains (lit "ids_files_only") (lit ".")) with false.
  cbv iota. rewrite I. reflexivity.
Qed.

Lemma load_document_of_category_80 (fs : FS) (cat : path) (D : value)
      (t : str) :
  document_of_category_80 fs cat D -> sets_ids_files_only t D ->
  load_policy_file fs cat = Ok (Some D).
Proof.
  intros [N [E1 [E2 L]]] S.
  apply (load_policy_file_at fs cat (child cat (lit "80.00")) D);
    try assumption.
  - rewrite (find_meta_dir_category fs cat N), E1. reflexivity.
  - apply (sets_truthy t D S).
Qed.

Lemma load_document_of_area_80 (fs : FS) (area cat : path)
      (children : list path) (D : value) (t : str) :
  startswith (name area) (lit "80-89 ") = true ->
  iterdir fs area = Ok children ->
  find (fun c => is_dir fs c && startswith (name c) (lit "80 ")) children
  = Some cat ->
  document_of_category_80 fs cat D -> sets_ids_files_only t D ->
  load_policy_file fs area = Ok (Some D).
Proof.
  intros A L F [N [E1 [E2 LD]]] S.
  apply (load_policy_file_at fs area (child cat (lit "80.00")) D);
    try assumption.
  - rewrite (find_meta_dir_area fs area cat children A L F), E1. reflexivity.
  - apply (sets_truthy t D S).
Qed.

(** The chain passes through a directory that loads [D]: whatever the
    levels above it made of the defaults, the convention is on from
    there, and the levels below leave it on. *)
Lemma resolve_through (fs : FS) (p root dir : path) (D : value)
      (below above : list path) (inherited : dict) :
  sets_ids_files_only (name (resolve fs p)) D ->
  load_policy_file fs dir = Ok (Some D) ->
  chain_of fs p root = below ++ dir :: above ->
  apply_chain fs (name (resolve fs p)) (rev above) DEFAULTS = Ok inherited ->
  no_other_setting fs (name (resolve fs p)) D below ->
  exists effective,
    resolve_policy fs p root = Ok effective
    /\ forall default,
         get_convention effective (lit "ids_files_only") default
         = Ok (VBool true).
Proof.
  intros S L C A B. unfold resolve_policy.
  change (walk_chain fs (resolve fs root) root p [])
    with (chain_of fs p root).
  rewrite C, rev_app_distr. cbn [rev].
  rewrite apply_chain_app, apply_chain_app, A. cbn [bind apply_chain].
  destruct (apply_level_document fs (name (resolve fs p)) inherited dir D
              S L) as [eff1 [E1 G1]].
  rewrite E1. cbn [bind].
  destruct (apply_chain_on fs (name (resolve fs p)) D (rev below) eff1 S)
    as [eff [E G]]; [|exact G1|].
  - intros d Hd. apply B. apply in_rev. exact Hd.
  - exists eff. split; [exact E|]. intros default.
    apply get_ids_files_only, G.
Qed.

(** C1, as amended.  Let the policy document of category 80's meta
    directory set [conventions.ids_files_only] to true, with no pattern
    rule that matches the target's name.  Let the chain of the path pass
    through category 80, let the levels above the category resolve
    without an exception, to whatever policy, and let the levels below
    it load no document, the same document, or one that does not
    mention the convention.  Then [resolve_policy] yields true.  The
    same holds when the chain passes through the area 80-89 that lists
    this category first among its [80 ...] directories (a path inside
    category 81 is such a case).  A path on whose chain no document is
    loaded gets the defaults, and a path on whose chain every document
    loaded does not mention the convention gets [ids_files_only]
    false. *)
Theorem policy_cascade_category_80 (fs : FS) (root p : path) :
  (forall cat D below above inherited,
     document_of_category_80 fs cat D ->
     sets_ids_files_only (name (resolve fs p)) D ->
     chain_of fs p root = below ++ cat :: above ->
     apply_chain fs (name (resolve fs p)) (rev above) DEFAULTS
     = Ok inherited ->
     no_other_setting fs (name (resolve fs p)) D below ->
     exists effective,
       resolve_policy fs p root = Ok effective
       /\ forall default,
            get_convention effective (lit "ids_files_only") default
            = Ok (VBool true))
  /\ (forall area cat children D below above inherited,
        startswith (name area) (lit "80-89 ") = true ->
        iterdir fs area = Ok children ->
        find (fun c => is_dir fs c && startswith (name c) (lit "80 "))
             children = Some cat ->
        document_of_category_80 fs cat D ->
        sets_ids_files_only (name (resolve fs p)) D ->
        chain_of fs p root = below ++ area :: above ->
        apply_chain fs (name (resolve fs p)) (rev above) DEFAULTS
        = Ok inherited ->
        no_other_setting fs (name (resolve fs p)) D below ->
        exists effective,
          resolve_policy fs p root = Ok effective
          /\ forall default,
               get_convention effective (lit "ids_files_only") default
               = Ok (VBool true))
  /\ ((forall dir, In dir (chain_of fs p root) ->
                   load_policy_file fs dir = Ok None) ->
      resolve_policy fs p root = Ok DEFAULTS
      /\ forall default,
           get_convention DEFAULTS (lit "ids_files_only") default
           = Ok (VBool false))
  /\ ((forall dir, In dir (chain_of fs p root) ->
         load_policy_file fs dir = Ok None
         \/ exists D', load_policy_file fs dir = Ok (Some D')
                       /\ leaves_ids_files_only (name (resolve fs p)) D') ->
      exists effective,
        resolve_policy fs p root = Ok effective
        /\ forall default,
             get_convention effective (lit "ids_files_only") default
             = Ok (VBool false)).
Proof.
  split; [|split; [|split]].
  - intros cat D below above inherited Doc S C A B.
    apply (resolve_through fs p root cat D below above inherited S);
      try assumption.
    apply (load_document_of_category_80 fs cat D _ Doc S).
  - intros area cat children D below above inherited Ar L F Doc S C A B.
    apply (resolve_through fs p root area D below above inherited S);
      try assumption.
    apply (load_document_of_area_80 fs area cat children D _ Ar L F Doc S).
  - intros H. split; [|intros default; reflexivity].
    unfold resolve_policy. apply apply_chain_absent.
    intros d Hd. apply H. apply in_rev. exact Hd.
  - intros H. unfold resolve_policy.
    destruct (apply_chain_leaves fs (name (resolve fs p)) false
                (rev (walk_chain fs (resolve fs root) root p [])) DEFAULTS)
      as [eff [E G]].
    + intros d Hd. apply H. apply in_rev. exact Hd.
    + eexists. split; [vm_compute; reflexivity | reflexivity].
    + exists eff. split; [exact E|]. intros default.
      apply get_ids_files_only, G.
Qed.

Lemma sample_doc_sets (t : str) :
  sets_ids_files_only t Sample.ids_files_only_doc.
Proof.
  exists [(KStr (lit "conventions"),
           VDict [(KStr (lit "ids_files_only"), VBool true)])],
         [(KStr (lit "ids_files_only"), VBool true)].
  split; [reflexivity|].
  split; [repeat constructor; simpl; tauto|].
  split; [reflexivity|].
  split; [repeat constructor; simpl; tauto|].
  split; [reflexivity|]. left. reflexivity.
Defined.

Lemma naming_doc_leaves :
  leaves_ids_files_only (lit "71.01 Scores") Sample.naming_doc.
Proof.
  eexists. split; [reflexivity|].
  split; [repeat constructor; simpl; intuition discriminate|].
  split.
  - right. eexists. split; [reflexivity|].
    split; [repeat constructor; simpl; tauto | reflexivity].
  - right. eexists. split; [reflexivity|].
    intros pat pp [E|[]]. injection E as <- <-. reflexivity.
Defined.

Lemma policy_cascade_category_80_witness :
  (exists effective,
     resolve_policy (Tree.fs_of Sample.filing_with_root_policy)
                    Sample.unsorted_80 Sample.documents = Ok effective
     /\ forall default,
          get_convention effective (lit "ids_files_only") default
          = Ok (VBool true))
  /\ (exists effective,
        resolve_policy (Tree.fs_of Sample.filing_with_root_policy)
                       Sample.scores_71 Sample.documents = Ok effective
        /\ forall default,
             get_convention effective (lit "ids_files_only") default
             = Ok (VBool false)).
Proof.
  split.
  - refine (proj1 (policy_cascade_category_80
                     (Tree.fs_of Sample.filing_with_root_policy)
                     Sample.documents Sample.unsorted_80)
              Sample.meta_work Sample.ids_files_only_doc
              [Sample.unsorted_80]
              [Path "/home/alice/Documents/80-89 Work"; Sample.documents]
              _ _ (sample_doc_sets _) _ _ _).
    + repeat split; vm_compute; reflexivity.
    + vm_compute. reflexivity.
    + vm_compute. reflexivity.
    + intros dir [<-|[]]. right. left. vm_compute. reflexivity.
  - apply (proj2 (proj2 (proj2 (policy_cascade_category_80
                                  (Tree.fs_of Sample.filing_with_root_policy)
                                  Sample.documents Sample.scores_71)))).
    intros dir I. vm_compute in I.
    destruct I as [<- | [<- | [<- | [<- | []]]]];
      try (left; vm_compute; reflexivity).
    right. exists Sample.naming_doc.
    split; [vm_compute; reflexivity | exact naming_doc_leaves].
Defined.

(** C1, as stated, fails: category 81 has no override document of its
    own, yet a path inside it resolves [ids_files_only] to true, because
    [80.00] is also the meta directory of the area 80-89.  And inside
    category 80 itself a pattern rule of the same document can switch
    the convention off again for the target. *)
Lemma policy_cascade_category_81_counterexample :
  document_of_category_80 (Tree.fs_of Sample.filing) Sample.meta_work
                          Sample.ids_files_only_doc
  /\ find_meta_dir (Tree.fs_of Sample.filing) Sample.projects_81 = Ok None
  /\ load_policy_file (Tree.fs_of Sample.filing) Sample.projects_81 = Ok None
  /\ load_policy_file (Tree.fs_of Sample.filing) Sample.alpha_81 = Ok None
  /\ match resolve_policy (Tree.fs_of Sample.filing) Sample.alpha_81
                          Sample.documents with
     | Ok effective =>
         get_convention effective (lit "ids_files_only") VNone
     | Raise e => Raise e
     end = Ok (VBool true)
  /\ document_of_category_80
       (Tree.fs_of (Sample.filing_with Sample.ids_files_only_but_01_doc))
       Sample.meta_work Sample.ids_files_only_but_01_doc
  /\ match Sample.ids_files_only_but_01_doc with
     | VDict document =>
         get_convention document (lit "ids_files_only") VNone
     | _ => Raise TypeError
     end = Ok (VBool true)
  /\ match resolve_policy
             (Tree.fs_of
                (Sample.filing_with Sample.ids_files_only_but_01_doc))
             Sample.unsorted_80 Sample.documents with
     | Ok effective =>
         get_convention effective (lit "ids_files_only") VNone
     | Raise e => Raise e
     end = Ok (VBool false).
Proof. repeat split; vm_compute; reflexivity. Qed.

End Cascade.

(** ** scope.py *)

Section ScopeGuard.
Import Scope.

Variable repr : value -> str.

(** C2.  When the variable names a manifest that does not exist, no
    scope file is found, whatever the working directory holds, and
    [check_scope] allows every target. *)
Theorem missing_designated_manifest_unrestricted
        (fs : FS) (env : Env) (env_path : str) :
  JD_AGENT_SCOPE env = Some env_path ->
  env_path <> [] ->
  path_exists fs (os_path env env_path) = false ->
  find_scope_file fs env = None
  /\ load_scope repr fs env None = Ok None
  /\ forall target, check_scope repr fs env target None = Ok (true, None).
Proof.
  intros V N E.
  assert (F : find_scope_file fs env = None).
  { unfold find_scope_file. rewrite V.
    destruct env_path as [|c rest]; [contradiction N; reflexivity|].
    simpl truthy. cbv iota. rewrite E. reflexivity. }
  assert (L : load_scope repr fs env None = Ok None).
  { unfold load_scope. rewrite F. reflexivity. }
  split; [exact F|]. split; [exact L|].
  intros target. unfold check_scope. rewrite L. reflexivity.
Qed.

(** C10.  No target is in an empty scope, so [check_scope] denies every
    target when the manifest loads as the empty list (as [scope: []]
    does); when no manifest is found it allows every target. *)
Theorem empty_scope_denies_every_target
        (fs : FS) (env : Env) (target : str) (scope_file : option path) :
  is_in_scope target [] = false
  /\ (load_scope repr fs env scope_file = Ok (Some []) ->
      check_scope repr fs env target scope_file
      = Ok (false, Some (OutOfScope target [])))
  /\ (forall f,
        yaml_imported env = true ->
        safe_load fs f = Ok (VDict [(KStr (lit "scope"), VList [])]) ->
        load_scope repr fs env (Some f) = Ok (Some []))
  /\ (find_scope_file fs env = None ->
      check_scope repr fs env target None = Ok (true, None)).
Proof.
  split; [reflexivity|]. split; [|split].
  - intros L. unfold check_scope. rewrite L. reflexivity.
  - intros f Y L. unfold load_scope. rewrite Y, L. reflexivity.
  - intros F. unfold check_scope, load_scope. rewrite F. reflexivity.
Qed.

End ScopeGuard.

Lemma missing_designated_manifest_unrestricted_witness :
  Scope.check_scope Sample.no_repr (Tree.fs_of Sample.scoped)
                    Sample.agent_env (lit "30") None = Ok (true, None)
  /\ Scope.check_scope Sample.no_repr (Tree.fs_of Sample.scoped)
                       (Sample.in_dir (Path "/work/agent")) (lit "30") None
     = Ok (false, Some (Scope.OutOfScope (lit "30") [lit "20-29"])).
Proof.
  split; [|vm_compute; reflexivity].
  apply (proj2 (proj2 (missing_designated_manifest_unrestricted
                         Sample.no_repr (Tree.fs_of Sample.scoped)
                         Sample.agent_env (lit "/etc/jd/agent.yaml")
                         eq_refl ltac:(discriminate) eq_refl))).
Defined.

Lemma empty_scope_denies_every_target_witness :
  Scope.check_scope Sample.no_repr (Tree.fs_of Sample.scoped)
                    (Sample.in_dir (Path "/work/empty")) (lit "21") None
  = Ok (false, Some (Scope.OutOfScope (lit "21") []))
  /\ Scope.check_scope Sample.no_repr (Tree.fs_of Sample.scoped)
                       (Sample.in_dir (Path "/work/plain")) (lit "21") None
     = Ok (true, None).
Proof.
  split.
  - apply (proj1 (proj2 (empty_scope_denies_every_target
                           Sample.no_repr (Tree.fs_of Sample.scoped)
                           (Sample.in_dir (Path "/work/empty"))
                           (lit "21") None))).
    vm_compute. reflexivity.
  - apply (proj2 (proj2 (proj2 (empty_scope_denies_every_target
                           Sample.no_repr (Tree.fs_of Sample.scoped)
                           (Sample.in_dir (Path "/work/plain"))
                           (lit "21") None)))).
    vm_compute. reflexivity.
Defined.

(* ================================================================== *)
(** * Part III: further properties of the code *)
(* ================================================================== *)

(** ** Digits *)

Lemma decimal_in_below_ten (zeros : list N) (c d : N) :
  decimal_in zeros c = Some d -> (d <= 9)%N.
Proof.
  induction zeros as [|z zeros IH]; simpl; [discriminate|].
  destruct ((z <=? c)%N && (c <? z + 10)%N) eqn:E; [|exact IH].
  apply andb_true_iff in E. destruct E as [E1 E2].
  apply N.leb_le in E1. apply N.ltb_lt in E2.
  intros H; injection H as <-. lia.
Qed.

Lemma is_digit_decimal (c : N) :
  is_digit c = true -> exists d, decimal c = Some d /\ (d <= 9)%N.
Proof.
  unfold is_digit. destruct (decimal c) as [d|] eqn:E; [|discriminate].
  intros _. exists d. split; [reflexivity|].
  apply (decimal_in_below_ten decimal_zeros c d E).
Qed.

Lemma int_two_digits (a b : N) :
  is_digit a = true -> is_digit b = true -> (0 <= Py.int [a; b] <= 99)%Z.
Proof.
  intros Ha Hb.
  destruct (is_digit_decimal a Ha) as [da [Ea La]].
  destruct (is_digit_decimal b Hb) as [db [Eb Lb]].
  rewrite (int_2 a b da db Ea Eb). lia.
Qed.

(** ** util.py: parsing an ID string *)

Section ParseId.
Import Util.

Lemma re_id_string_eq (n : str) :
  re_match re_id_string n
  = match n with
    | a :: b :: dt :: c :: d :: _ =>
        if is_digit a && is_digit b && (46 =? dt)%N && is_digit c
           && is_digit d
        then Some [(2%nat, [c; d]); (1%nat, [a; b])] else None
    | _ => None
    end.
Proof. destruct n as [|a [|b [|dt [|c [|d tail]]]]]; re_eval. Qed.

Lemma parse_jd_id_string_eq (s : str) :
  parse_jd_id_string s
  = match s with
    | a :: b :: dt :: c :: d :: _ =>
        if is_digit a && is_digit b && (46 =? dt)%N && is_digit c
           && is_digit d
        then Ok (Py.int [a; b], Py.int [c; d]) else Raise ValueError
    | _ => Raise ValueError
    end.
Proof.
  unfold parse_jd_id_string. rewrite re_id_string_eq.
  destruct s as [|a [|b [|dt [|c [|d tail]]]]]; try reflexivity.
  destruct (_ && _); reflexivity.
Qed.

Lemma parse_ok_range (s : str) (category sequence : Z) :
  parse_jd_id_string s = Ok (category, sequence) ->
  (exists a b c d rest,
     s = a :: b :: 46%N :: c :: d :: rest
     /\ is_digit a = true /\ is_digit b = true
     /\ is_digit c = true /\ is_digit d = true)
  /\ (0 <= category <= 99)%Z /\ (0 <= sequence <= 99)%Z.
Proof.
  rewrite parse_jd_id_string_eq.
  destruct s as [|a [|b [|dt [|c [|d tail]]]]]; try discriminate.
  destruct (_ && _) eqn:E; [|discriminate].
  rewrite !andb_true_iff, N.eqb_eq in E.
  destruct E as [[[[Ha Hb] <-] Hc] Hd].
  intros H; injection H as <- <-. split.
  - exists a, b, c, d, tail. auto 6.
  - split; apply int_two_digits; assumption.
Qed.

(** X1.  [parse_jd_id_string] succeeds exactly on the strings that begin
    with two digits, a dot and two digits, whatever follows: on such a
    string it returns the numbers of the two pairs of digits, and every
    result it returns comes from such a string.  Both numbers lie in
    0..99.  On every other string, and only there, it raises, and what
    it raises is [ValueError]. *)
Theorem parse_jd_id_string_range (s : str) :
  (forall category sequence,
     parse_jd_id_string s = Ok (category, sequence) <->
     exists a b c d rest,
       s = a :: b :: 46%N :: c :: d :: rest
       /\ is_digit a = true /\ is_digit b = true
       /\ is_digit c = true /\ is_digit d = true
       /\ category = Py.int [a; b] /\ sequence = Py.int [c; d])
  /\ (forall category sequence,
        parse_jd_id_string s = Ok (category, sequence) ->
        (0 <= category <= 99)%Z /\ (0 <= sequence <= 99)%Z)
  /\ (forall e,
        parse_jd_id_string s = Raise e <->
        e = ValueError
        /\ forall a b c d rest,
             s = a :: b :: 46%N :: c :: d :: rest ->
             is_digit a && is_digit b && is_digit c && is_digit d = false).
Proof.
  split; [|split].
  - intros category sequence. rewrite parse_jd_id_string_eq. split.
    + destruct s as [|a [|b [|dt [|c [|d tail]]]]]; try discriminate.
      destruct (_ && _) eqn:E; [|discriminate].
      rewrite !andb_true_iff, N.eqb_eq in E.
      destruct E as [[[[Ha Hb] <-] Hc] Hd].
      intros H; injection H as <- <-.
      exists a, b, c, d, tail. auto 8.
    + intros [a [b [c [d [rest [-> [Ha [Hb [Hc [Hd [-> ->]]]]]]]]]]].
      rewrite Ha, Hb, Hc, Hd. reflexivity.
  - intros category sequence H. apply (parse_ok_range s category sequence H).
  - intros e. rewrite parse_jd_id_string_eq. split.
    + intros H.
      assert (V : e = ValueError).
      { destruct s as [|a [|b [|dt [|c [|d tail]]]]];
          try (injection H as <-; reflexivity).
        destruct (_ && _); [discriminate | injection H as <-; reflexivity]. }
      split; [exact V|].
      intros a b c d rest ->. rewrite N.eqb_refl in H.
      destruct (is_digit a), (is_digit b), (is_digit c), (is_digit d);
        try reflexivity; discriminate.
    + intros [-> H].
      destruct s as [|a [|b [|dt [|c [|d tail]]]]]; try reflexivity.
      destruct (N.eqb_spec 46 dt) as [<-|N].
      * specialize (H a b c d tail eq_refl).
        destruct (is_digit a), (is_digit b), (is_digit c), (is_digit d);
          try discriminate; reflexivity.
      * rewrite !andb_false_r.
        destruct (is_digit a && is_digit b); reflexivity.
Qed.

Lemma parse_jd_id_string_range_witness :
  parse_jd_id_string (lit "26.01 Unsorted") = Ok (26, 1)%Z
  /\ ((0 <= 26 <= 99)%Z /\ (0 <= 1 <= 99)%Z)
  /\ parse_jd_id_string (lit "26 Recipes") = Raise ValueError.
Proof.
  split; [|split].
  - apply (proj2 (proj1 (parse_jd_id_string_range (lit "26.01 Unsorted"))
                        26%Z 1%Z)).
    exists 50%N, 54%N, 48%N, 49%N, (lit " Unsorted").
    repeat split.
  - apply (proj1 (proj2 (parse_jd_id_string_range (lit "26.01 Unsorted")))
                 26%Z 1%Z eq_refl).
  - apply (proj2 (proj2 (proj2 (parse_jd_id_string_range (lit "26 Recipes")))
                        ValueError)).
    split; [reflexivity|]. intros a b c d rest E. discriminate E.
Defined.

Lemma parse_formatted (category sequence : Z) (rest : str) :
  (0 <= category <= 99)%Z -> (0 <= sequence <= 99)%Z ->
  parse_jd_id_string (format_jd_id category sequence ++ rest)
  = Ok (category, sequence).
Proof.
  intros Hc Hs. unfold format_jd_id.
  rewrite !format_02d_two_digits by assumption.
  change ((?x ++ lit "." ++ ?y) ++ rest) with ((x ++ 46%N :: y) ++ rest).
  cbn [app]. rewrite parse_jd_id_string_eq.
  rewrite !is_digit_of_Z by (Z.div_mod_to_equations; lia).
  change (46 =? 46)%N with true. cbn [andb].
  rewrite (int_2 _ _ (Z.to_N (category / 10)) (Z.to_N (category mod 10)))
    by (apply decimal_ascii; Z.div_mod_to_equations; lia).
  rewrite (int_2 _ _ (Z.to_N (sequence / 10)) (Z.to_N (sequence mod 10)))
    by (apply decimal_ascii; Z.div_mod_to_equations; lia).
  rewrite !Z2N.id by (Z.div_mod_to_equations; lia).
  f_equal. f_equal; Z.div_mod_to_equations; lia.
Qed.

(** X2.  Only the first five characters count: whatever follows a
    formatted ID (a title, for instance) is ignored by the parser; and
    formatting what the parser returned, then parsing again, gives the
    same pair. *)
Theorem parse_reads_five_characters :
  (forall category sequence rest,
     (0 <= category <= 99)%Z -> (0 <= sequence <= 99)%Z ->
     parse_jd_id_string (format_jd_id category sequence ++ rest)
     = Ok (category, sequence))
  /\ (forall s category sequence,
        parse_jd_id_string s = Ok (category, sequence) ->
        parse_jd_id_string (format_jd_id category sequence)
        = Ok (category, sequence)).
Proof.
  split; [exact parse_formatted|].
  intros s category sequence H.
  destruct (parse_ok_range s category sequence H) as [_ [Hc Hs]].
  rewrite <- (app_nil_r (format_jd_id category sequence)).
  apply parse_formatted; assumption.
Qed.

Lemma parse_reads_five_characters_witness :
  parse_jd_id_string (format_jd_id 26 1 ++ lit " Unsorted") = Ok (26, 1)%Z.
Proof.
  apply (proj1 parse_reads_five_characters 26%Z 1%Z (lit " Unsorted")); lia.
Defined.

End ParseId.

(** ** util.py: looking for the root *)

Section RootSearch.
Import Util.

Lemma in_home_root (env : Env) :
  is_in_user_home env [] = true <-> home env = [].
Proof.
  unfold is_in_user_home, is_relative_to. simpl.
  destruct (home env); simpl; split; congruence.
Qed.

(** What the loop has seen when it stops at [q]: every directory below
    [q] on the way was tested, was no root, and lies in the home
    directory. *)
Lemma walk_up_passed (fs : FS) (env : Env) (p q : path) :
  walk_up fs env p = Some (Ok q) ->
  exists below,
    p = below ++ q
    /\ forall k, (k < length below)%nat ->
         is_jd_root fs (skipn k below ++ q) = Ok false
         /\ is_in_user_home env (skipn k below ++ q) = true.
Proof.
  induction p as [|n p IH]; simpl.
  - destruct (is_jd_root fs []) as [r|e]; [|discriminate].
    destruct (negb r && is_in_user_home env []); [discriminate|].
    intros H; injection H as <-. exists []. split; [reflexivity|].
    simpl. intros k Hk. lia.
  - destruct (is_jd_root fs (n :: p)) as [r|e] eqn:R; [|discriminate].
    destruct (negb r && is_in_user_home env (n :: p)) eqn:E.
    + intros H. destruct (IH H) as [below [-> B]].
      apply andb_true_iff in E. destruct E as [Er Eh].
      apply negb_true_iff in Er. subst r.
      exists (n :: below). split; [reflexivity|].
      intros [|k] Hk; simpl in *; [auto|]. apply B. lia.
    + intros H; injection H as <-. exists []. split; [reflexivity|].
      simpl. intros k Hk. lia.
Qed.

(** X3.  A directory that [get_jd_root_dir] returns passes the root
    test, is the start or one of its ancestors, and is the nearest such:
    every directory passed on the way up failed the test. *)
Theorem get_jd_root_dir_nearest_root (fs : FS) (env : Env)
        (start_path q : path) :
  get_jd_root_dir fs env start_path = Some (Ok q) ->
  is_jd_root fs q = Ok true
  /\ exists below,
       start_path = below ++ q
       /\ forall k, (k < length below)%nat ->
            is_jd_root fs (skipn k below ++ q) = Ok false.
Proof.
  unfold get_jd_root_dir.
  destruct (walk_up fs env start_path) as [[p|e]|] eqn:W; try discriminate.
  destruct (is_jd_root fs p) as [[|]|e] eqn:R; try discriminate.
  intros H; injection H as <-. split; [exact R|].
  destruct (walk_up_passed fs env start_path p W) as [below [E B]].
  exists below. split; [exact E|]. intros k Hk. apply (B k Hk).
Qed.

Lemma get_jd_root_dir_nearest_root_witness :
  is_jd_root (Tree.fs_of Sample.filing) Sample.documents = Ok true.
Proof.
  apply (get_jd_root_dir_nearest_root
           (Tree.fs_of Sample.filing)
           {| home := Path "/home/alice"; cwd := Sample.alpha_81;
              JD_AGENT_SCOPE := None; yaml_imported := true |}
           Sample.alpha_81 Sample.documents).
  vm_compute. reflexivity.
Defined.

(** X4.  Outside the home directory nothing is walked: the start is
    returned if it is a root, and otherwise the search fails with
    [NotJohnnyDecimalDirectoryError] on the start itself. *)
Theorem get_jd_root_dir_outside_home (fs : FS) (env : Env)
        (start_path : path) :
  is_in_user_home env start_path = false ->
  get_jd_root_dir fs env start_path
  = Some (match is_jd_root fs start_path with
          | Ok true => Ok start_path
          | Ok false => Raise (NotJohnnyDecimalDirectoryError start_path)
          | Raise e => Raise e
          end).
Proof.
  intros H. unfold get_jd_root_dir.
  assert (W : walk_up fs env start_path
              = match is_jd_root fs start_path with
                | Ok _ => Some (Ok start_path)
                | Raise e => Some (Raise e)
                end).
  { destruct start_path as [|n p]; cbn [walk_up];
      destruct (is_jd_root fs _) as [r|e]; try reflexivity;
      rewrite H, andb_false_r; reflexivity. }
  rewrite W.
  destruct (is_jd_root fs start_path) as [[|]|e] eqn:R; simpl; rewrite ?R;
    reflexivity.
Qed.

Lemma get_jd_root_dir_outside_home_witness :
  get_jd_root_dir (Tree.fs_of Sample.shared) Sample.rex_env
                  (Path "/srv/filing/10-19 Admin")
  = Some (Raise (NotJohnnyDecimalDirectoryError
                   (Path "/srv/filing/10-19 Admin"))).
Proof.
  rewrite (get_jd_root_dir_outside_home
             (Tree.fs_of Sample.shared) Sample.rex_env
             (Path "/srv/filing/10-19 Admin") eq_refl).
  vm_compute. reflexivity.
Defined.

Lemma walk_up_ends (fs : FS) (env : Env) (p : path) :
  home env <> [] -> walk_up fs env p <> None.
Proof.
  intros H. induction p as [|n p IH]; simpl.
  - destruct (is_jd_root fs []) as [r|e]; [|discriminate].
    destruct (is_in_user_home env []) eqn:E.
    + apply in_home_root in E. contradiction.
    + rewrite andb_false_r. discriminate.
  - destruct (is_jd_root fs (n :: p)) as [r|e]; [|discriminate].
    destruct (negb r && is_in_user_home env (n :: p));
      [exact IH | discriminate].
Qed.

Lemma walk_up_never_ends (fs : FS) (env : Env) (p : path) :
  home env = [] ->
  (forall k, is_jd_root fs (skipn k p) = Ok false) ->
  walk_up fs env p = None.
Proof.
  intros H R.
  assert (I : forall q, is_in_user_home env q = true).
  { intros q. unfold is_in_user_home, is_relative_to. rewrite H. simpl.
    rewrite Nat.sub_0_r, skipn_all. reflexivity. }
  induction p as [|n p IH]; simpl.
  - pose proof (R 0%nat) as R0. simpl in R0. rewrite R0, I. reflexivity.
  - pose proof (R 0%nat) as R0. simpl in R0. rewrite R0, I. simpl.
    apply IH. intros k. apply (R (S k)).
Qed.

(** X5.  The search ends whenever the home directory is not the
    filesystem root.  When it is, and no directory from the start up to
    the filesystem root is a root, the loop never ends: the parent of
    the filesystem root is the filesystem root again. *)
Theorem get_jd_root_dir_termination (fs : FS) (env : Env)
        (start_path : path) :
  (home env <> [] -> get_jd_root_dir fs env start_path <> None)
  /\ (home env = [] ->
      (forall k, is_jd_root fs (skipn k start_path) = Ok false) ->
      get_jd_root_dir fs env start_path = None).
Proof.
  unfold get_jd_root_dir. split.
  - intros H. pose proof (walk_up_ends fs env start_path H) as W.
    destruct (walk_up fs env start_path) as [[p|e]|];
      [discriminate | discriminate | contradiction].
  - intros H R. rewrite (walk_up_never_ends fs env start_path H R).
    reflexivity.
Qed.

Lemma get_jd_root_dir_termination_witness :
  get_jd_root_dir (Tree.fs_of Sample.shared) Sample.rex_env
                  (Path "/srv/filing/rex/work") <> None
  /\ get_jd_root_dir (Tree.fs_of (Tree.Dir [Tree.dir "tmp" []]))
                     {| home := []; cwd := []; JD_AGENT_SCOPE := None;
                        yaml_imported := true |}
                     (Path "/tmp") = None.
Proof.
  split.
  - apply (proj1 (get_jd_root_dir_termination
                    (Tree.fs_of Sample.shared) Sample.rex_env
                    (Path "/srv/filing/rex/work"))).
    discriminate.
  - apply (proj2 (get_jd_root_dir_termination
                    (Tree.fs_of (Tree.Dir [Tree.dir "tmp" []]))
                    {| home := []; cwd := []; JD_AGENT_SCOPE := None;
                       yaml_imported := true |}
                    (Path "/tmp")) eq_refl).
    intros [|[|k]]; vm_compute; reflexivity.
Defined.

(** X7.  No path gets two classifications: of the tests for an area, a
    category, an ID directory and an ID file at most one holds. *)
Theorem classification_exclusive (fs : FS) (p : path) :
  (is_jd_area fs p = true ->
   is_jd_category fs p = false /\ is_jd_id fs p = false
   /\ is_jd_id_file fs p = false)
  /\ (is_jd_category fs p = true ->
      is_jd_id fs p = false /\ is_jd_id_file fs p = false)
  /\ (is_jd_id fs p = true -> is_jd_id_file fs p = false).
Proof.
  assert (A : is_jd_area fs p = true ->
              is_dir fs p = true
              /\ (nth_error (name p) 2 = Some 45%N
                  \/ nth_error (name p) 2 = Some 8211%N)).
  { unfold is_jd_area. destruct (is_dir fs p); simpl; [|discriminate].
    intros H. split; [reflexivity|].
    apply area_third_char. left; exact H. }
  assert (C : is_jd_category fs p = true ->
              is_dir fs p = true /\ nth_error (name p) 2 = Some 32%N).
  { unfold is_jd_category. destruct (is_dir fs p); simpl; [|discriminate].
    destruct (matched (re_match re_area_prefix _)); [discriminate|].
    destruct (matched (re_match re_id_prefix _)); [discriminate|].
    intros H. split; [reflexivity|]. apply category_third_char, H. }
  assert (I : matched (re_match re_id (name p)) = true ->
              nth_error (name p) 2 = Some 46%N).
  { intros H. apply id_third_char. left; exact H. }
  assert (F : is_dir fs p = true -> is_jd_id_file fs p = false).
  { intros D. unfold is_jd_id_file. rewrite D. reflexivity. }
  assert (N : forall c, nth_error (name p) 2 = Some c -> c <> 46%N ->
              is_jd_id fs p = false).
  { intros c Hc Nc. unfold is_jd_id. destruct (is_dir fs p); [|reflexivity].
    simpl. destruct (matched (re_match re_id (name p))) eqn:M;
      [|reflexivity].
    rewrite (I eq_refl) in Hc. congruence. }
  split; [|split].
  - intros H. destruct (A H) as [D T]. split; [|split; [|apply F, D]].
    + destruct (is_jd_category fs p) eqn:E; [|reflexivity].
      destruct (C eq_refl) as [_ T']. destruct T; congruence.
    + destruct T as [T|T]; apply (N _ T); discriminate.
  - intros H. destruct (C H) as [D T]. split; [|apply F, D].
    apply (N _ T); discriminate.
  - intros H. apply F. unfold is_jd_id in H.
    destruct (is_dir fs p); [reflexivity|discriminate].
Qed.

Lemma classification_exclusive_witness :
  is_jd_category (Tree.fs_of Sample.filing)
                 (child Sample.documents (lit "20-29 Family")) = false.
Proof.
  apply (proj1 (classification_exclusive
                  (Tree.fs_of Sample.filing)
                  (child Sample.documents (lit "20-29 Family")))).
  vm_compute. reflexivity.
Defined.

End RootSearch.

(** ** util.py: the search above the home directory *)

Section AboveHome.
Import Util.

(** X6.  When the start lies in the home directory and neither it nor
    any directory up to the home directory is a root, the search goes
    one directory further: the parent of the home directory is tested
    and returned if it is a root; the error names that parent
    otherwise. *)
Theorem search_reaches_parent_of_home (fs : FS) (env : Env) (below : path)
        (n : str) (up : path) :
  home env = n :: up ->
  (forall k, is_jd_root fs (skipn k below ++ home env) = Ok false) ->
  get_jd_root_dir fs env (below ++ home env)
  = Some (match is_jd_root fs up with
          | Ok true => Ok up
          | Ok false => Raise (NotJohnnyDecimalDirectoryError up)
          | Raise e => Raise e
          end).
Proof. exact (walk_tests_parent_of_home fs env below n up). Qed.

Lemma search_reaches_parent_of_home_witness :
  get_jd_root_dir (Tree.fs_of Sample.shared) Sample.rex_env
                  ([lit "work"] ++ home Sample.rex_env)
  = Some (match is_jd_root (Tree.fs_of Sample.shared)
                           (Path "/srv/filing") with
          | Ok true => Ok (Path "/srv/filing")
          | Ok false =>
              Raise (NotJohnnyDecimalDirectoryError (Path "/srv/filing"))
          | Raise e => Raise e
          end).
Proof.
  apply (search_reaches_parent_of_home (Tree.fs_of Sample.shared)
           Sample.rex_env [lit "work"] (lit "rex") (Path "/srv/filing")).
  - reflexivity.
  - intros [|[|k]]; vm_compute; reflexivity.
Defined.

End AboveHome.

(** ** models.py: an ID read from its name *)

Section IdRecord.
Import Util Models.

Lemma many_result (p : N -> bool) (k : str -> option captures) (t : str)
      (m : captures) :
  many p k t = Some m -> exists t', k t' = Some m.
Proof.
  induction t as [|c t IH]; simpl; [discriminate|].
  destruct (p c); [|discriminate].
  destruct (many p k t) as [m'|] eqn:E.
  - intros H; injection H as <-. apply IH. reflexivity.
  - intros H. exists t. exact H.
Qed.

(** A run of characters of the class that reaches the end of the string
    is taken whole. *)
Lemma many_whole (p : N -> bool) (k : str -> option captures) (t : str)
      (m : captures) :
  forallb p t = true -> t <> [] -> k [] = Some m -> many p k t = Some m.
Proof.
  intros A N K. induction t as [|c t IH]; [contradiction N; reflexivity|].
  simpl in A. apply andb_true_iff in A. destruct A as [Pc A].
  simpl. rewrite Pc. destruct t as [|c' t'].
  - simpl. exact K.
  - rewrite (IH A); [reflexivity | discriminate].
Qed.

Lemma consumed_all (s : str) : consumed s [] = s.
Proof.
  unfold consumed. simpl. rewrite Nat.sub_0_r. apply firstn_all.
Qed.

Lemma re_jdid_groups (n : str) :
  match n with
  | a :: b :: dt :: c :: d :: _ =>
      if is_digit a && is_digit b && (46 =? dt)%N && is_digit c
         && is_digit d
      then exists m, re_match re_jdid n = Some m
                     /\ group_of m 1 = [a; b] /\ group_of m 2 = [c; d]
      else re_match re_jdid n = None
  | _ => re_match re_jdid n = None
  end.
Proof.
  destruct n as [|a [|b [|dt [|c [|d tail]]]]]; try reflexivity;
    try (unfold re_match; simpl; case_tests; reflexivity).
  unfold re_match, re_jdid.
  cbn [conc run digit2 digit dot chr].
  destruct (is_digit a); [|reflexivity].
  destruct (is_digit b); [|reflexivity].
  destruct (46 =? dt)%N; [|reflexivity].
  destruct (is_digit c); [|reflexivity].
  destruct (is_digit d); [|reflexivity].
  cbn [andb]. rewrite !consumed_2.
  destruct (many is_space _ tail) as [m|] eqn:E.
  - apply many_result in E. destruct E as [t1 E]. simpl in E.
    apply many_result in E. destruct E as [t2 E]. injection E as <-.
    eexists. split; [reflexivity|]. split; reflexivity.
  - eexists. split; [reflexivity|]. split; reflexivity.
Qed.

Lemma JDID_init_eq (p : path) :
  (_cat_number (JDID_init p), _sequence (JDID_init p))
  = match parse_jd_id_string (name p) with
    | Ok numbers => numbers
    | Raise _ => (0%Z, 0%Z)
    end
  /\ (parse_jd_id_string (name p) = Raise ValueError ->
      _name (JDID_init p) = name p).
Proof.
  unfold JDID_init. rewrite parse_jd_id_string_eq.
  pose proof (re_jdid_groups (name p)) as G.
  destruct (name p) as [|a [|b [|dt [|c [|d tail]]]]];
    try (rewrite G; split; reflexivity).
  destruct (_ && _).
  - destruct G as [m [-> [G1 G2]]]. simpl. rewrite G1, G2.
    split; [reflexivity | discriminate].
  - rewrite G. split; reflexivity.
Qed.

(** X8.  The numbers of an ID are those [parse_jd_id_string] reads from
    its name, so both lie in 0..99; a name the parser rejects gives the
    ID 00.00 with the whole name as its title. *)
Theorem JDID_numbers_from_name (p : path) :
  id_path (JDID_init p) = p
  /\ (0 <= _cat_number (JDID_init p) <= 99)%Z
  /\ (0 <= _sequence (JDID_init p) <= 99)%Z
  /\ (forall category sequence,
        parse_jd_id_string (name p) = Ok (category, sequence) ->
        _cat_number (JDID_init p) = category
        /\ _sequence (JDID_init p) = sequence)
  /\ (parse_jd_id_string (name p) = Raise ValueError ->
      _cat_number (JDID_init p) = 0%Z /\ _sequence (JDID_init p) = 0%Z
      /\ _name (JDID_init p) = name p).
Proof.
  destruct (JDID_init_eq p) as [E F].
  split; [unfold JDID_init; destruct (re_match _ _); reflexivity|].
  destruct (parse_jd_id_string (name p)) as [[c q]|e] eqn:P.
  - destruct (parse_ok_range (name p) c q P) as [_ [Hc Hq]].
    injection E as -> ->.
    split; [lia|]. split; [lia|]. split; [|discriminate].
    intros c' q' H. injection H as <- <-. split; reflexivity.
  - injection E as -> ->.
    split; [lia|]. split; [lia|]. split; [discriminate|].
    intros H. split; [reflexivity|]. split; [reflexivity|].
    apply F. exact H.
Qed.

Lemma JDID_numbers_from_name_witness :
  _cat_number (JDID_init (Path "/26 Recipes/26.05 Soups")) = 26%Z
  /\ _sequence (JDID_init (Path "/26 Recipes/26.05 Soups")) = 5%Z.
Proof.
  apply (proj1 (proj2 (proj2 (proj2
           (JDID_numbers_from_name (Path "/26 Recipes/26.05 Soups")))))).
  reflexivity.
Defined.

(** X9.  The dotted string of an ID built from any path parses back to
    the ID's own two numbers. *)
Theorem id_str_parses_back (p : path) :
  parse_jd_id_string (id_str (JDID_init p))
  = Ok (_cat_number (JDID_init p), _sequence (JDID_init p)).
Proof.
  destruct (JDID_init_eq p) as [E _].
  assert (R : (0 <= _cat_number (JDID_init p) <= 99)%Z
              /\ (0 <= _sequence (JDID_init p) <= 99)%Z).
  { destruct (parse_jd_id_string (name p)) as [[c q]|e] eqn:P.
    - destruct (parse_ok_range (name p) c q P) as [_ [Hc Hq]].
      injection E as -> ->. split; assumption.
    - injection E as -> ->. split; lia. }
  destruct R as [Rc Rq].
  change (id_str (JDID_init p))
    with (format_jd_id (_cat_number (JDID_init p))
                       (_sequence (JDID_init p))).
  rewrite <- (app_nil_r (format_jd_id _ _)).
  apply parse_formatted; assumption.
Qed.

End IdRecord.

(** ** models.py: printing what was read *)

Section Printing.
Import Util Models Links Filing.

Lemma ascii_digit_decimal (a : N) :
  (48 <= a <= 57)%N -> decimal a = Some (a - 48)%N.
Proof.
  intros H.
  replace a with (Z.to_N (48 + (Z.of_N a - 48))) at 1 by lia.
  rewrite decimal_ascii by lia. f_equal. lia.
Qed.

Lemma ascii_digit_is_digit (a : N) :
  (48 <= a <= 57)%N -> is_digit a = true.
Proof.
  intros H. unfold is_digit. rewrite (ascii_digit_decimal a H). reflexivity.
Qed.

(** Two ASCII digits are printed back as they were read. *)
Lemma format_int_ascii (a b : N) :
  (48 <= a <= 57)%N -> (48 <= b <= 57)%N ->
  format_02d (Py.int [a; b]) = [a; b].
Proof.
  intros Ha Hb.
  rewrite (int_2 a b _ _ (ascii_digit_decimal a Ha)
                 (ascii_digit_decimal b Hb)).
  rewrite format_02d_two_digits by lia.
  f_equal; [|f_equal]; Z.div_mod_to_equations; lia.
Qed.

Lemma re_jdid_titled (a b c d r0 : N) (rest : str) :
  is_digit a = true -> is_digit b = true ->
  is_digit c = true -> is_digit d = true ->
  is_space r0 = false -> forallb is_dot (r0 :: rest) = true ->
  re_match re_jdid (a :: b :: 46 :: c :: d :: 32 :: r0 :: rest)%N
  = Some [(3%nat, r0 :: rest); (2%nat, [c; d]); (1%nat, [a; b])].
Proof.
  intros Ha Hb Hc Hd Hs Hr.
  unfold re_match, re_jdid.
  cbn [conc run digit2 digit dot chr].
  rewrite Ha, Hb, Hc, Hd. cbn [andb N.eqb]. rewrite N.eqb_refl.
  rewrite !consumed_2.
  cbn [many]. change (is_space 32) with true. cbv iota. rewrite Hs.
  unfold any_plus. cbn [run].
  erewrite many_whole; [| exact Hr | discriminate | reflexivity].
  rewrite consumed_all. reflexivity.
Qed.

Lemma re_jdid_bare (a b c d : N) :
  is_digit a = true -> is_digit b = true ->
  is_digit c = true -> is_digit d = true ->
  re_match re_jdid [a; b; 46; c; d]%N
  = Some [(2%nat, [c; d]); (1%nat, [a; b])].
Proof.
  intros Ha Hb Hc Hd.
  unfold re_match, re_jdid. simpl.
  rewrite Ha, Hb, Hc, Hd. simpl. rewrite !consumed_2. reflexivity.
Qed.

(** X10.  Printing an ID gives its directory name back when the name is
    two ASCII digits, a dot, two ASCII digits, one space and a title that
    does not begin with white space and has no line break; for a name
    that is the five characters of the number alone, the printed form
    is the name followed by one space. *)
Theorem JDID_str_reproduces_name (p : path) (a b c d : N) :
  (48 <= a <= 57)%N -> (48 <= b <= 57)%N ->
  (48 <= c <= 57)%N -> (48 <= d <= 57)%N ->
  (forall r0 rest,
     name p = (a :: b :: 46 :: c :: d :: 32 :: r0 :: rest)%N ->
     is_space r0 = false -> forallb is_dot (r0 :: rest) = true ->
     JDID_str (JDID_init p) = name p)
  /\ (name p = [a; b; 46; c; d]%N ->
      JDID_str (JDID_init p) = name p ++ lit " ").
Proof.
  intros Ha Hb Hc Hd.
  pose proof (ascii_digit_is_digit a Ha) as Da.
  pose proof (ascii_digit_is_digit b Hb) as Db.
  pose proof (ascii_digit_is_digit c Hc) as Dc.
  pose proof (ascii_digit_is_digit d Hd) as Dd.
  split.
  - intros r0 rest E Hs Hr.
    unfold JDID_str, id_str, JDID_init. rewrite E.
    rewrite (re_jdid_titled a b c d r0 rest Da Db Dc Dd Hs Hr).
    cbn [_cat_number _sequence _name group_of group Nat.eqb].
    rewrite !format_int_ascii by assumption. reflexivity.
  - intros E.
    unfold JDID_str, id_str, JDID_init. rewrite E.
    rewrite (re_jdid_bare a b c d Da Db Dc Dd).
    cbn [_cat_number _sequence _name group_of group Nat.eqb].
    rewrite !format_int_ascii by assumption. reflexivity.
Qed.

Lemma JDID_str_reproduces_name_witness :
  JDID_str (JDID_init (Path "/26 Recipes/26.05 Soups")) = lit "26.05 Soups"
  /\ JDID_str (JDID_init (Path "/26 Recipes/26.00")) = lit "26.00 ".
Proof.
  split.
  - apply (proj1 (JDID_str_reproduces_name (Path "/26 Recipes/26.05 Soups")
                    50 54 48 53 ltac:(lia) ltac:(lia) ltac:(lia) ltac:(lia))
             83%N (lit "oups"));
      reflexivity.
  - apply (proj2 (JDID_str_reproduces_name (Path "/26 Recipes/26.00")
                    50 54 48 48 ltac:(lia) ltac:(lia) ltac:(lia) ltac:(lia)));
      reflexivity.
Defined.

Lemma re_jdcategory_named (a b : N) (rest : str) :
  is_digit a = true -> is_digit b = true ->
  rest <> [] -> forallb is_dot rest = true ->
  re_match re_jdcategory (a :: b :: 32 :: rest)%N
  = Some [(2%nat, rest); (1%nat, [a; b])].
Proof.
  intros Ha Hb Hn Hr.
  unfold re_match, re_jdcategory.
  cbn [conc run digit2 digit space chr].
  rewrite Ha, Hb. cbn [andb]. rewrite N.eqb_refl, !consumed_2.
  unfold any_plus. cbn [run].
  erewrite many_whole; [| exact Hr | exact Hn | reflexivity].
  rewrite consumed_all. reflexivity.
Qed.

Lemma re_jdarea_named (a b sep c d : N) (rest : str) :
  is_digit a = true -> is_digit b = true ->
  is_digit c = true -> is_digit d = true ->
  sep = 45%N \/ sep = 8211%N ->
  rest <> [] -> forallb is_dot rest = true ->
  re_match re_jdarea (a :: b :: sep :: c :: d :: 32 :: rest)%N
  = Some [(3%nat, rest); (2%nat, [c; d]); (1%nat, [a; b])].
Proof.
  intros Ha Hb Hc Hd Hsep Hn Hr.
  unfold re_match, re_jdarea.
  cbn [conc run digit2 digit space chr hyphen_or_dash].
  rewrite Ha, Hb. cbn [andb].
  unfold hyphen_or_dash, one_of. cbn [run existsb].
  replace ((sep =? 45)%N || ((sep =? en_dash)%N || false)) with true
    by (destruct Hsep as [-> | ->]; reflexivity).
  rewrite Hc, Hd. cbn [andb].
  rewrite N.eqb_refl, !consumed_2.
  unfold any_plus. cbn [run].
  erewrite many_whole; [| exact Hr | exact Hn | reflexivity].
  rewrite consumed_all. reflexivity.
Qed.

(** X11.  A category that was read from a directory named with two ASCII
    digits, a space and a title without line break prints as that name;
    an area named NN-NN title prints as its name, and one named with an
    en dash prints with a hyphen in its place. *)
Theorem str_reproduces_directory_name (fsl : FSL) (p : path)
        (a b c d : N) (rest : str) :
  (48 <= a <= 57)%N -> (48 <= b <= 57)%N ->
  (48 <= c <= 57)%N -> (48 <= d <= 57)%N ->
  rest <> [] -> forallb is_dot rest = true ->
  (forall category,
     name p = (a :: b :: 32 :: rest)%N ->
     JDCategory_init fsl p = Ok category ->
     JDCategory_str category = name p)
  /\ (forall sep area,
        name p = (a :: b :: sep :: c :: d :: 32 :: rest)%N ->
        sep = 45%N \/ sep = 8211%N ->
        JDArea_init fsl p = Ok area ->
        JDArea_str area = (a :: b :: 45 :: c :: d :: 32 :: rest)%N).
Proof.
  intros Ha Hb Hc Hd Hn Hr.
  pose proof (ascii_digit_is_digit a Ha) as Da.
  pose proof (ascii_digit_is_digit b Hb) as Db.
  pose proof (ascii_digit_is_digit c Hc) as Dc.
  pose proof (ascii_digit_is_digit d Hd) as Dd.
  split.
  - intros category E I. unfold JDCategory_init in I. rewrite E in I.
    rewrite (re_jdcategory_named a b rest Da Db Hn Hr) in I.
    destruct (_get_ids fsl p) as [found|e]; [|discriminate].
    cbn [bind] in I. injection I as <-.
    unfold JDCategory_str.
    cbn [_number cat_name fst snd group_of group Nat.eqb].
    rewrite format_int_ascii by assumption. rewrite E. reflexivity.
  - intros sep area E Hsep I. unfold JDArea_init in I. rewrite E in I.
    rewrite (re_jdarea_named a b sep c d rest Da Db Dc Dd Hsep Hn Hr) in I.
    destruct (_get_categories fsl p) as [found|e]; [|discriminate].
    cbn [bind] in I. injection I as <-.
    unfold JDArea_str.
    cbn [area_number _end_number area_name fst snd group_of group Nat.eqb].
    rewrite !format_int_ascii by assumption. reflexivity.
Qed.

Lemma str_reproduces_directory_name_witness :
  exists category,
    JDCategory_init (no_links (Tree.fs_of Sample.filing))
                    (Path "/home/alice/Documents/20-29 Family/26 Recipes")
    = Ok category
    /\ JDCategory_str category = lit "26 Recipes".
Proof.
  eexists. split; [vm_compute; reflexivity|].
  apply (proj1 (str_reproduces_directory_name
                  (no_links (Tree.fs_of Sample.filing))
                  (Path "/home/alice/Documents/20-29 Family/26 Recipes")
                  50 54 48 48 (lit "Recipes")
                  ltac:(lia) ltac:(lia) ltac:(lia) ltac:(lia)
                  ltac:(discriminate) ltac:(reflexivity)));
    reflexivity.
Defined.

End Printing.

(** ** models.py: the next number after a new ID *)

Section NextIdGrowth.
Import Models.

(** X12.  [next_id] grows with the numbers in use: when every sequence
    number used in one category is used in another, the second category
    is full or its next number is not smaller; it is strictly larger
    when the number proposed for the first is among those the second
    uses, as after filing an ID under the proposed number. *)
Theorem next_id_grows (c c' : JDCategory) (n : Z) :
  (forall j, In j (List.map sequence (ids c)) ->
             In j (List.map sequence (ids c'))) ->
  next_id c = Ok n ->
  next_id c' = Raise ValueError
  \/ exists n', next_id c' = Ok n'
                /\ (n <= n')%Z
                /\ (In n (List.map sequence (ids c')) -> (n < n')%Z).
Proof.
  intros Sub H. unfold next_id in H.
  destruct (find _ (range 1 100)) as [i|] eqn:F; [|discriminate].
  injection H as ->. unfold next_id.
  destruct (find (fun i => negb (existsb (Z.eqb i)
                                       (List.map sequence (ids c'))))
                 (range 1 100)) as [n'|] eqn:F'; [|left; reflexivity].
  right. exists n'. split; [reflexivity|].
  apply find_range_least in F. destruct F as [R [Fn L]].
  apply find_range_least in F'. destruct F' as [R' [Fn' L']].
  apply unused_test in Fn'.
  assert (Le : (n <= n')%Z).
  { destruct (Z_lt_le_dec n' n) as [G|G]; [|exact G].
    exfalso. apply Fn', Sub, used_test, L. lia. }
  split; [exact Le|].
  intros U. destruct (Z.eq_dec n n') as [->|Ne]; [contradiction|lia].
Qed.

Lemma next_id_grows_witness :
  next_id {| cat_path := Path "/20-29 Family/26 Recipes";
             _number := 26; cat_name := lit "Recipes";
             ids := List.map JDID_init
                      [Path "/20-29 Family/26 Recipes/26.01 Unsorted";
                       Path "/20-29 Family/26 Recipes/26.02 Bread"] |}
  = Raise ValueError
  \/ exists n',
       next_id {| cat_path := Path "/20-29 Family/26 Recipes";
                  _number := 26; cat_name := lit "Recipes";
                  ids := List.map JDID_init
                           [Path "/20-29 Family/26 Recipes/26.01 Unsorted";
                            Path "/20-29 Family/26 Recipes/26.02 Bread"] |}
       = Ok n'
       /\ (2 <= n')%Z
       /\ (In 2%Z (List.map sequence
                     (List.map JDID_init
                        [Path "/20-29 Family/26 Recipes/26.01 Unsorted";
                         Path "/20-29 Family/26 Recipes/26.02 Bread"])) ->
           (2 < n')%Z).
Proof.
  apply (next_id_grows
           {| cat_path := Path "/20-29 Family/26 Recipes";
              _number := 26; cat_name := lit "Recipes";
              ids := List.map JDID_init
                       [Path "/20-29 Family/26 Recipes/26.01 Unsorted"] |}).
  - intros j. vm_compute. intuition.
  - vm_compute. reflexivity.
Defined.

End NextIdGrowth.

(** ** models.py: looking up IDs and categories *)

Section Lookup.
Import Models Links Filing.

Lemma find_app_first (A : Type) (f : A -> bool) (l1 l2 : list A) :
  find f (l1 ++ l2)
  = match find f l1 with Some x => Some x | None => find f l2 end.
Proof.
  induction l1 as [|x l1 IH]; simpl; [reflexivity|].
  destruct (f x); [reflexivity | exact IH].
Qed.

Lemma find_id_in_find (s : str) (l : list JDID) :
  find_id_in s l = find (fun i => str_eqb (id_str i) s) l.
Proof.
  induction l as [|i l IH]; simpl; [reflexivity|].
  destruct (str_eqb (id_str i) s); [reflexivity | exact IH].
Qed.

Lemma find_id_in_categories_find (s : str) (l : list JDCategory) :
  find_id_in_categories s l
  = find (fun i => str_eqb (id_str i) s) (flat_map ids l).
Proof.
  induction l as [|c l IH]; simpl; [reflexivity|].
  rewrite find_app_first, find_id_in_find, IH. reflexivity.
Qed.

Lemma find_id_in_areas_find (s : str) (l : list JDArea) :
  find_id_in_areas s l
  = find (fun i => str_eqb (id_str i) s)
         (flat_map (fun area => flat_map ids (categories area)) l).
Proof.
  induction l as [|a l IH]; simpl; [reflexivity|].
  rewrite find_app_first, find_id_in_categories_find, IH. reflexivity.
Qed.

Lemma find_by_id_find (jd : JDSystem) (s : str) :
  find_by_id jd s = find (fun i => str_eqb (id_str i) s) (all_ids jd).
Proof. apply find_id_in_areas_find. Qed.

(** [find_by_id] returns the first ID of [all_ids] with the string. *)
Lemma find_by_id_spec (jd : JDSystem) (s : str) :
  (forall i, find_by_id jd s = Some i <->
     exists before after,
       all_ids jd = before ++ i :: after
       /\ id_str i = s
       /\ forall j, In j before -> id_str j <> s)
  /\ (find_by_id jd s = None <->
      forall i, In i (all_ids jd) -> id_str i <> s).
Proof.
  rewrite find_by_id_find. generalize (all_ids jd) as l. intros l. split.
  - intros i. induction l as [|x l IH]; simpl.
    + split; [discriminate|]. intros [[|b before] [after [E _]]]; discriminate.
    + destruct (str_eqb (id_str x) s) eqn:T.
      * apply str_eqb_eq in T. split.
        -- intros H; injection H as <-. exists [], l.
           split; [reflexivity|]. split; [exact T|]. intros j [].
        -- intros [[|b before] [after [E [Ei N]]]].
           ++ injection E as <- _. reflexivity.
           ++ injection E as <- _. exfalso. apply (N x); [left; reflexivity|].
              exact T.
      * apply str_eqb_neq in T. rewrite IH. split.
        -- intros [before [after [E [Ei N]]]]. exists (x :: before), after.
           split; [rewrite E; reflexivity|]. split; [exact Ei|].
           intros j [<-|Hj]; [exact T | apply N, Hj].
        -- intros [[|b before] [after [E [Ei N]]]].
           ++ injection E as <- _. contradiction.
           ++ injection E as <- ->. exists before, after.
              split; [reflexivity|]. split; [exact Ei|].
              intros j Hj. apply N. right. exact Hj.
  - split.
    + intros H i Hi. apply str_eqb_neq. apply (find_none _ _ H i Hi).
    + intros H. destruct (find _ l) as [i|] eqn:F; [|reflexivity].
      apply find_some in F. destruct F as [Hi T].
      apply str_eqb_eq in T. exfalso. apply (H i Hi T).
Qed.

Lemma find_category_in_find (n : Z) (l : list JDCategory) :
  find_category_in n l = find (fun c => (_number c =? n)%Z) l.
Proof.
  induction l as [|c l IH]; simpl; [reflexivity|].
  destruct (_number c =? n)%Z; [reflexivity | exact IH].
Qed.

Lemma find_category_in_areas_find (n : Z) (l : list JDArea) :
  find_category_in_areas n l
  = find (fun c => (_number c =? n)%Z) (flat_map categories l).
Proof.
  induction l as [|a l IH]; simpl; [reflexivity|].
  rewrite find_app_first, find_category_in_find, IH. reflexivity.
Qed.

(** [find_by_category] returns a category of the system with the
    number. *)
Lemma find_by_category_spec (jd : JDSystem) (n : Z) :
  (forall c, find_by_category jd n = Some c ->
     _number c = n
     /\ (exists area, In area (areas jd) /\ In c (categories area))
     /\ forall i, In i (ids c) -> In i (all_ids jd))
  /\ (find_by_category jd n = None <->
      forall area c, In area (areas jd) -> In c (categories area) ->
                     _number c <> n).
Proof.
  unfold find_by_category. rewrite find_category_in_areas_find. split.
  - intros c F. apply find_some in F. destruct F as [Hc T].
    apply Z.eqb_eq in T. split; [exact T|].
    apply in_flat_map in Hc. destruct Hc as [area [Ha Hc]].
    split; [exists area; split; assumption|].
    intros i Hi. unfold all_ids. apply in_flat_map. exists area.
    split; [exact Ha|]. apply in_flat_map. exists c. split; assumption.
  - split.
    + intros H area c Ha Hc. apply Z.eqb_neq.
      apply (find_none _ _ H c). apply in_flat_map. exists area.
      split; assumption.
    + intros H. destruct (find _ _) as [c|] eqn:F; [|reflexivity].
      apply find_some in F. destruct F as [Hc T].
      apply in_flat_map in Hc. destruct Hc as [area [Ha Hc]].
      apply Z.eqb_eq in T. exfalso. apply (H area c Ha Hc T).
Qed.

(** X13.  What the two lookups return.  [find_by_id] returns the first
    ID of [all_ids] whose dotted string is the one asked for, and
    nothing exactly when no ID of [all_ids] has that string.  A category that [find_by_category]
    returns has the number asked for, belongs to an area of the system
    and its IDs are among [all_ids]; it returns nothing exactly when no
    category of any area has that number. *)
Theorem lookups_return_first_match (jd : JDSystem) :
  (forall s i, find_by_id jd s = Some i <->
     exists before after,
       all_ids jd = before ++ i :: after
       /\ id_str i = s
       /\ forall j, In j before -> id_str j <> s)
  /\ (forall s, find_by_id jd s = None <->
        forall i, In i (all_ids jd) -> id_str i <> s)
  /\ (forall n c, find_by_category jd n = Some c ->
        _number c = n
        /\ (exists area, In area (areas jd) /\ In c (categories area))
        /\ forall i, In i (ids c) -> In i (all_ids jd))
  /\ (forall n, find_by_category jd n = None <->
        forall area c, In area (areas jd) -> In c (categories area) ->
                       _number c <> n).
Proof.
  split; [|split; [|split]].
  - intros s. apply (proj1 (find_by_id_spec jd s)).
  - intros s. apply (proj2 (find_by_id_spec jd s)).
  - intros n. apply (proj1 (find_by_category_spec jd n)).
  - intros n. apply (proj2 (find_by_category_spec jd n)).
Qed.

Lemma lookups_return_first_match_witness :
  exists before after,
    all_ids Loaded.doubled_system
    = before
      ++ JDID_init
           (Path "/home/alice/Documents/10-19 Admin/11 Tax/11.01 Receipts")
      :: after
    /\ id_str (JDID_init
         (Path "/home/alice/Documents/10-19 Admin/11 Tax/11.01 Receipts"))
       = lit "11.01"
    /\ forall j, In j before -> id_str j <> lit "11.01".
Proof.
  apply (proj1 (lookups_return_first_match Loaded.doubled_system)
               (lit "11.01")).
  vm_compute. reflexivity.
Defined.

End Lookup.

(** ** models.py: duplicate IDs *)

Section Duplicates.
Import Models Links Filing.

Lemma seen_get_app (k k0 : str) (i0 : JDID) (seen : list (str * JDID)) :
  seen_get k (seen ++ [(k0, i0)])
  = match seen_get k seen with
    | Some i => Some i
    | None => if str_eqb k k0 then Some i0 else None
    end.
Proof.
  induction seen as [|[k' i'] seen IH]; simpl; [reflexivity|].
  destruct (str_eqb k k'); [reflexivity | exact IH].
Qed.

Lemma str_eqb_sym (a b : str) : str_eqb a b = str_eqb b a.
Proof.
  destruct (str_eqb a b) eqn:E.
  - apply str_eqb_eq in E. subst. symmetry. apply str_eqb_refl.
  - destruct (str_eqb b a) eqn:F; [|reflexivity].
    apply str_eqb_eq in F. subst. rewrite str_eqb_refl in E. discriminate.
Qed.

(** What the loop has already reported stays reported. *)
Lemma duplicates_loop_keeps (l : list JDID) (seen : list (str * JDID))
      (dupes : list (str * path * path)) (x : str * path * path) :
  In x dupes -> In x (duplicates_loop l seen dupes).
Proof.
  revert seen dupes. induction l as [|j l IH]; intros seen dupes H; simpl.
  - exact H.
  - destruct (seen_get (id_str j) seen).
    + apply IH. apply in_or_app. left. exact H.
    + apply IH. exact H.
Qed.

(** The loop, started after the IDs [done] with the first occurrences of
    [done] in [seen]. *)
Lemma duplicates_loop_spec (l done : list JDID) (seen : list (str * JDID))
      (dupes : list (str * path * path)) (s : str) (p1 p2 : path) :
  (forall k, seen_get k seen = find (fun i => str_eqb (id_str i) k) done) ->
  In (s, p1, p2) (duplicates_loop l seen dupes) <->
  In (s, p1, p2) dupes
  \/ exists before j after i,
       l = before ++ j :: after
       /\ id_str j = s /\ id_path j = p2
       /\ find (fun i => str_eqb (id_str i) s) (done ++ before) = Some i
       /\ id_path i = p1.
Proof.
  revert done seen dupes.
  induction l as [|x l IH]; intros done seen dupes Inv.
  - simpl. split; [intros H; left; exact H|].
    intros [H | [[|b before] [j [after [i [E _]]]]]];
      [exact H | discriminate | discriminate].
  - assert (Step : forall seen',
              (forall k, seen_get k seen'
                         = find (fun i => str_eqb (id_str i) k)
                                (done ++ [x])) ->
              forall dupes',
                In (s, p1, p2) (duplicates_loop l seen' dupes') <->
                In (s, p1, p2) dupes'
                \/ exists before j after i,
                     x :: l = (x :: before) ++ j :: after
                     /\ id_str j = s /\ id_path j = p2
                     /\ find (fun i => str_eqb (id_str i) s)
                             (done ++ x :: before) = Some i
                     /\ id_path i = p1).
    { intros seen' Inv' dupes'. rewrite (IH (done ++ [x]) seen' dupes' Inv').
      split; (intros [H|[before [j [after [i [E R]]]]]]; [left; exact H|]);
        right; exists before, j, after, i.
      - rewrite <- app_assoc in R. cbn [app] in R. subst l.
        split; [reflexivity | exact R].
      - cbn [app] in E. injection E as ->.
        rewrite <- app_assoc. cbn [app]. split; [reflexivity | exact R]. }
    cbn [duplicates_loop].
    destruct (seen_get (id_str x) seen) as [first|] eqn:G.
    + assert (Inv' : forall k, seen_get k seen
                      = find (fun i => str_eqb (id_str i) k) (done ++ [x])).
      { intros k. rewrite find_app_first, <- Inv.
        destruct (seen_get k seen) eqn:Gk; [reflexivity|].
        simpl. destruct (str_eqb (id_str x) k) eqn:T; [|reflexivity].
        apply str_eqb_eq in T. subst k. congruence. }
      rewrite (Step seen Inv'). rewrite in_app_iff. cbn [In].
      split.
      * intros [[H|[H|[]]]|[before [j [after [i [E R]]]]]].
        -- left. exact H.
        -- injection H as <- <- <-. right. exists [], x, l, first.
           split; [reflexivity|]. split; [reflexivity|].
           split; [reflexivity|]. rewrite app_nil_r, <- Inv.
           split; [exact G | reflexivity].
        -- right. exists (x :: before), j, after, i.
           split; [exact E | exact R].
      * intros [H|[[|b before] [j [after [i [E [Ej [Ep [F Ei]]]]]]]]].
        -- left. left. exact H.
        -- cbn [app] in E. injection E as <- <-. left. right. left.
           rewrite app_nil_r, <- Inv in F. subst s.
           rewrite G in F. injection F as <-. subst. reflexivity.
        -- cbn [app] in E. injection E as <- ->. right.
           exists before, j, after, i.
           split; [reflexivity|]. auto.
    + assert (Inv' : forall k, seen_get k (seen ++ [(id_str x, x)])
                      = find (fun i => str_eqb (id_str i) k) (done ++ [x])).
      { intros k. rewrite find_app_first, <- Inv, seen_get_app.
        destruct (seen_get k seen); [reflexivity|].
        simpl. rewrite (str_eqb_sym k). reflexivity. }
      rewrite (Step _ Inv'). split.
      * intros [H|[before [j [after [i [E R]]]]]]; [left; exact H|].
        right. exists (x :: before), j, after, i. split; [exact E | exact R].
      * intros [H|[[|b before] [j [after [i [E [Ej [Ep [F Ei]]]]]]]]].
        -- left. exact H.
        -- cbn [app] in E. injection E as <- <-.
           rewrite app_nil_r, <- Inv in F. subst s. congruence.
        -- cbn [app] in E. injection E as <- ->. right.
           exists before, j, after, i. split; [reflexivity|]. auto.
Qed.

Lemma duplicates_loop_empty (l : list JDID) (seen : list (str * JDID))
      (dupes : list (str * path * path)) :
  duplicates_loop l seen dupes = [] <->
  dupes = [] /\ NoDup (List.map id_str l)
  /\ forall i, In i l -> seen_get (id_str i) seen = None.
Proof.
  revert seen dupes. induction l as [|x l IH]; intros seen dupes; simpl.
  - split.
    + intros ->. split; [reflexivity|]. split; [constructor|]. intros i [].
    + intros [-> _]. reflexivity.
  - destruct (seen_get (id_str x) seen) as [first|] eqn:G.
    + rewrite IH. split.
      * intros [E _]. destruct dupes; discriminate.
      * intros [_ [_ H]]. specialize (H x (or_introl eq_refl)). congruence.
    + rewrite IH. split.
      * intros [-> [N H]]. split; [reflexivity|]. split.
        -- constructor; [|exact N]. intros Hin. apply in_map_iff in Hin.
           destruct Hin as [i [Ei Hi]]. specialize (H i Hi).
           rewrite seen_get_app in H.
           destruct (seen_get (id_str i) seen); [discriminate|].
           rewrite Ei, str_eqb_refl in H. discriminate.
        -- intros i [<-|Hi]; [exact G|]. specialize (H i Hi).
           rewrite seen_get_app in H.
           destruct (seen_get (id_str i) seen); [discriminate|reflexivity].
      * intros [-> [N H]]. inversion N as [|k ks Nx N']; subst.
        split; [reflexivity|]. split; [exact N'|].
        intros i Hi. rewrite seen_get_app, (H i (or_intror Hi)).
        destruct (str_eqb (id_str i) (id_str x)) eqn:T; [|reflexivity].
        apply str_eqb_eq in T. exfalso. apply Nx. rewrite <- T.
        apply in_map. exact Hi.
Qed.

(** X14.  [find_duplicates] reports an ID exactly when an earlier ID of
    [all_ids] has the same dotted string; the first path of the entry is
    that of the first ID with that string, the one [find_by_id] returns,
    and the second is the later ID's.  It reports nothing exactly when
    the dotted strings of [all_ids] are pairwise distinct. *)
Theorem find_duplicates_reports_later_ids (jd : JDSystem) :
  (forall s p1 p2,
     In (s, p1, p2) (find_duplicates jd) <->
     exists before j after first,
       all_ids jd = before ++ j :: after
       /\ id_str j = s /\ id_path j = p2
       /\ find (fun i => str_eqb (id_str i) s) before = Some first
       /\ find_by_id jd s = Some first
       /\ id_path first = p1)
  /\ (find_duplicates jd = [] <-> NoDup (List.map id_str (all_ids jd))).
Proof.
  split.
  - intros s p1 p2. unfold find_duplicates.
    rewrite (duplicates_loop_spec (all_ids jd) [] [] [] s p1 p2)
      by (intros k; reflexivity).
    cbn [In app]. rewrite find_by_id_find. split.
    + intros [[]|[before [j [after [i [E [Ej [Ep [F Ei]]]]]]]]].
      exists before, j, after, i. repeat (split; [assumption|]).
      split; [|exact Ei]. rewrite E, find_app_first, F. reflexivity.
    + intros [before [j [after [i [E [Ej [Ep [F [_ Ei]]]]]]]]]. right.
      exists before, j, after, i. auto.
  - unfold find_duplicates. rewrite duplicates_loop_empty. split.
    + intros [_ [N _]]. exact N.
    + intros N. split; [reflexivity|]. split; [exact N|]. reflexivity.
Qed.

Lemma find_duplicates_reports_later_ids_witness :
  In (lit "11.01",
      Path "/home/alice/Documents/10-19 Admin/11 Tax/11.01 Receipts",
      Path "/home/alice/Documents/20-29 Family/26 Recipes/11.01 Soups")
     (find_duplicates Loaded.doubled_system).
Proof.
  apply (proj1 (find_duplicates_reports_later_ids Loaded.doubled_system)).
  exists (List.map JDID_init
            [Path "/home/alice/Documents/10-19 Admin/11 Tax/11.01 Receipts";
             Path "/home/alice/Documents/10-19 Admin/11 Tax/11.01 Returns";
             Path "/home/alice/Documents/10-19 Admin/11 Tax/11.02 Letters"]),
    (JDID_init
       (Path "/home/alice/Documents/20-29 Family/26 Recipes/11.01 Soups")),
    [],
    (JDID_init
       (Path "/home/alice/Documents/10-19 Admin/11 Tax/11.01 Receipts")).
  vm_compute. repeat split.
Defined.

End Duplicates.

(** ** models.py and api.py: the tree that is loaded *)

Section LoadedTree.
Import Util Models Order Links Filing Api.

Lemma In_insert (x y : path) (l : list path) :
  In y (insert x l) <-> y = x \/ In y l.
Proof.
  induction l as [|z l IH]; simpl.
  - split; intros [H|H]; auto.
  - destruct (path_ltb x z); simpl; [|rewrite IH]; split; intuition.
Qed.

Lemma In_sorted (y : path) (l : list path) : In y (sorted l) <-> In y l.
Proof.
  unfold sorted.
  assert (G : forall acc,
             In y (fold_left (fun acc x => insert x acc) l acc)
             <-> In y l \/ In y acc).
  { induction l as [|x l IH]; intros acc; simpl.
    - split; [auto | intros [[]|H]; exact H].
    - rewrite IH, In_insert. split; intuition. }
  rewrite G. simpl. split; [intros [H|[]]; exact H | auto].
Qed.

Lemma iterdir_parent (fs : FS) (p : path) (entries : list path) (e : path) :
  iterdir fs p = Ok entries -> In e entries -> parent e = p.
Proof.
  unfold iterdir. destruct (listdir fs p) as [names|]; [|discriminate].
  intros H; injection H as <-. rewrite in_map_iff.
  intros [n [<- _]]. reflexivity.
Qed.

Lemma filter_filter (A : Type) (f g : A -> bool) (l : list A) :
  filter g (filter f l) = filter (fun x => f x && g x) l.
Proof.
  induction l as [|x l IH]; simpl; [reflexivity|].
  destruct (f x); simpl; [|exact IH].
  destruct (g x); [f_equal|]; exact IH.
Qed.

Lemma JDCategory_init_shape (fsl : FSL) (d : path) (c : JDCategory) :
  JDCategory_init fsl d = Ok c ->
  cat_path c = d
  /\ exists entries,
       iterdir (files fsl) d = Ok entries
       /\ ids c
          = List.map JDID_init
              (filter (fun item =>
                         if is_jd_id (files fsl) item
                         then negb (broken fsl item)
                         else is_jd_id_file (files fsl) item)
                      (sorted entries)).
Proof.
  unfold JDCategory_init, _get_ids.
  destruct (iterdir (files fsl) d) as [entries|e]; [|discriminate].
  cbn [bind]. intros H; injection H as <-. split; [reflexivity|].
  exists entries. split; [reflexivity|]. cbn [ids].
  induction (sorted entries) as [|x l IH]; simpl; [reflexivity|].
  destruct (is_jd_id (files fsl) x).
  - destruct (broken fsl x); simpl; [|f_equal]; exact IH.
  - destruct (is_jd_id_file (files fsl) x); simpl; [f_equal|]; exact IH.
Qed.

Lemma collect_categories_shape (fsl : FSL) (subdirs : list path)
      (l : list JDCategory) :
  collect_categories fsl subdirs = Ok l ->
  List.map cat_path l
  = filter (fun d => is_jd_category (files fsl) d && negb (broken fsl d))
           subdirs
  /\ forall c, In c l -> JDCategory_init fsl (cat_path c) = Ok c.
Proof.
  revert l. induction subdirs as [|d subdirs IH]; intros l; simpl.
  - intros H; injection H as <-. split; [reflexivity | intros c []].
  - destruct (is_jd_category (files fsl) d); [|apply IH].
    destruct (broken fsl d); [apply IH|]. cbn [andb negb].
    destruct (JDCategory_init fsl d) as [c|e] eqn:I; [|discriminate].
    cbn [bind].
    destruct (collect_categories fsl subdirs) as [cats|e]; [|discriminate].
    cbn [bind]. intros H; injection H as <-.
    destruct (IH cats eq_refl) as [M F].
    destruct (JDCategory_init_shape fsl d c I) as [P _].
    split.
    + simpl. rewrite P, M. reflexivity.
    + intros c' [<-|H]; [rewrite P; exact I | apply F, H].
Qed.

Lemma JDArea_init_shape (fsl : FSL) (d : path) (a : JDArea) :
  JDArea_init fsl d = Ok a ->
  area_path a = d
  /\ exists entries,
       iterdir (files fsl) d = Ok entries
       /\ List.map cat_path (categories a)
          = filter (fun d => is_jd_category (files fsl) d
                             && negb (broken fsl d))
                   (sorted entries)
       /\ forall c, In c (categories a) ->
                    JDCategory_init fsl (cat_path c) = Ok c.
Proof.
  unfold JDArea_init, _get_categories.
  destruct (iterdir (files fsl) d) as [entries|e]; [|discriminate].
  cbn [bind].
  destruct (collect_categories fsl (sorted entries)) as [cats|e] eqn:C;
    [|discriminate].
  cbn [bind]. intros H; injection H as <-. split; [reflexivity|].
  exists entries. split; [reflexivity|].
  apply collect_categories_shape. exact C.
Qed.

Lemma collect_areas_shape (fsl : FSL) (subdirs : list path)
      (l : list JDArea) :
  collect_areas fsl subdirs = Ok l ->
  List.map area_path l
  = filter (fun d => is_jd_area (files fsl) d && negb (broken fsl d)) subdirs
  /\ forall a, In a l -> JDArea_init fsl (area_path a) = Ok a.
Proof.
  revert l. induction subdirs as [|d subdirs IH]; intros l; simpl.
  - intros H; injection H as <-. split; [reflexivity | intros c []].
  - destruct (is_jd_area (files fsl) d); [|apply IH].
    destruct (broken fsl d); [apply IH|]. cbn [andb negb].
    destruct (JDArea_init fsl d) as [a|e] eqn:I; [|discriminate].
    cbn [bind].
    destruct (collect_areas fsl subdirs) as [more|e]; [|discriminate].
    cbn [bind]. intros H; injection H as <-.
    destruct (IH more eq_refl) as [M F].
    destruct (JDArea_init_shape fsl d a I) as [P _].
    split.
    + simpl. rewrite P, M. reflexivity.
    + intros a' [<-|H]; [rewrite P; exact I | apply F, H].
Qed.

Lemma JDSystem_init_shape (fsl : FSL) (root : path) (jd : JDSystem) :
  JDSystem_init fsl root = Ok jd ->
  sys_path jd = root
  /\ exists entries,
       iterdir (files fsl) root = Ok entries
       /\ List.map area_path (areas jd)
          = filter (fun d => is_jd_area (files fsl) d && negb (broken fsl d))
                   (sorted entries)
       /\ forall a, In a (areas jd) -> JDArea_init fsl (area_path a) = Ok a.
Proof.
  unfold JDSystem_init, _get_areas.
  destruct (iterdir (files fsl) root) as [entries|e]; [|discriminate].
  cbn [bind].
  destruct (collect_areas fsl (sorted entries)) as [found|e] eqn:C;
    [|discriminate].
  cbn [bind]. intros H; injection H as <-. split; [reflexivity|].
  exists entries. split; [reflexivity|].
  apply collect_areas_shape. exact C.
Qed.

Lemma JDID_init_path (p : path) : id_path (JDID_init p) = p.
Proof. unfold JDID_init. destruct (re_match _ _); reflexivity. Qed.

Lemma directories_among_ids (fsl : FSL) (l : list path) :
  filter (is_dir (files fsl))
         (List.map id_path
            (List.map JDID_init
               (filter (fun item =>
                          if is_jd_id (files fsl) item
                          then negb (broken fsl item)
                          else is_jd_id_file (files fsl) item) l)))
  = filter (fun x => is_jd_id (files fsl) x && negb (broken fsl x)) l.
Proof.
  induction l as [|x l IH]; [reflexivity|].
  cbn [filter]. unfold is_jd_id_file, is_jd_id.
  destruct (is_dir (files fsl) x) eqn:D; cbn [negb].
  - destruct (matched (re_match re_id (name x))); cbn [andb]; [|exact IH].
    destruct (broken fsl x); cbn [negb map filter]; [exact IH|].
    rewrite JDID_init_path, D. f_equal. exact IH.
  - cbn [andb]. destruct (matched (re_match re_id (name x)));
      cbn [map filter]; [|exact IH].
    rewrite JDID_init_path, D. exact IH.
Qed.

(** X15.  The tree that [JDSystem] loads holds what the listing functions
    of api.py return, without the broken links: the paths of its areas
    are those of [get_areas] for the root, the paths of the categories of
    an area those of [get_categories] for the area, and the IDs of a
    category that are directories those of [get_ids] for the category;
    all in the same order. *)
Theorem loaded_system_agrees_with_api (fsl : FSL) (root : path)
        (jd : JDSystem) :
  JDSystem_init fsl root = Ok jd ->
  (exists listed,
     get_areas (files fsl) root = Ok listed
     /\ List.map area_path (areas jd)
        = filter (fun d => negb (broken fsl d)) listed)
  /\ forall area, In area (areas jd) ->
       (exists listed,
          get_categories (files fsl) (area_path area) = Ok listed
          /\ List.map cat_path (categories area)
             = filter (fun d => negb (broken fsl d)) listed)
       /\ forall category, In category (categories area) ->
            exists listed,
              get_ids (files fsl) (cat_path category) = Ok listed
              /\ filter (is_dir (files fsl))
                        (List.map id_path (ids category))
                 = filter (fun d => negb (broken fsl d)) listed.
Proof.
  intros I. destruct (JDSystem_init_shape fsl root jd I)
    as [_ [entries [E [M F]]]].
  split.
  - unfold get_areas. rewrite E. cbn [bind]. eexists.
    split; [reflexivity|]. rewrite filter_filter. exact M.
  - intros area Ha.
    destruct (JDArea_init_shape fsl _ area (F area Ha))
      as [_ [entries' [E' [M' F']]]].
    split.
    + unfold get_categories. rewrite E'. cbn [bind]. eexists.
      split; [reflexivity|]. rewrite filter_filter. exact M'.
    + intros category Hc.
      destruct (JDCategory_init_shape fsl _ category (F' category Hc))
        as [_ [entries'' [E'' M'']]].
      unfold get_ids. rewrite E''. cbn [bind]. eexists.
      split; [reflexivity|]. rewrite M'', filter_filter.
      apply directories_among_ids.
Qed.

Lemma loaded_system_agrees_with_api_witness :
  exists listed,
    get_areas (Tree.fs_of Sample.filing) Sample.documents = Ok listed
    /\ List.map area_path (areas Loaded.system)
       = filter (fun d => negb (broken (no_links (Tree.fs_of Sample.filing))
                                       d)) listed.
Proof.
  apply (proj1 (loaded_system_agrees_with_api
                  (no_links (Tree.fs_of Sample.filing)) Sample.documents
                  Loaded.system ltac:(vm_compute; reflexivity))).
Defined.

Lemma re_jdarea_groups (n : str) :
  match n with
  | a :: b :: sep :: c :: d :: sp :: e :: _ =>
      if is_digit a && is_digit b && ((sep =? 45)%N || (sep =? 8211)%N)
         && is_digit c && is_digit d && (32 =? sp)%N && is_dot e
      then exists m, re_match re_jdarea n = Some m
                     /\ group_of m 1 = [a; b] /\ group_of m 2 = [c; d]
      else re_match re_jdarea n = None
  | _ => re_match re_jdarea n = None
  end.
Proof.
  destruct n as [|a [|b [|sep [|c [|d [|sp [|e rest]]]]]]];
    try (re_eval; fail).
  unfold re_match, re_jdarea, hyphen_or_dash, one_of, en_dash.
  cbn [conc run digit2 digit space chr existsb].
  rewrite orb_false_r.
  destruct (is_digit a); [|reflexivity].
  destruct (is_digit b); [|reflexivity].
  destruct ((sep =? 45)%N || (sep =? 8211)%N); [|reflexivity].
  destruct (is_digit c); [|reflexivity].
  destruct (is_digit d); [|reflexivity].
  destruct (32 =? sp)%N; [|reflexivity].
  cbn [andb]. rewrite !consumed_2. unfold any_plus. cbn [run many].
  destruct (is_dot e); [|reflexivity].
  destruct (many is_dot _ rest) as [m|] eqn:E.
  - apply many_result in E. destruct E as [t E]. injection E as <-.
    eexists. split; [reflexivity|]. split; reflexivity.
  - eexists. split; [reflexivity|]. split; reflexivity.
Qed.

Lemma re_jdcategory_groups (n : str) :
  match n with
  | a :: b :: sp :: e :: _ =>
      if is_digit a && is_digit b && (32 =? sp)%N && is_dot e
      then exists m, re_match re_jdcategory n = Some m
                     /\ group_of m 1 = [a; b]
      else re_match re_jdcategory n = None
  | _ => re_match re_jdcategory n = None
  end.
Proof.
  destruct n as [|a [|b [|sp [|e rest]]]]; try (re_eval; fail).
  unfold re_match, re_jdcategory.
  cbn [conc run digit2 digit space chr].
  destruct (is_digit a); [|reflexivity].
  destruct (is_digit b); [|reflexivity].
  destruct (32 =? sp)%N; [|reflexivity].
  cbn [andb]. rewrite !consumed_2. unfold any_plus. cbn [run many].
  destruct (is_dot e); [|reflexivity].
  destruct (many is_dot _ rest) as [m|] eqn:E.
  - apply many_result in E. destruct E as [t E]. injection E as <-.
    eexists. split; [reflexivity|]. reflexivity.
  - eexists. split; [reflexivity|]. reflexivity.
Qed.

(** An area that passed [is_jd_area] has its numbers read from its
    name. *)
Lemma JDArea_init_numbered (fsl : FSL) (d : path) (a : JDArea) :
  is_jd_area (files fsl) d = true -> JDArea_init fsl d = Ok a ->
  matched (re_match re_jdarea (name d)) = true
  /\ (0 <= area_number a <= 99)%Z /\ (0 <= _end_number a <= 99)%Z.
Proof.
  unfold is_jd_area. destruct (is_dir (files fsl) d); [|discriminate].
  cbn [negb]. rewrite re_area_eq. intros T. unfold JDArea_init.
  pose proof (re_jdarea_groups (name d)) as G.
  destruct (name d) as [|x [|y [|sep [|c [|e [|sp [|e0 rest]]]]]]];
    try discriminate.
  rewrite T in G. destruct G as [m [-> [G1 G2]]].
  destruct (_get_categories fsl d); [|discriminate]. cbn [bind].
  intros H; injection H as <-. cbn [area_number _end_number fst snd].
  rewrite G1, G2. rewrite !andb_true_iff in T.
  destruct T as [[[[[[Tx Ty] _] Tc] Te] _] _].
  split; [reflexivity|]. split; apply int_two_digits; assumption.
Qed.

Lemma JDCategory_init_numbered (fsl : FSL) (d : path) (c : JDCategory) :
  is_jd_category (files fsl) d = true -> JDCategory_init fsl d = Ok c ->
  matched (re_match re_jdcategory (name d)) = true
  /\ (0 <= _number c <= 99)%Z.
Proof.
  unfold is_jd_category. destruct (is_dir (files fsl) d); [|discriminate].
  cbn [negb].
  destruct (matched (re_match re_area_prefix (name d))); [discriminate|].
  destruct (matched (re_match re_id_prefix (name d))); [discriminate|].
  rewrite re_category_eq. intros T. unfold JDCategory_init.
  pose proof (re_jdcategory_groups (name d)) as G.
  destruct (name d) as [|x [|y [|sp [|e0 rest]]]]; try discriminate.
  rewrite T in G. destruct G as [m [-> G1]].
  destruct (_get_ids fsl d); [|discriminate]. cbn [bind].
  intros H; injection H as <-. cbn [_number fst].
  rewrite G1. rewrite !andb_true_iff in T.
  destruct T as [[[Tx Ty] _] _].
  split; [reflexivity|]. apply int_two_digits; assumption.
Qed.

(** A name that passes the test of [is_jd_id] parses as an ID string. *)
Lemma id_name_parses (n : str) :
  matched (re_match re_id n) = true ->
  exists numbers, parse_jd_id_string n = Ok numbers.
Proof.
  rewrite re_id_eq, parse_jd_id_string_eq.
  destruct n as [|a [|b [|sep [|c [|d rest]]]]]; try discriminate.
  destruct (is_digit a && is_digit b && (46 =? sep)%N && is_digit c
            && is_digit d); [|discriminate].
  intros _. eexists. reflexivity.
Qed.

(** X16.  In the tree that [JDSystem] loads every area lies directly in
    the root, every category directly in its area and every ID directly
    in its category; the names of all of them matched their patterns, so
    the numbers are read from the names (the defaults 0 and 9 for names
    that do not match are never used) and lie in 0..99, and the numbers
    of an ID are those [parse_jd_id_string] gives for its name. *)
Theorem loaded_system_nested_and_numbered (fsl : FSL) (root : path)
        (jd : JDSystem) :
  JDSystem_init fsl root = Ok jd ->
  forall area, In area (areas jd) ->
    parent (area_path area) = root
    /\ matched (re_match re_jdarea (name (area_path area))) = true
    /\ (0 <= area_number area <= 99)%Z
    /\ (0 <= _end_number area <= 99)%Z
    /\ forall category, In category (categories area) ->
         parent (cat_path category) = area_path area
         /\ matched (re_match re_jdcategory (name (cat_path category)))
            = true
         /\ (0 <= _number category <= 99)%Z
         /\ forall i, In i (ids category) ->
              parent (id_path i) = cat_path category
              /\ parse_jd_id_string (name (id_path i))
                 = Ok (_cat_number i, _sequence i).
Proof.
  intros I area Ha.
  destruct (JDSystem_init_shape fsl root jd I) as [_ [entries [E [M F]]]].
  assert (Pa : In (area_path area) (List.map area_path (areas jd)))
    by (apply in_map; exact Ha).
  rewrite M in Pa. apply filter_In in Pa. destruct Pa as [Pa Ta].
  apply andb_true_iff in Ta. destruct Ta as [Ta _].
  apply (proj1 (In_sorted _ _)) in Pa.
  split; [exact (iterdir_parent _ _ _ _ E Pa)|].
  destruct (JDArea_init_numbered fsl _ area Ta (F area Ha)) as [Ma [R1 R2]].
  split; [exact Ma|]. split; [exact R1|]. split; [exact R2|].
  intros category Hc.
  destruct (JDArea_init_shape fsl _ area (F area Ha))
    as [_ [entries' [E' [M' F']]]].
  assert (Pc : In (cat_path category)
                  (List.map cat_path (categories area)))
    by (apply in_map; exact Hc).
  rewrite M' in Pc. apply filter_In in Pc. destruct Pc as [Pc Tc].
  apply andb_true_iff in Tc. destruct Tc as [Tc _].
  apply (proj1 (In_sorted _ _)) in Pc.
  split; [exact (iterdir_parent _ _ _ _ E' Pc)|].
  destruct (JDCategory_init_numbered fsl _ category Tc (F' category Hc))
    as [Mc Rc].
  split; [exact Mc|]. split; [exact Rc|].
  intros i Hi.
  destruct (JDCategory_init_shape fsl _ category (F' category Hc))
    as [_ [entries'' [E'' M'']]].
  rewrite M'' in Hi. apply in_map_iff in Hi. destruct Hi as [x [<- Hx]].
  apply filter_In in Hx. destruct Hx as [Hx Tx]. apply (proj1 (In_sorted _ _)) in Hx.
  rewrite JDID_init_path.
  split; [exact (iterdir_parent _ _ _ _ E'' Hx)|].
  assert (Mx : matched (re_match re_id (name x)) = true).
  { unfold is_jd_id, is_jd_id_file in Tx.
    destruct (is_dir (files fsl) x); cbn [negb] in Tx.
    - destruct (matched (re_match re_id (name x)));
        [reflexivity | discriminate].
    - exact Tx. }
  destruct (id_name_parses (name x) Mx) as [numbers P].
  destruct (JDID_init_eq x) as [Q _]. rewrite P in Q. rewrite Q. exact P.
Qed.

Lemma loaded_system_nested_and_numbered_witness :
  Forall (fun area =>
            parent (area_path area) = Sample.documents
            /\ matched (re_match re_jdarea (name (area_path area))) = true
            /\ (0 <= area_number area <= 99)%Z
            /\ (0 <= _end_number area <= 99)%Z)
         (areas Loaded.system).
Proof.
  apply Forall_forall. intros area H.
  destruct (loaded_system_nested_and_numbered
              (no_links (Tree.fs_of Sample.filing)) Sample.documents
              Loaded.system ltac:(vm_compute; reflexivity) area H)
    as [P [M [R1 [R2 _]]]].
  split; [exact P|]. split; [exact M|]. split; [exact R1 | exact R2].
Defined.

End LoadedTree.

(** ** api.py and completion.py *)

Section Entry.
Import Util Models Order Links Filing Api Completion.

Lemma get_jd_root_dir_is_root (fs : FS) (env : Env) (p q : path) :
  get_jd_root_dir fs env p = Some (Ok q) -> is_jd_root fs q = Ok true.
Proof.
  unfold get_jd_root_dir.
  destruct (walk_up fs env p) as [[r|e]|]; try discriminate.
  destruct (is_jd_root fs r) as [[|]|e] eqn:R; try discriminate.
  intros H; injection H as <-. exact R.
Qed.

Lemma get_system_eq (fsl : FSL) (env : Env) (p : path) :
  get_system fsl env p
  = match get_jd_root_dir (files fsl) env p with
    | None => None
    | Some (Raise e) => Some (Raise e)
    | Some (Ok root) => Some (JDSystem_init fsl root)
    end.
Proof.
  unfold get_system.
  destruct (get_jd_root_dir (files fsl) env p) as [[root|e]|] eqn:G;
    try reflexivity.
  rewrite (get_jd_root_dir_is_root _ _ _ _ G). reflexivity.
Qed.

(** X17.  [get_system] loads the directory that [get_jd_root_dir] found:
    on a filesystem that stays as it is, the root test it makes once
    more cannot fail, so its own [NotJohnnyDecimalDirectoryError] is
    never raised; a system it returns has the found root as its path. *)
Theorem get_system_loads_found_root (fsl : FSL) (env : Env) (p : path) :
  get_system fsl env p
  = match get_jd_root_dir (files fsl) env p with
    | None => None
    | Some (Raise e) => Some (Raise e)
    | Some (Ok root) => Some (JDSystem_init fsl root)
    end
  /\ forall jd, get_system fsl env p = Some (Ok jd) ->
       get_jd_root_dir (files fsl) env p = Some (Ok (sys_path jd))
       /\ is_jd_root (files fsl) (sys_path jd) = Ok true.
Proof.
  split; [apply get_system_eq|].
  intros jd. rewrite get_system_eq.
  destruct (get_jd_root_dir (files fsl) env p) as [[root|e]|] eqn:G;
    try discriminate.
  intros H. injection H as H.
  destruct (JDSystem_init_shape fsl root jd H) as [-> _].
  split; [reflexivity|]. apply (get_jd_root_dir_is_root _ _ _ _ G).
Qed.

Lemma get_system_loads_found_root_witness :
  get_jd_root_dir (Tree.fs_of Sample.filing)
                  {| home := Path "/home/alice"; cwd := Sample.alpha_81;
                     JD_AGENT_SCOPE := None; yaml_imported := true |}
                  Sample.alpha_81
  = Some (Ok (sys_path Loaded.system))
  /\ is_jd_root (Tree.fs_of Sample.filing) (sys_path Loaded.system)
     = Ok true.
Proof.
  apply (proj2 (get_system_loads_found_root
                  (no_links (Tree.fs_of Sample.filing))
                  {| home := Path "/home/alice"; cwd := Sample.alpha_81;
                     JD_AGENT_SCOPE := None; yaml_imported := true |}
                  Sample.alpha_81)).
  vm_compute. reflexivity.
Defined.

Lemma JDArea_init_range (fsl : FSL) (d : path) (a : JDArea) :
  JDArea_init fsl d = Ok a -> (0 <= area_number a <= 99)%Z.
Proof.
  unfold JDArea_init. pose proof (re_jdarea_groups (name d)) as G.
  destruct (_get_categories fsl d); [|discriminate]. cbn [bind].
  intros H; injection H as <-. cbn [area_number fst].
  destruct (name d) as [|x [|y [|sep [|c [|e [|sp [|e0 rest]]]]]]];
    try (rewrite G; simpl; lia).
  destruct (is_digit x) eqn:Dx; [|rewrite G; simpl; lia].
  destruct (is_digit y) eqn:Dy; [|rewrite G; simpl; lia].
  destruct (_ && _).
  - destruct G as [m [-> [G1 _]]]. cbn [fst]. rewrite G1.
    apply int_two_digits; assumption.
  - rewrite G. simpl. lia.
Qed.

Lemma startswith_longer (a b prefix : str) :
  startswith a prefix = true -> startswith (a ++ b) prefix = true.
Proof.
  rewrite !startswith_app. intros [rest ->]. exists (rest ++ b).
  rewrite app_assoc. reflexivity.
Qed.

(** The first digit of a number of 0..99, as [str] prints it, begins its
    two-digit form. *)
Lemma tens_begin_format (n : Z) :
  (0 <= n <= 99)%Z ->
  format_02d n = str_of_int (n / 10) ++ [Z.to_N (48 + n mod 10)].
Proof.
  intros H.
  assert (A : forallb
                (fun i => str_eqb (format_02d i)
                            (str_of_int (i / 10)
                             ++ [Z.to_N (48 + i mod 10)]))
                (Models.range 0 100) = true) by (vm_compute; reflexivity).
  rewrite forallb_forall in A. apply str_eqb_eq, A, In_range. lia.
Qed.

Lemma complete_area_extends (incomplete : str) (area : JDArea)
      (item : CompletionItem) :
  (0 <= area_number area <= 99)%Z ->
  In item (complete_area incomplete area) ->
  startswith (item_value item) incomplete = true.
Proof.
  intros R. unfold complete_area. rewrite in_app_iff. intros [H|H].
  - destruct (str_eqb incomplete [] || startswith _ incomplete) eqn:T;
      [|destruct H].
    destruct (length incomplete <=? 1)%nat; [|destruct H].
    destruct H as [<-|[]]. cbn [item_value].
    apply orb_true_iff in T. destruct T as [T|T].
    + apply str_eqb_eq in T. subst. destruct (format_02d _); reflexivity.
    + rewrite (tens_begin_format _ R). apply startswith_longer, T.
  - apply in_flat_map in H. destruct H as [category [_ H]].
    unfold complete_category in H. rewrite in_app_iff in H.
    destruct H as [H|H].
    + destruct (startswith _ incomplete || str_eqb incomplete []) eqn:T;
        [|destruct H].
      destruct H as [<-|[]]. cbn [item_value].
      apply orb_true_iff in T. destruct T as [T|T]; [exact T|].
      apply str_eqb_eq in T. subst. destruct (format_02d _); reflexivity.
    + apply in_flat_map in H. destruct H as [i [_ H]].
      unfold complete_id in H.
      destruct (startswith (id_str i) incomplete) eqn:T; [|destruct H].
      destruct H as [<-|[]]. exact T.
Qed.

(** X18.  Every completion offered begins with the text typed so far, and
    every ID of the loaded system whose dotted string begins with that
    text is offered. *)
Theorem completions_extend_input (fsl : FSL) (env : Env) (incomplete : str)
        (items : list CompletionItem) :
  get_jd_completions fsl env incomplete = Some items ->
  (forall item, In item items ->
     startswith (item_value item) incomplete = true)
  /\ (forall jd area category i,
        get_system fsl env (child (home env) (lit "Documents"))
        = Some (Ok jd) ->
        In area (areas jd) -> In category (categories area) ->
        In i (ids category) ->
        startswith (id_str i) incomplete = true ->
        exists item, In item items /\ item_value item = id_str i).
Proof.
  unfold get_jd_completions.
  destruct (get_system fsl env _) as [[jd|e]|] eqn:G; try discriminate.
  - intros H; injection H as <-. split.
    + intros item H. apply in_flat_map in H. destruct H as [area [Ha H]].
      apply (complete_area_extends incomplete area item); [|exact H].
      rewrite get_system_eq in G.
      destruct (get_jd_root_dir _ _ _) as [[root|e]|]; try discriminate.
      injection G as G.
      destruct (JDSystem_init_shape fsl root jd G) as [_ [_ [_ [_ F]]]].
      apply (JDArea_init_range fsl _ area (F area Ha)).
    + intros jd' area category i E Ha Hc Hi T. injection E as <-.
      exists {| item_value := id_str i;
                item_help := cat_name category ++ lit " > "
                             ++ (if truthy (VStr (_name i)) then _name i
                                 else lit "(meta)") |}.
      split; [|reflexivity].
      apply in_flat_map. exists area. split; [exact Ha|].
      unfold complete_area. apply in_or_app. right.
      apply in_flat_map. exists category. split; [exact Hc|].
      unfold complete_category. apply in_or_app. right.
      apply in_flat_map. exists i. split; [exact Hi|].
      unfold complete_id. rewrite T. left. reflexivity.
  - intros H; injection H as <-. split; [intros item []|].
    intros jd area category i E. discriminate.
Qed.

Lemma completions_extend_input_witness :
  Forall (fun item => startswith (item_value item) (lit "26.") = true)
         (flat_map (complete_area (lit "26.")) (areas Loaded.system)).
Proof.
  apply Forall_forall.
  apply (proj1 (completions_extend_input
                  (no_links (Tree.fs_of Sample.filing))
                  {| home := Path "/home/alice"; cwd := Sample.alpha_81;
                     JD_AGENT_SCOPE := None; yaml_imported := true |}
                  (lit "26.")
                  (flat_map (complete_area (lit "26."))
                            (areas Loaded.system))
                  ltac:(vm_compute; reflexivity))).
Defined.

End Entry.

(** ** policy.py: laws of the merge *)

Section MergeLaws.
Import Policy Yaml.

Lemma well_keyed_dict (d : dict) :
  well_keyed (VDict d)
  <-> NoDup (List.map fst d)
      /\ forall k x, In (k, x) d -> well_keyed x.
Proof.
  cbn [well_keyed]. apply and_iff_compat_l.
  induction d as [|[k x] d IH].
  - split; [intros _ k x [] | intros _; exact I].
  - rewrite IH. split.
    + intros [Hx H] k' x' [E|Hin]; [injection E as <- <-; exact Hx|].
      apply (H k' x' Hin).
    + intros H. split; [apply (H k x); left; reflexivity|].
      intros k' x' Hin. apply (H k' x'). right. exact Hin.
Qed.

(** Induction on a value through the mappings it holds. *)
Lemma value_dict_ind (P : value -> Prop) :
  (forall v, is_dict v = false -> P v) ->
  (forall d, (forall k x, In (k, x) d -> P x) -> P (VDict d)) ->
  forall v, P v.
Proof.
  intros Hs Hd. fix IH 1. intros [| | | | |d]; try (apply Hs; reflexivity).
  apply Hd. revert d. fix IHd 1. intros [|[k x] d] k' x' Hin.
  - destruct Hin.
  - destruct Hin as [E|Hin].
    + injection E as <- <-. apply IH.
    + apply (IHd d k' x' Hin).
Qed.

Lemma dict_has_set (k k' : key) (v : value) (d : dict) :
  dict_has k' (dict_set k v d) = dict_has k' d || key_eqb k' k.
Proof.
  unfold dict_has. destruct (key_eqb k' k) eqn:E.
  - apply key_eqb_eq in E. subst k'. rewrite dict_get_set_same.
    rewrite orb_true_r. reflexivity.
  - rewrite dict_get_set_other by exact E. rewrite orb_false_r. reflexivity.
Qed.

Lemma dict_set_keys (k : key) (v : value) (d : dict) :
  List.map fst (dict_set k v d)
  = if dict_has k d then List.map fst d else List.map fst d ++ [k].
Proof.
  unfold dict_has. induction d as [|[k' v'] d IH]; simpl; [reflexivity|].
  destruct (key_eqb k k') eqn:E.
  - apply key_eqb_eq in E. subst k'. reflexivity.
  - simpl. rewrite IH. destruct (dict_get k d); reflexivity.
Qed.

Lemma merge_item_keys (base : dict) (k : key) (v : value) :
  List.map fst (merge_item base k v)
  = if dict_has k base then List.map fst base else List.map fst base ++ [k].
Proof.
  unfold merge_item.
  destruct (dict_get k base) as [[| | | | |sub]|] eqn:G;
    try apply dict_set_keys.
  destruct v; apply dict_set_keys.
Qed.

Lemma merge_item_has (base : dict) (k k' : key) (v : value) :
  dict_has k' (merge_item base k v) = dict_has k' base || key_eqb k' k.
Proof.
  unfold merge_item.
  destruct (dict_get k base) as [[| | | | |sub]|] eqn:G;
    try apply dict_has_set.
  destruct v; apply dict_has_set.
Qed.

Lemma merged_keys (override base : dict) :
  NoDup (List.map fst override) ->
  List.map fst (deep_merge base override)
  = List.map fst base
    ++ filter (fun k => negb (dict_has k base)) (List.map fst override).
Proof.
  revert base. induction override as [|[k v] rest IH]; intros base U.
  - simpl. rewrite app_nil_r. reflexivity.
  - rewrite deep_merge_cons. simpl in U. inversion U as [|? ? N U']; subst.
    rewrite (IH _ U'), merge_item_keys. cbn [map fst filter].
    assert (F : filter (fun k' => negb (dict_has k' (merge_item base k v)))
                       (List.map fst rest)
                = filter (fun k' => negb (dict_has k' base))
                         (List.map fst rest)).
    { apply filter_ext_in. intros k' Hk'. rewrite merge_item_has.
      destruct (key_eqb k' k) eqn:E; [|rewrite orb_false_r; reflexivity].
      apply key_eqb_eq in E. subst k'. contradiction. }
    rewrite F. destruct (dict_has k base); cbn [negb].
    + reflexivity.
    + rewrite <- app_assoc. reflexivity.
Qed.

Lemma dict_has_In (k : key) (d : dict) :
  dict_has k d = true <-> In k (List.map fst d).
Proof.
  unfold dict_has. induction d as [|[k' v'] d IH]; simpl.
  - split; [discriminate | intros []].
  - destruct (key_eqb k k') eqn:E.
    + apply key_eqb_eq in E. subst k'. split; auto.
    + rewrite IH. apply key_eqb_neq in E. split; [auto|].
      intros [H|H]; [congruence | exact H].
Qed.

(** X19.  A merge keeps the keys of the base in their places and puts
    the keys that only the override has after them, in the override's
    order; it removes no key, and when both mappings have each key once
    so has the result. *)
Theorem deep_merge_keys (base override : dict) :
  NoDup (List.map fst override) ->
  List.map fst (deep_merge base override)
  = List.map fst base
    ++ filter (fun k => negb (dict_has k base)) (List.map fst override)
  /\ (forall k, dict_has k (deep_merge base override)
                = dict_has k base || dict_has k override)
  /\ (NoDup (List.map fst base) ->
      NoDup (List.map fst (deep_merge base override))).
Proof.
  intros U. pose proof (merged_keys override base U) as K.
  split; [exact K|]. split.
  - intros k. unfold dict_has at 1.
    rewrite (deep_merge_get override base k U). unfold dict_has.
    destruct (dict_get k override) as [v|].
    + rewrite orb_true_r.
      destruct (dict_get k base) as [[| | | | |sub]|]; try reflexivity.
      destruct v; reflexivity.
    + rewrite orb_false_r. reflexivity.
  - intros B. rewrite K. apply NoDup_app.
    + exact B.
    + apply NoDup_filter. exact U.
    + intros k Hb Hf. apply filter_In in Hf. destruct Hf as [_ Hf].
      apply dict_has_In in Hb. rewrite Hb in Hf. discriminate.
Qed.

Lemma deep_merge_keys_witness :
  List.map fst (deep_merge DEFAULTS
                           [(KStr (lit "archive"), VBool true);
                            (KStr (lit "ignore"), VList [])])
  = List.map fst DEFAULTS
    ++ filter (fun k => negb (dict_has k DEFAULTS))
              (List.map fst [(KStr (lit "archive"), VBool true);
                             (KStr (lit "ignore"), VList [])]).
Proof.
  apply (deep_merge_keys DEFAULTS
           [(KStr (lit "archive"), VBool true);
            (KStr (lit "ignore"), VList [])]).
  repeat constructor; simpl; intuition discriminate.
Defined.

Lemma dict_set_present (k : key) (v : value) (d : dict) :
  dict_get k d = Some v -> dict_set k v d = d.
Proof.
  induction d as [|[k' v'] d IH]; simpl; [discriminate|].
  destruct (key_eqb k k') eqn:E.
  - apply key_eqb_eq in E. subst k'. intros H; injection H as ->.
    reflexivity.
  - intros H. rewrite (IH H). reflexivity.
Qed.

(** Items that change nothing leave the mapping as it is. *)
Lemma deep_merge_fixed (R items : dict) :
  (forall k v, In (k, v) items -> merge_item R k v = R) ->
  deep_merge R items = R.
Proof.
  induction items as [|[k v] items IH]; intros H; [reflexivity|].
  rewrite deep_merge_cons, (H k v) by (left; reflexivity).
  apply IH. intros k' v' Hin. apply H. right. exact Hin.
Qed.

Lemma dict_get_In (k : key) (v : value) (d : dict) :
  NoDup (List.map fst d) -> In (k, v) d -> dict_get k d = Some v.
Proof.
  induction d as [|[k' v'] d IH]; simpl; intros U H; [destruct H|].
  inversion U as [|? ? N U']; subst. destruct H as [E|H].
  - injection E as -> ->. rewrite key_eqb_refl. reflexivity.
  - destruct (key_eqb k k') eqn:E.
    + apply key_eqb_eq in E. subst k'. exfalso. apply N.
      apply in_map_iff. exists (k, v). split; [reflexivity | exact H].
    + apply IH; assumption.
Qed.

Lemma deep_merge_onto_nothing (o : dict) :
  NoDup (List.map fst o) -> deep_merge [] o = o.
Proof.
  intros U.
  assert (G : forall base, NoDup (List.map fst (base ++ o)) ->
                           deep_merge base o = base ++ o).
  { clear U. induction o as [|[k v] o IH]; intros base U.
    - simpl. rewrite app_nil_r. reflexivity.
    - rewrite deep_merge_cons.
      assert (A : dict_get k base = None).
      { apply dict_get_absent. rewrite map_app in U. simpl in U.
        apply NoDup_remove_2 in U. intros H. apply U.
        apply in_or_app. left. exact H. }
      assert (S : forall x, dict_set k x base = base ++ [(k, x)]).
      { intros x. clear U IH. induction base as [|[k' v'] base IHb];
          simpl; [reflexivity|].
        simpl in A. destruct (key_eqb k k'); [discriminate|].
        rewrite (IHb A). reflexivity. }
      unfold merge_item. rewrite A, S.
      rewrite IH; rewrite <- app_assoc; [reflexivity | exact U]. }
  apply (G [] U).
Qed.

Lemma deep_merge_twice (o : value) :
  well_keyed o ->
  forall d, o = VDict d ->
  forall base, deep_merge (deep_merge base d) d = deep_merge base d.
Proof.
  induction o as [v Hv | d0 IH] using value_dict_ind.
  - intros _ d ->. discriminate.
  - intros W d E base. injection E as <-.
    apply well_keyed_dict in W. destruct W as [U W].
    apply deep_merge_fixed. intros k v Hin.
    pose proof (deep_merge_get d0 base k U) as G.
    rewrite (dict_get_In k v d0 U Hin) in G.
    unfold merge_item.
    destruct v as [| | | | |o'];
      try (destruct (dict_get k base) as [[| | | | |sub]|];
           rewrite G; apply dict_set_present; exact G).
    pose proof (IH k (VDict o') Hin (W k _ Hin) o' eq_refl) as Twice.
    assert (Self : deep_merge o' o' = o').
    { pose proof (deep_merge_onto_nothing o'
                    (proj1 (proj1 (well_keyed_dict o') (W k _ Hin)))) as E.
      rewrite <- E at 1. rewrite Twice. exact E. }
    destruct (dict_get k base) as [[| | | | |sub]|]; rewrite G;
      rewrite ?Self, ?Twice; apply dict_set_present; exact G.
Qed.

(** X20.  For an override with each key once at every level: merging it
    a second time changes nothing, merging it onto the empty mapping
    gives the override itself, and so does merging it onto itself. *)
Theorem deep_merge_idempotent (base override : dict) :
  well_keyed (VDict override) ->
  deep_merge (deep_merge base override) override = deep_merge base override
  /\ deep_merge [] override = override
  /\ deep_merge override override = override.
Proof.
  intros W.
  pose proof (deep_merge_twice (VDict override) W override eq_refl) as T.
  pose proof (deep_merge_onto_nothing override
                (proj1 (proj1 (well_keyed_dict override) W))) as E.
  split; [apply T|]. split; [exact E|].
  rewrite <- E at 1. rewrite T. exact E.
Qed.

Lemma deep_merge_idempotent_witness :
  deep_merge
    (deep_merge DEFAULTS
       [(KStr (lit "conventions"),
         VDict [(KStr (lit "naming"),
                VDict [(KStr (lit "case"), VStr (lit "title"))])])])
    [(KStr (lit "conventions"),
      VDict [(KStr (lit "naming"),
                VDict [(KStr (lit "case"), VStr (lit "title"))])])]
  = deep_merge DEFAULTS
      [(KStr (lit "conventions"),
        VDict [(KStr (lit "naming"),
                VDict [(KStr (lit "case"), VStr (lit "title"))])])].
Proof.
  apply (deep_merge_idempotent DEFAULTS
           [(KStr (lit "conventions"),
             VDict [(KStr (lit "naming"),
                     VDict [(KStr (lit "case"), VStr (lit "title"))])])]).
  simpl. repeat split; repeat constructor; simpl; tauto.
Defined.

End MergeLaws.

(** ** policy.py: reading a convention *)

Section Conventions.
Import Policy.

Lemma contains_char (s : str) (x : N) :
  contains s [x] = existsb (fun c => (c =? x)%N) s.
Proof.
  induction s as [|c s IH]; simpl; [reflexivity|].
  rewrite andb_true_r, IH. reflexivity.
Qed.

Lemma split_plain (sep : N) (s : str) :
  existsb (fun c => (c =? sep)%N) s = false -> split sep s = [s].
Proof.
  induction s as [|c s IH]; simpl; [reflexivity|].
  intros H. apply orb_false_iff in H. destruct H as [Hc Hs].
  rewrite Hc, (IH Hs). reflexivity.
Qed.

Lemma split_at (sep : N) (a rest : str) :
  existsb (fun c => (c =? sep)%N) a = false ->
  split sep (a ++ sep :: rest) = a :: split sep rest.
Proof.
  induction a as [|c a IH]; simpl.
  - intros _. rewrite N.eqb_refl. reflexivity.
  - intros H. apply orb_false_iff in H. destruct H as [Hc Ha].
    rewrite Hc, (IH Ha). reflexivity.
Qed.

(** X21.  A key [a.b] is looked up in the mapping that [conventions]
    holds under [a]; the default is returned when [conventions] or the
    value under [a] is no mapping, when [b] is missing, and when the
    value found is null.  A key without dot is looked up directly: a
    null found is returned as it is, and a [conventions] that is no
    mapping raises [AttributeError]. *)
Theorem get_convention_lookup (policy : dict) (a b : str) (default : value) :
  existsb (fun c => (c =? 46)%N) a = false ->
  existsb (fun c => (c =? 46)%N) b = false ->
  get_convention policy (a ++ lit "." ++ b) default
  = Ok (match dict_get (KStr (lit "conventions")) policy with
        | Some (VDict c) =>
            match dict_get (KStr a) c with
            | Some (VDict d) =>
                match dict_get (KStr b) d with
                | Some VNone | None => default
                | Some v => v
                end
            | _ => default
            end
        | _ => default
        end)
  /\ get_convention policy a default
     = match dict_get (KStr (lit "conventions")) policy with
       | Some (VDict c) =>
           Ok (match dict_get (KStr a) c with
               | Some v => v
               | None => default
               end)
       | Some _ => Raise AttributeError
       | None => Ok default
       end.
Proof.
  intros Ha Hb. unfold get_convention.
  change (lit ".") with [46%N]. cbn [app]. split.
  - rewrite contains_char.
    assert (E : existsb (fun c => (c =? 46)%N) (a ++ 46%N :: b) = true).
    { rewrite existsb_app. apply orb_true_iff. right. reflexivity. }
    rewrite E.
    rewrite (split_at 46 a b Ha), (split_plain 46 b Hb). f_equal.
    destruct (dict_get (KStr (lit "conventions")) policy)
      as [[| | | | |c]|]; try reflexivity.
    cbn [descend].
    destruct (dict_get (KStr a) c) as [[| | | | |d]|]; try reflexivity.
    destruct (dict_get (KStr b) d) as [[| | | | |x]|]; reflexivity.
  - rewrite contains_char, Ha.
    destruct (dict_get (KStr (lit "conventions")) policy)
      as [[| | | | |c]|]; reflexivity.
Qed.

Lemma get_convention_lookup_witness :
  get_convention DEFAULTS (lit "naming" ++ lit "." ++ lit "separator")
                 VNone
  = Ok (VStr (lit "-")).
Proof.
  apply (proj1 (get_convention_lookup DEFAULTS (lit "naming")
                  (lit "separator") VNone eq_refl eq_refl)).
Defined.

End Conventions.

(** ** policy.py: the meta directory *)

Section MetaDirectory.
Import Policy.

Lemma meta_name_matches (a b : N) :
  is_digit a = true -> is_digit b = true ->
  matched (re_match re_meta ([a; b] ++ lit ".00")) = true.
Proof.
  intros Ha Hb. rewrite re_meta_eq. cbn [app lit]. simpl.
  rewrite Ha, Hb. reflexivity.
Qed.

Lemma find_meta_dir_of_meta (fs : FS) (m : path) :
  matched (re_match re_meta (name m)) = true ->
  find_meta_dir fs m = Ok (Some m).
Proof. intros H. unfold find_meta_dir. rewrite H. reflexivity. Qed.

Lemma scan_categories_found (fs : FS) (cats : list path) (meta : path) :
  scan_categories fs cats = Some meta ->
  name meta = lit "00.00" /\ path_exists fs meta = true.
Proof.
  induction cats as [|c cats IH]; cbn [scan_categories]; [discriminate|].
  destruct (is_dir fs c && startswith (name c) (lit "00 ")); [|exact IH].
  destruct (path_exists fs (child c (lit "00.00"))) eqn:E; [|exact IH].
  intros H; injection H as <-. split; [reflexivity | exact E].
Qed.

Lemma scan_areas_found (fs : FS) (areas : list path) (meta : path) :
  scan_areas fs areas = Ok (Some meta) ->
  name meta = lit "00.00" /\ path_exists fs meta = true.
Proof.
  induction areas as [|a areas IH]; cbn [scan_areas]; [discriminate|].
  destruct (is_dir fs a && matched (re_match re_area_00 (name a)));
    [|exact IH].
  destruct (iterdir fs a) as [cats|e]; [|discriminate]. cbn [bind].
  destruct (scan_categories fs cats) as [m|] eqn:S; [|exact IH].
  intros H; injection H as <-. apply (scan_categories_found fs cats m S).
Qed.

(** X22.  A directory that [find_meta_dir] returns is named as a meta
    directory (two digits and [.00]); it is the given path itself or it
    exists; and it is its own meta directory. *)
Theorem find_meta_dir_names_meta (fs : FS) (p meta : path) :
  find_meta_dir fs p = Ok (Some meta) ->
  matched (re_match re_meta (name meta)) = true
  /\ (meta = p \/ path_exists fs meta = true)
  /\ find_meta_dir fs meta = Ok (Some meta).
Proof.
  intros H.
  assert (G : matched (re_match re_meta (name meta)) = true
              /\ (meta = p \/ path_exists fs meta = true)).
  { revert H. unfold find_meta_dir.
    destruct (matched (re_match re_meta (name p))) eqn:M.
    { intros H; injection H as <-. split; [exact M | left; reflexivity]. }
    rewrite re_id_num_eq, re_cat_num_eq, re_area_num_eq.
    assert (Found : forall a b d,
              is_digit a = true -> is_digit b = true ->
              (if path_exists fs (child d ([a; b] ++ lit ".00"))
               then Ok (Some (child d ([a; b] ++ lit ".00")))
               else Ok None) = Ok (Some meta) ->
              matched (re_match re_meta (name meta)) = true
              /\ (meta = p \/ path_exists fs meta = true)).
    { intros a b d Ha Hb.
      destruct (path_exists fs (child d ([a; b] ++ lit ".00"))) eqn:E;
        [|discriminate].
      intros H; injection H as <-.
      split; [apply meta_name_matches; assumption | right; exact E]. }
    assert (Root : (areas <- iterdir fs p ;; scan_areas fs areas)%res
                   = Ok (Some meta) ->
                   matched (re_match re_meta (name meta)) = true
                   /\ (meta = p \/ path_exists fs meta = true)).
    { destruct (iterdir fs p) as [areas|e]; [|discriminate]. cbn [bind].
      intros S. apply scan_areas_found in S. destruct S as [N E].
      split; [rewrite N; reflexivity | right; exact E]. }
    destruct (name p) as [|a [|b [|c3 rest]]]; try exact Root.
    destruct (is_digit a) eqn:Da;
      [|cbn [andb]; destruct rest as [|? [|? [|? ?]]]; exact Root].
    destruct (is_digit b) eqn:Db;
      [|cbn [andb]; destruct rest as [|? [|? [|? ?]]]; exact Root].
    cbn [andb].
    destruct (32 =? c3)%N eqn:E32.
    { (* a category *)
      apply N.eqb_eq in E32. subst c3.
      destruct rest as [|? [|? ?]];
        apply (Found a b p Da Db). }
    destruct rest as [|c [|d rest]]; try exact Root.
    destruct ((46 =? c3)%N && is_digit c && is_digit d) eqn:Eid.
    { apply (Found a b (parent p) Da Db). }
    destruct rest as [|sp rest]; [exact Root|].
    destruct (((c3 =? 45)%N || (c3 =? 8211)%N) && is_digit c
              && is_digit d && (32 =? sp)%N); [|exact Root].
    destruct (iterdir fs p) as [children|e]; [|discriminate]. cbn [bind].
    destruct (find _ children) as [x|]; [|discriminate].
    change ([a] ++ lit "0") with [a; 48%N].
    apply (Found a 48%N x Da eq_refl). }
  destruct G as [G1 G2]. split; [exact G1|]. split; [exact G2|].
  apply find_meta_dir_of_meta. exact G1.
Qed.

Lemma find_meta_dir_names_meta_witness :
  matched (re_match re_meta
             (name (child Sample.meta_work (lit "80.00")))) = true
  /\ (child Sample.meta_work (lit "80.00") = Sample.unsorted_80
      \/ path_exists (Tree.fs_of Sample.filing)
                     (child Sample.meta_work (lit "80.00")) = true)
  /\ find_meta_dir (Tree.fs_of Sample.filing)
                   (child Sample.meta_work (lit "80.00"))
     = Ok (Some (child Sample.meta_work (lit "80.00"))).
Proof.
  apply (find_meta_dir_names_meta (Tree.fs_of Sample.filing)
           Sample.unsorted_80 (child Sample.meta_work (lit "80.00"))).
  vm_compute. reflexivity.
Defined.

End MetaDirectory.

(** ** policy.py: which directories share a policy file *)

Section SharedMeta.
Import Policy.

(** X23.  A category named with two digits and a space has the
    directory [NN.00] inside it as meta directory when that exists, and
    every ID in it whose name begins with the same two digits has the
    same meta directory and so loads the same policy file. *)
Theorem id_shares_meta_of_category (fs : FS) (category : path)
        (a b x y : N) (rest tail : str) :
  is_digit a = true -> is_digit b = true ->
  is_digit x = true -> is_digit y = true ->
  name category = (a :: b :: 32 :: rest)%N ->
  matched (re_match re_meta (a :: b :: 46 :: x :: y :: tail)%N) = false ->
  find_meta_dir fs category
  = (if path_exists fs (child category ([a; b] ++ lit ".00"))
     then Ok (Some (child category ([a; b] ++ lit ".00")))
     else Ok None)
  /\ find_meta_dir fs
       (child category (a :: b :: 46 :: x :: y :: tail)%N)
     = find_meta_dir fs category
  /\ load_policy_file fs
       (child category (a :: b :: 46 :: x :: y :: tail)%N)
     = load_policy_file fs category.
Proof.
  intros Ha Hb Hx Hy E M.
  assert (C : find_meta_dir fs category
              = (if path_exists fs (child category ([a; b] ++ lit ".00"))
                 then Ok (Some (child category ([a; b] ++ lit ".00")))
                 else Ok None)).
  { unfold find_meta_dir.
    rewrite re_meta_eq, re_id_num_eq, re_cat_num_eq, E, Ha, Hb.
    destruct rest as [|r1 [|r2 rest]]; reflexivity. }
  assert (I : find_meta_dir fs
                (child category (a :: b :: 46 :: x :: y :: tail)%N)
              = find_meta_dir fs category).
  { rewrite C. unfold find_meta_dir.
    cbn [name child]. rewrite M, re_id_num_eq, Ha, Hb, Hx, Hy.
    reflexivity. }
  split; [exact C|]. split; [exact I|].
  unfold load_policy_file. rewrite I. reflexivity.
Qed.

Lemma id_shares_meta_of_category_witness :
  find_meta_dir (Tree.fs_of Sample.filing) Sample.meta_work
  = Ok (Some (child Sample.meta_work (lit "80.00")))
  /\ find_meta_dir (Tree.fs_of Sample.filing) Sample.unsorted_80
     = find_meta_dir (Tree.fs_of Sample.filing) Sample.meta_work
  /\ load_policy_file (Tree.fs_of Sample.filing) Sample.unsorted_80
     = load_policy_file (Tree.fs_of Sample.filing) Sample.meta_work.
Proof.
  apply (id_shares_meta_of_category (Tree.fs_of Sample.filing)
           Sample.meta_work 56 48 48 49 (lit "Meta - Work")
           (lit " Unsorted")); reflexivity.
Defined.

End SharedMeta.

(** ** policy.py: the chain of directories *)

Section Chain.
Import Policy Cond.

Lemma path_eqb_neq_resolve (fs : FS) (root d : path) :
  path_eqb (resolve fs d) (resolve fs root) = false ->
  path_eqb root d = false.
Proof.
  intros H. destruct (path_eqb root d) eqn:E; [|reflexivity].
  apply path_eqb_eq in E. subst d. rewrite path_eqb_refl in H.
  discriminate.
Qed.

Lemma existsb_root_absent (root : path) (l : list path) :
  (forall d, In d l -> path_eqb root d = false) ->
  existsb (path_eqb root) l = false.
Proof.
  induction l as [|x l IH]; intros H; simpl; [reflexivity|].
  rewrite (H x (or_introl eq_refl)). apply IH.
  intros d Hd. apply H. right. exact Hd.
Qed.

Lemma walk_chain_shape (fs : FS) (root current : path) (pre : list path) :
  (forall d, In d pre -> path_eqb root d = false) ->
  exists k,
    (k <= length current)%nat
    /\ walk_chain fs (resolve fs root) root current pre
       = pre ++ List.map (fun j => skipn j current) (seq 0 (S k))
         ++ (if path_eqb (resolve fs (skipn k current)) (resolve fs root)
             then [] else [root])
    /\ (forall j, (j < k)%nat ->
          path_eqb (resolve fs (skipn j current)) (resolve fs root) = false)
    /\ (path_eqb (resolve fs (skipn k current)) (resolve fs root) = true
        \/ k = length current).
Proof.
  revert pre. induction current as [|n up IH]; intros pre P.
  - exists 0%nat. split; [apply Nat.le_refl|]. cbn [walk_chain skipn seq map].
    destruct (path_eqb (resolve fs []) (resolve fs root)) eqn:T.
    + split; [reflexivity|]. split; [intros j Hj; lia | left; reflexivity].
    + rewrite existsb_root_absent.
      * rewrite <- app_assoc. split; [reflexivity|].
        split; [intros j Hj; lia | right; reflexivity].
      * intros d Hd. apply in_app_or in Hd. destruct Hd as [Hd|[<-|[]]].
        -- apply P, Hd.
        -- apply (path_eqb_neq_resolve fs root [] T).
  - cbn [walk_chain].
    destruct (path_eqb (resolve fs (n :: up)) (resolve fs root)) eqn:T.
    + exists 0%nat. split; [apply Nat.le_0_l|]. cbn [skipn seq map].
      rewrite T. split; [reflexivity|].
      split; [intros j Hj; lia | left; reflexivity].
    + destruct (IH (pre ++ [n :: up])) as [k [Lk [E [Before Last]]]].
      { intros d Hd. apply in_app_or in Hd. destruct Hd as [Hd|[<-|[]]].
        - apply P, Hd.
        - apply (path_eqb_neq_resolve fs root _ T). }
      exists (S k). split; [simpl; lia|]. split; [|split].
      * etransitivity; [exact E|]. rewrite <- app_assoc. f_equal.
        change (seq 0 (S (S k))) with (0%nat :: seq 1 (S k)).
        rewrite <- (seq_shift (S k) 0). cbn [map].
        rewrite map_map. reflexivity.
      * intros [|j] Hj; [exact T|]. apply Before. lia.
      * destruct Last as [Last|Last]; [left; exact Last|].
        right. simpl. rewrite Last. reflexivity.
Qed.

(** X24.  The chain of [resolve_policy] starts at the path and goes from
    parent to parent up to the first directory that resolves to where
    the root resolves; when there is none it goes up to the filesystem
    root and the root is added after it.  So the chain begins with the
    path, and its last directory, the first to be applied, resolves to
    where the root resolves. *)
Theorem chain_runs_from_path_to_root (fs : FS) (p root : path) :
  exists k,
    (k <= length p)%nat
    /\ chain_of fs p root
       = List.map (fun j => skipn j p) (seq 0 (S k))
         ++ (if path_eqb (resolve fs (skipn k p)) (resolve fs root)
             then [] else [root])
    /\ (forall j, (j < k)%nat -> resolve fs (skipn j p) <> resolve fs root)
    /\ (resolve fs (skipn k p) = resolve fs root \/ k = length p)
    /\ hd_error (chain_of fs p root) = Some p
    /\ exists first,
         hd_error (rev (chain_of fs p root)) = Some first
         /\ resolve fs first = resolve fs root.
Proof.
  destruct (walk_chain_shape fs root p []) as [k [Lk [E [Before Last]]]];
    [intros d []|].
  exists k. unfold chain_of. rewrite E. cbn [app].
  split; [exact Lk|]. split; [reflexivity|]. split; [|split; [|split]].
  - intros j Hj H. specialize (Before j Hj). rewrite H, path_eqb_refl in Before.
    discriminate.
  - destruct Last as [Last|Last]; [left; apply path_eqb_eq, Last|].
    right. exact Last.
  - reflexivity.
  - destruct (path_eqb (resolve fs (skipn k p)) (resolve fs root)) eqn:T.
    + exists (skipn k p). rewrite app_nil_r. split; [|apply path_eqb_eq, T].
      rewrite seq_S, map_app, rev_app_distr. reflexivity.
    + exists root. split; [|reflexivity].
      rewrite rev_app_distr. reflexivity.
Qed.

Lemma apply_chain_fails (fs : FS) (t : str) (chain : list path)
      (dir : path) (D : value) :
  In dir chain ->
  load_policy_file fs dir = Ok (Some D) ->
  truthy D = true -> is_dict D = false ->
  forall eff, exists e, apply_chain fs t chain eff = Raise e.
Proof.
  intros Hin L T N. induction chain as [|x chain IH]; [destruct Hin|].
  intros eff. cbn [apply_chain]. destruct Hin as [->|Hin].
  - exists AttributeError. unfold apply_level. rewrite L. cbn [bind].
    rewrite T. destruct D; try discriminate; reflexivity.
  - destruct (apply_level fs t eff x) as [eff'|e]; cbn [bind].
    + apply (IH Hin).
    + exists e. reflexivity.
Qed.

(** X25.  When no directory of the chain has a policy file the resolved
    policy is [DEFAULTS].  When the policy file of some directory of the
    chain loads as something that is not a mapping and not empty, such
    as a list, [resolve_policy] raises. *)
Theorem resolve_policy_without_mappings (fs : FS) (p root : path) :
  ((forall dir, In dir (chain_of fs p root) ->
      load_policy_file fs dir = Ok None) ->
   resolve_policy fs p root = Ok DEFAULTS)
  /\ (forall dir D,
        In dir (chain_of fs p root) ->
        load_policy_file fs dir = Ok (Some D) ->
        truthy D = true -> is_dict D = false ->
        exists e, resolve_policy fs p root = Raise e).
Proof.
  split.
  - intros H. unfold resolve_policy. apply apply_chain_absent.
    intros dir Hd. apply H. apply in_rev in Hd. exact Hd.
  - intros dir D Hd L T N. unfold resolve_policy.
    apply (apply_chain_fails fs _ _ dir D); try assumption.
    apply in_rev in Hd. exact Hd.
Qed.

Lemma resolve_policy_without_mappings_witness :
  resolve_policy (Tree.fs_of Sample.shared)
                 (Path "/srv/filing/10-19 Admin") (Path "/srv/filing")
  = Ok DEFAULTS.
Proof.
  apply (proj1 (resolve_policy_without_mappings
                  (Tree.fs_of Sample.shared)
                  (Path "/srv/filing/10-19 Admin") (Path "/srv/filing"))).
  intros dir H. vm_compute in H.
  destruct H as [<-|[<-|[]]]; vm_compute; reflexivity.
Defined.

End Chain.

(** ** scope.py: what a scope admits *)

Section ScopePatterns.
Import Scope.

Lemma re_range_eq (p : str) :
  re_match re_range p
  = match p with
    | a :: b :: h :: c :: d :: tail =>
        if is_digit a && is_digit b && (45 =? h)%N && is_digit c
           && is_digit d && at_end tail
        then Some [(2%nat, [c; d]); (1%nat, [a; b])] else None
    | _ => None
    end.
Proof. destruct p as [|a [|b [|h [|c [|d tail]]]]]; re_eval. Qed.

Lemma re_cat_eq (p : str) :
  matched (re_match re_cat p)
  = match p with
    | a :: b :: tail => is_digit a && is_digit b && at_end tail
    | _ => false
    end.
Proof. destruct p as [|a [|b tail]]; re_eval. Qed.

Lemma re_scope_id_eq (p : str) :
  matched (re_match Scope.re_id p)
  = match p with
    | a :: b :: dt :: c :: d :: tail =>
        is_digit a && is_digit b && (46 =? dt)%N && is_digit c
        && is_digit d && at_end tail
    | _ => false
    end.
Proof. destruct p as [|a [|b [|dt [|c [|d tail]]]]]; re_eval. Qed.

Lemma re_cat_dot_eq (a b : N) (t : str) :
  matched (re_match (re_cat_dot [a; b]) t) = startswith t [a; b; 46%N].
Proof.
  destruct t as [|x [|y [|z t]]]; unfold re_match; simpl;
    rewrite ?(N.eqb_sym a), ?(N.eqb_sym b), ?(N.eqb_sym 46);
    case_tests; reflexivity.
Qed.

Lemma extract_number_eq (t : str) :
  _extract_number t
  = match t with
    | a :: b :: tail =>
        if is_digit a && is_digit b
           && (at_end tail
               || match tail with
                  | s :: c :: d :: tail' =>
                      ((s =? 46)%N || (s =? 45)%N) && is_digit c
                      && is_digit d && at_end tail'
                  | _ => false
                  end)
        then Some (Py.int [a; b]) else None
    | _ => None
    end.
Proof.
  unfold _extract_number.
  destruct t as [|a [|b tail]];
    [reflexivity | unfold re_match; simpl; case_tests; reflexivity |].
  unfold re_match, re_num_id, re_num_cat, re_num_area.
  cbn [conc run digit2 digit dot chr].
  destruct (is_digit a); [|reflexivity].
  destruct (is_digit b); [|reflexivity].
  cbn [andb]. rewrite !consumed_2.
  destruct tail as [|s [|c [|d tail']]].
  - reflexivity.
  - cbn [at_end]. rewrite (N.eqb_sym 46 s), (N.eqb_sym 45 s).
    destruct (s =? 46)%N, (s =? newline)%N, (s =? 45)%N; reflexivity.
  - cbn [at_end]. rewrite (N.eqb_sym 46 s), (N.eqb_sym 45 s).
    destruct (s =? 46)%N, (is_digit c), (s =? 45)%N; reflexivity.
  - rewrite (N.eqb_sym 46 s), (N.eqb_sym 45 s).
    assert (A : at_end (s :: c :: d :: tail') = false) by reflexivity.
    rewrite A. cbn [orb group_of group Nat.eqb].
    destruct (s =? 46)%N eqn:E46.
    + apply N.eqb_eq in E46. subst s. cbn [orb].
      destruct (is_digit c); [|reflexivity].
      destruct (is_digit d); [|reflexivity].
      destruct (at_end tail'); reflexivity.
    + destruct (s =? 45)%N; [|reflexivity]. cbn [orb].
      destruct (is_digit c); [|reflexivity].
      destruct (is_digit d); [|reflexivity].
      destruct (at_end tail'); reflexivity.
Qed.

Lemma is_in_scope_cons (target pattern : str) (rest : list str) :
  is_in_scope target (pattern :: rest)
  = is_in_scope target [pattern] || is_in_scope target rest.
Proof.
  cbn [is_in_scope].
  destruct (re_match re_range (strip pattern)) as [m|].
  - destruct (_extract_number target) as [n|]; [|reflexivity].
    destruct (_ && _); reflexivity.
  - destruct (matched (re_match re_cat (strip pattern))).
    + destruct (match _extract_number target with
                | Some n => _ | None => false end); [reflexivity|].
      destruct (matched (re_match (re_cat_dot (strip pattern)) target));
        reflexivity.
    + destruct (matched (re_match Scope.re_id (strip pattern)));
        [|reflexivity].
      destruct (str_eqb target (strip pattern)); reflexivity.
Qed.

(** X26.  A scope admits a target exactly when one of its patterns alone
    admits it: the scope of two lists joined is the union of their
    scopes, so lengthening a scope never takes a target out of it and
    the order of the patterns does not matter. *)
Theorem is_in_scope_union (target : str) (scope more : list str) :
  is_in_scope target (scope ++ more)
  = is_in_scope target scope || is_in_scope target more
  /\ is_in_scope target scope
     = existsb (fun pattern => is_in_scope target [pattern]) scope
  /\ is_in_scope target (scope ++ more) = is_in_scope target (more ++ scope).
Proof.
  assert (U : forall s m, is_in_scope target (s ++ m)
                          = is_in_scope target s || is_in_scope target m).
  { intros s m. induction s as [|p s IH]; [reflexivity|].
    cbn [app]. rewrite (is_in_scope_cons target p (s ++ m)), IH.
    rewrite (is_in_scope_cons target p s). apply orb_assoc. }
  split; [apply U|]. split.
  - induction scope as [|p s IH]; [reflexivity|].
    rewrite is_in_scope_cons, IH. reflexivity.
  - rewrite !U. apply orb_comm.
Qed.

(** X27.  What one pattern admits, white space around it stripped.  A
    band [NN-MM] admits the targets whose leading number lies between
    the two numbers, ends included.  A category [NN] admits the targets
    with that leading number and those that begin with [NN.].  An ID
    [NN.MM] admits only the target equal to it.  A band written with an
    en dash admits nothing. *)
Theorem is_in_scope_single (target pattern : str) (a b c d : N) :
  is_digit a = true -> is_digit b = true ->
  is_digit c = true -> is_digit d = true ->
  (strip pattern = [a; b; 45; c; d]%N ->
   is_in_scope target [pattern]
   = match _extract_number target with
     | Some n => (Py.int [a; b] <=? n)%Z && (n <=? Py.int [c; d])%Z
     | None => false
     end)
  /\ (strip pattern = [a; b] ->
      is_in_scope target [pattern]
      = match _extract_number target with
        | Some n => (n =? Py.int [a; b])%Z
        | None => false
        end
        || startswith target [a; b; 46%N])
  /\ (strip pattern = [a; b; 46; c; d]%N ->
      is_in_scope target [pattern] = str_eqb target [a; b; 46; c; d]%N)
  /\ (strip pattern = [a; b; en_dash; c; d] ->
      is_in_scope target [pattern] = false).
Proof.
  intros Ha Hb Hc Hd. cbn [is_in_scope].
  split; [|split; [|split]]; intros ->.
  - assert (R : re_match re_range [a; b; 45; c; d]%N
                = Some [(2%nat, [c; d]); (1%nat, [a; b])])
      by (rewrite re_range_eq, Ha, Hb, Hc, Hd; reflexivity).
    rewrite R. cbv zeta.
    destruct (_extract_number target) as [n|]; [|reflexivity].
    match goal with
    | |- (if ?x then true else false) = _ =>
        destruct x eqn:X; symmetry; exact X
    end.
  - assert (R : re_match re_range [a; b] = None)
      by (rewrite re_range_eq; reflexivity).
    assert (C : matched (re_match re_cat [a; b]) = true)
      by (rewrite re_cat_eq, Ha, Hb; reflexivity).
    rewrite R, C, re_cat_dot_eq.
    destruct (match _extract_number target with
              | Some n => _ | None => false end); [reflexivity|].
    destruct (startswith target [a; b; 46%N]); reflexivity.
  - assert (R : re_match re_range [a; b; 46; c; d]%N = None)
      by (rewrite re_range_eq, Ha, Hb; reflexivity).
    assert (C : matched (re_match re_cat [a; b; 46; c; d]%N) = false)
      by (rewrite re_cat_eq, Ha, Hb; reflexivity).
    assert (I : matched (re_match Scope.re_id [a; b; 46; c; d]%N) = true)
      by (rewrite re_scope_id_eq, Ha, Hb, Hc, Hd; reflexivity).
    rewrite R, C, I. destruct (str_eqb target _); reflexivity.
  - assert (R : re_match re_range [a; b; en_dash; c; d] = None)
      by (rewrite re_range_eq, Ha, Hb; reflexivity).
    assert (C : matched (re_match re_cat [a; b; en_dash; c; d]) = false)
      by (rewrite re_cat_eq, Ha, Hb; reflexivity).
    assert (I : matched (re_match Scope.re_id [a; b; en_dash; c; d])
                = false)
      by (rewrite re_scope_id_eq, Ha, Hb; reflexivity).
    rewrite R, C, I. reflexivity.
Qed.

Lemma is_in_scope_single_witness :
  is_in_scope (lit "26.01") [lit " 20-29 "]
  = match _extract_number (lit "26.01") with
    | Some n => (Py.int (lit "20") <=? n)%Z && (n <=? Py.int (lit "29"))%Z
    | None => false
    end.
Proof.
  apply (proj1 (is_in_scope_single (lit "26.01") (lit " 20-29 ")
                  50 48 50 57 eq_refl eq_refl eq_refl eq_refl)).
  reflexivity.
Defined.

(** X28.  The leading number of a target is defined exactly for the
    forms [NN], [NN.MM] and [NN-MM] (a line break may follow); it is the
    number of the first two digits and lies in 0..99.  A target with
    anything after these forms, a title for instance, has none. *)
Theorem extract_number_forms (target : str) (n : Z) :
  _extract_number target = Some n <->
  exists a b tail,
    target = a :: b :: tail
    /\ is_digit a = true /\ is_digit b = true
    /\ n = Py.int [a; b] /\ (0 <= n <= 99)%Z
    /\ (at_end tail = true
        \/ exists s c d tail',
             tail = s :: c :: d :: tail'
             /\ (s = 46%N \/ s = 45%N)
             /\ is_digit c = true /\ is_digit d = true
             /\ at_end tail' = true).
Proof.
  rewrite extract_number_eq. split.
  - destruct target as [|a [|b tail]]; try discriminate.
    destruct (is_digit a) eqn:Ha; [|discriminate].
    destruct (is_digit b) eqn:Hb; [|discriminate].
    cbn [andb]. destruct (at_end tail || _) eqn:T; [|discriminate].
    intros H; injection H as <-. exists a, b, tail.
    split; [reflexivity|]. split; [exact Ha|]. split; [exact Hb|].
    split; [reflexivity|]. split; [apply int_two_digits; assumption|].
    apply orb_true_iff in T. destruct T as [T|T]; [left; exact T|].
    right. destruct tail as [|s [|c [|d tail']]]; try discriminate.
    rewrite !andb_true_iff, orb_true_iff, !N.eqb_eq in T.
    destruct T as [[[S C] D] E]. exists s, c, d, tail'. auto.
  - intros [a [b [tail [-> [Ha [Hb [-> [_ T]]]]]]]].
    rewrite Ha, Hb. cbn [andb].
    destruct T as [T|[s [c [d [tail' [-> [S [C [D E]]]]]]]]].
    + rewrite T. reflexivity.
    + rewrite C, D, E.
      replace ((s =? 46)%N || (s =? 45)%N) with true
        by (destruct S as [-> | ->]; reflexivity).
      rewrite orb_true_r. reflexivity.
Qed.

End ScopePatterns.

(** ** scope.py: when a manifest restricts *)

Section ScopeManifest.
Import Scope.

Variable repr : value -> str.

(** X29.  A scope is loaded only from a manifest that is a mapping with
    a list under [scope]; its patterns are the texts of the list's
    items.  [load_scope] raises in two cases only: reading the manifest
    raises an exception that is neither a [YAMLError] nor an [OSError]
    ([UnicodeDecodeError] for a file that is not valid UTF-8), which is
    passed on; or the manifest loads as something that is no mapping and
    not empty, which raises [AttributeError].  In every other case there
    is no restriction, and [check_scope] refuses a target only under a
    loaded scope that does not admit it. *)
Theorem load_scope_restricts (fs : FS) (env : Env)
        (scope_file : option path) :
  (forall patterns,
     load_scope repr fs env scope_file = Ok (Some patterns) <->
     exists f data items,
       match scope_file with
       | Some f' => f' = f
       | None => find_scope_file fs env = Some f
       end
       /\ yaml_imported env = true
       /\ safe_load fs f = Ok (VDict data)
       /\ dict_get (KStr (lit "scope")) data = Some (VList items)
       /\ patterns = List.map (py_str repr) items)
  /\ (forall e,
        load_scope repr fs env scope_file = Raise e <->
        exists f,
          match scope_file with
          | Some f' => f' = f
          | None => find_scope_file fs env = Some f
          end
          /\ yaml_imported env = true
          /\ (safe_load fs f = Raise e /\ yaml_or_os_error e = false
              \/ e = AttributeError
                 /\ exists v, safe_load fs f = Ok v
                              /\ truthy v = true /\ is_dict v = false))
  /\ (forall target message,
        check_scope repr fs env target scope_file
        = Ok (false, message) <->
        exists patterns,
          load_scope repr fs env scope_file = Ok (Some patterns)
          /\ is_in_scope target patterns = false
          /\ message = Some (OutOfScope target patterns)).
Proof.
  set (found := match scope_file with
                | None => find_scope_file fs env
                | Some f => Some f
                end).
  assert (F : forall f, found = Some f <->
                match scope_file with
                | Some f' => f' = f
                | None => find_scope_file fs env = Some f
                end).
  { intros f. subst found. destruct scope_file as [f'|].
    - split; [intros H; injection H; auto | intros ->; reflexivity].
    - reflexivity. }
  assert (L : load_scope repr fs env scope_file
              = match found with
                | None => Ok None
                | Some f =>
                    if negb (yaml_imported env) then Ok None
                    else
                      match safe_load fs f with
                      | Raise e =>
                          if yaml_or_os_error e then Ok None else Raise e
                      | Ok v =>
                          match (if truthy v then v else VDict []) with
                          | VDict data =>
                              match dict_get (KStr (lit "scope")) data with
                              | Some (VList l) =>
                                  Ok (Some (List.map (py_str repr) l))
                              | _ => Ok None
                              end
                          | _ => Raise AttributeError
                          end
                      end
                end).
  { unfold load_scope. fold found. destruct found as [f|]; [|reflexivity].
    destruct (negb (yaml_imported env)); [reflexivity|].
    destruct (safe_load fs f) as [v|e]; [|reflexivity].
    destruct (if truthy v then v else VDict []); try reflexivity.
    destruct (dict_get (KStr (lit "scope")) d) as [[| | |s| |]|];
      try reflexivity.
    destruct (str_eqb s (lit "all")); reflexivity. }
  split; [|split].
  - intros patterns. rewrite L. split.
    + destruct found as [f|] eqn:Ef; [|discriminate].
      destruct (yaml_imported env) eqn:Y; [|discriminate]. cbn [negb].
      destruct (safe_load fs f) as [v|e] eqn:S;
        [|destruct (yaml_or_os_error e); discriminate].
      destruct (truthy v) eqn:T; [|cbn [dict_get]; discriminate].
      destruct v as [| | | | |data]; try discriminate.
      destruct (dict_get (KStr (lit "scope")) data) as [[| | | |items|]|]
        eqn:G; try discriminate.
      intros H; injection H as <-.
      exists f, data, items. rewrite <- (F f).
      repeat split; assumption || reflexivity.
    + intros [f [data [items [Hf [Y [S [G ->]]]]]]].
      apply F in Hf. rewrite Hf, Y, S. cbn [negb].
      destruct data as [|kv data]; [discriminate|].
      cbn [truthy]. rewrite G. reflexivity.
  - intros e. rewrite L. split.
    + destruct found as [f|] eqn:Ef; [|discriminate].
      destruct (yaml_imported env) eqn:Y; [|discriminate]. cbn [negb].
      intros H. exists f. rewrite <- (F f).
      split; [reflexivity|]. split; [reflexivity|].
      destruct (safe_load fs f) as [v|e'] eqn:S.
      * right. destruct (truthy v) eqn:T.
        -- destruct v as [| | | | |data];
             try (injection H as <-; split; [reflexivity|];
                  eexists; repeat split; try eassumption; reflexivity).
           destruct (dict_get (KStr (lit "scope")) data) as [[| | | | |]|];
             discriminate.
        -- cbn [dict_get] in H. discriminate.
      * left. destruct (yaml_or_os_error e') eqn:C; [discriminate|].
        injection H as <-. split; [reflexivity | exact C].
    + intros [f [Hf [Y [[S C] | [-> [v [S [T N]]]]]]]];
        apply F in Hf; rewrite Hf, Y, S; cbn [negb].
      * rewrite C. reflexivity.
      * rewrite T. destruct v; try discriminate; reflexivity.
  - intros target message. unfold check_scope.
    destruct (load_scope repr fs env scope_file) as [[patterns|]|e];
      cbn [bind].
    + destruct (is_in_scope target patterns) eqn:I.
      * split; [discriminate|].
        intros [ps [H [I' _]]]. injection H as <-. congruence.
      * split.
        -- intros H; injection H as <-. exists patterns. auto.
        -- intros [ps [H [_ ->]]]. injection H as <-. reflexivity.
    + split; [discriminate | intros [ps [H _]]; discriminate].
    + split; [discriminate | intros [ps [H _]]; discriminate].
Qed.

End ScopeManifest.

Lemma load_scope_restricts_witness :
  Scope.load_scope Sample.no_repr (Tree.fs_of Sample.scoped)
                   (Sample.in_dir (Path "/work/agent")) None
  = Ok (Some [lit "20-29"])
  /\ Scope.load_scope Sample.no_repr (Tree.fs_of Sample.scoped)
                      (Sample.in_dir (Path "/work/binary")) None
     = Raise UnicodeDecodeError.
Proof.
  split.
  - apply (proj1 (load_scope_restricts Sample.no_repr
                    (Tree.fs_of Sample.scoped)
                    (Sample.in_dir (Path "/work/agent")) None)).
    exists (Path "/work/agent/jd.yaml"),
      [(KStr (lit "scope"), VList [VStr (lit "20-29")])],
      [VStr (lit "20-29")].
    repeat split.
  - apply (proj1 (proj2 (load_scope_restricts Sample.no_repr
                           (Tree.fs_of Sample.scoped)
                           (Sample.in_dir (Path "/work/binary")) None))).
    exists (Path "/work/binary/jd.yaml").
    split; [reflexivity|]. split; [reflexivity|]. left.
    split; reflexivity.
Defined.

(** ** cli.py: removing empty mappings *)

Section CleanEmpty.
Import Cli.

Lemma cleaned_dict (d : dict) :
  cleaned (VDict d)
  = VDict (flat_map
             (fun kv =>
                match snd kv with
                | VDict _ =>
                    match cleaned (snd kv) with
                    | VDict [] => []
                    | x' => [(fst kv, x')]
                    end
                | _ => [kv]
                end) d).
Proof.
  cbn [cleaned]. f_equal. induction d as [|[k x] d IH]; [reflexivity|].
  cbn [flat_map fst snd]. rewrite <- IH.
  destruct x as [| | | | |s]; try reflexivity.
  destruct (cleaned (VDict s)) as [| | | | |[|kv s']]; reflexivity.
Qed.

Lemma clean_empty_dicts_eq (d : dict) :
  _clean_empty_dicts d
  = flat_map
      (fun kv =>
         match snd kv with
         | VDict sub =>
             match _clean_empty_dicts sub with
             | [] => []
             | sub' => [(fst kv, VDict sub')]
             end
         | _ => [kv]
         end) d.
Proof.
  unfold _clean_empty_dicts at 1. rewrite cleaned_dict.
  apply flat_map_ext. intros [k x]. cbn [fst snd].
  destruct x; reflexivity.
Qed.

Lemma cleaned_twice (v : value) : cleaned (cleaned v) = cleaned v.
Proof.
  induction v as [v Hv | d IH] using value_dict_ind.
  - destruct v; try reflexivity. discriminate.
  - rewrite cleaned_dict, cleaned_dict. f_equal.
    induction d as [|[k x] d IHd]; [reflexivity|].
    cbn [flat_map fst snd]. rewrite flat_map_app.
    rewrite IHd by (intros k' x' H; apply (IH k' x'); right; exact H).
    f_equal.
    pose proof (IH k x (or_introl eq_refl)) as Hx.
    destruct x as [| | | | |s]; try reflexivity.
    rewrite cleaned_dict in Hx |- *.
    destruct (flat_map _ s) as [|kv s'] eqn:E; [reflexivity|].
    cbn [flat_map fst snd]. rewrite Hx. reflexivity.
Qed.

(** X30.  [_clean_empty_dicts] leaves a mapping that it would not change
    again; under no key is an empty mapping left, and the mappings that
    stay are clean themselves; the entries whose values are no mappings
    all stay, in their order. *)
Theorem clean_empty_dicts_clean (d : dict) :
  _clean_empty_dicts (_clean_empty_dicts d) = _clean_empty_dicts d
  /\ (forall k sub,
        In (k, VDict sub) (_clean_empty_dicts d) ->
        sub <> [] /\ _clean_empty_dicts sub = sub)
  /\ filter (fun kv => negb (is_dict (snd kv))) (_clean_empty_dicts d)
     = filter (fun kv => negb (is_dict (snd kv))) d.
Proof.
  assert (C : forall d', cleaned (VDict d') = VDict (_clean_empty_dicts d')).
  { intros d'. unfold _clean_empty_dicts. rewrite cleaned_dict.
    reflexivity. }
  split; [|split].
  - pose proof (cleaned_twice (VDict d)) as T. rewrite !C in T.
    injection T as T. exact T.
  - intros k sub H. rewrite clean_empty_dicts_eq in H.
    apply in_flat_map in H. destruct H as [[k' x] [_ H]].
    cbn [fst snd] in H. destruct x as [| | | | |s];
      try (destruct H as [H|[]]; discriminate).
    destruct (_clean_empty_dicts s) as [|kv s'] eqn:E; [destruct H|].
    destruct H as [H|[]]. injection H as _ <-.
    split; [discriminate|].
    pose proof (cleaned_twice (VDict s)) as T. rewrite !C, E in T.
    injection T as T. exact T.
  - rewrite clean_empty_dicts_eq.
    induction d as [|[k x] d IH]; [reflexivity|].
    cbn [flat_map fst snd]. rewrite filter_app, IH.
    destruct x as [| | | | |s]; try reflexivity.
    destruct (_clean_empty_dicts s); reflexivity.
Qed.

End CleanEmpty.
